(** * FedBiscuit: preference-data pipeline, checkpoint probing and evaluation loop

    A shallow embedding of
    - [federatedscope/llm/dataloader/shp.py]  (module [Shp]),
    - [federatedscope/llm/misc/fschat.py]     (module [FSChat]),
    - [federatedscope/llm/eval/eval_for_tldr/eval_summarization.py]
      (module [EvalSummarization]),
    together with the properties the specification states about them.

    Python values are modelled as follows.
    - [int] is [Z]; [str] is the list of its Unicode code points ([list N]);
    - a [dict] used as a record is a Rocq [Record]; a [dict] used as a map
      ([cat_idx_map], [inst_client_map], [num_sample_by_domains]) is a [gmap];
    - an exception is a value [Raise cls arg] carrying the name of its class;
    - code that reads or writes files, prints, or raises runs in the monad
      [M W], a state monad over a world [W] whose state survives an exception
      (as the effects of a Python statement survive the exception it raises). *)

From Stdlib Require Import ZArith Ascii String List Lia.
From stdpp Require Import base option list gmap strings pretty.

Local Open Scope Z_scope.

(** ** Python strings *)

Abbreviation pystr := (list N).

(** A string literal of the source (ASCII only). *)
Definition lit (s : string) : pystr := N_of_ascii <$> list_ascii_of_string s.

(** [str(n)] and the [{n}] of an f-string, for an [int]. *)
Definition str_Z (z : Z) : pystr := lit (pretty z).
Definition str_nat (n : nat) : pystr := lit (pretty n).

(** [s.split(c)[0]]: the part of [s] before the first occurrence of [c]. *)
Fixpoint split_head (c : N) (s : pystr) : pystr :=
  match s with
  | [] => []
  | x :: s' => if bool_decide (x = c) then [] else x :: split_head c s'
  end.

(** [xs[:n]] for a Python [int] [n >= 0]. *)
Definition slice_to {A} (n : Z) (xs : list A) : list A := take (Z.to_nat n) xs.

(** ** Exceptions and results *)

Inductive exn := Raise (cls : string) (arg : pystr).

Definition exn_class (e : exn) : string := let 'Raise cls _ := e in cls.

Definition KeyError (key : pystr) : exn := Raise "KeyError" key.
Definition ValueError (msg : string) : exn := Raise "ValueError" (lit msg).
Definition TypeError (msg : string) : exn := Raise "TypeError" (lit msg).
Definition IndexError (msg : string) : exn := Raise "IndexError" (lit msg).
Definition AttributeError (attr : string) : exn := Raise "AttributeError" (lit attr).
Definition OverflowError (msg : string) : exn := Raise "OverflowError" (lit msg).
Definition ZeroDivisionError : exn :=
  Raise "ZeroDivisionError" (lit "integer division or modulo by zero").

(** The [TypeError] of [str + int], whose message quotes the type [int], and
    that of [int - str]. *)
Definition double_quote : N := 34.

Definition TypeError_str_plus_int : exn :=
  Raise "TypeError"
    (lit "can only concatenate str (not " ++ [double_quote] ++ lit "int"
     ++ [double_quote] ++ lit ") to str").

Definition TypeError_int_minus_str : exn :=
  TypeError "unsupported operand type(s) for -: 'int' and 'str'".

Inductive res (A : Type) := Ok (a : A) | Err (e : exn).
Arguments Ok {A} a.
Arguments Err {A} e.

Global Instance res_ret : MRet res := λ A a, Ok a.
Global Instance res_bind : MBind res := λ A B f m,
  match m with
  | Ok a => f a
  | Err e => Err e
  end.

Global Instance res_fmap : FMap res := λ A B f m,
  match m with
  | Ok a => Ok (f a)
  | Err e => Err e
  end.

(** A [for] loop whose body computes one value per element and may raise:
    the first exception ends the loop. *)
Fixpoint for_each {A B} (body : A → res B) (xs : list A) : res (list B) :=
  match xs with
  | [] => Ok []
  | x :: xs' =>
      match body x with
      | Err e => Err e
      | Ok y =>
          match for_each body xs' with
          | Err e => Err e
          | Ok ys => Ok (y :: ys)
          end
      end
  end.

(** ** The state-and-exception monad *)

Definition M (W A : Type) : Type := W → res A * W.

Global Instance M_ret W : MRet (M W) := λ A a w, (Ok a, w).
Global Instance M_bind W : MBind (M W) := λ A B f m w,
  match m w with
  | (Ok a, w') => f a w'
  | (Err e, w') => (Err e, w')
  end.

Definition raise {W A} (e : exn) : M W A := λ w, (Err e, w).
Definition lift {W A} (r : res A) : M W A := λ w, (r, w).
Definition gets {W A} (f : W → A) : M W A := λ w, (Ok (f w), w).
Definition modify {W} (f : W → W) : M W unit := λ w, (Ok tt, f w).

(** [try: c  except Cls as err: h err], where [catches e] tells whether the
    exception [e] is an instance of the class [Cls]: an exception that is
    not leaves the statement. *)
Definition try_except {W A} (catches : exn → bool) (c : M W A) (h : exn → M W A)
  : M W A := λ w,
  match c w with
  | (Ok a, w') => (Ok a, w')
  | (Err e, w') => if catches e then h e w' else (Err e, w')
  end.

(** A [for] loop with effects. *)
Fixpoint for_M {W A} (xs : list A) (body : A → M W unit) : M W unit :=
  match xs with
  | [] => mret tt
  | x :: xs' => _ ← body x; for_M xs' body
  end.

(** A [for] loop that threads a value through its iterations. *)
Fixpoint fold_M {W A S} (body : S → A → M W S) (acc : S) (xs : list A) : M W S :=
  match xs with
  | [] => mret acc
  | x :: xs' => acc' ← body acc x; fold_M body acc' xs'
  end.

(** ** [posixpath] *)

Definition sep : N := 47.

Definition startswith_sep (p : pystr) : bool :=
  match p with
  | c :: _ => bool_decide (c = sep)
  | [] => false
  end.

Definition endswith_sep (p : pystr) : bool :=
  match last p with
  | Some c => bool_decide (c = sep)
  | None => false
  end.

(** [os.path.join(a, b)]. *)
Definition os_path_join (a b : pystr) : pystr :=
  if startswith_sep b then b
  else if bool_decide (a = []) || endswith_sep a then a ++ b
  else a ++ [sep] ++ b.

(** [os.path.basename(p)]: [p[p.rfind('/') + 1:]]. *)
Definition os_path_basename (p : pystr) : pystr :=
  fold_left (λ acc c, if bool_decide (c = sep) then [] else acc ++ [c]) p [].

(** [head.rstrip('/')]. *)
Definition rstrip_sep (p : pystr) : pystr :=
  foldr (λ c acc, if bool_decide (c = sep) && bool_decide (acc = []) then [] else c :: acc) [] p.

(** [os.path.split(p)]. *)
Definition os_path_split (p : pystr) : pystr * pystr :=
  let tail := os_path_basename p in
  let head := take (length p - length tail) p in
  let head := if forallb (λ c, bool_decide (c = sep)) head then head else rstrip_sep head in
  (head, tail).

(** ** Facts about strings and paths *)

Lemma lit_inj (s1 s2 : string) : lit s1 = lit s2 → s1 = s2.
Proof.
  unfold lit. intros H.
  rewrite <- (string_of_list_ascii_of_string s1), <- (string_of_list_ascii_of_string s2).
  f_equal. revert H. generalize (list_ascii_of_string s1) (list_ascii_of_string s2).
  induction l as [|a l IH]; intros [|b l']; simpl; try done.
  intros [= Hab Hl]. f_equal; [|by apply IH].
  rewrite <- (ascii_N_embedding a), <- (ascii_N_embedding b). by rewrite Hab.
Qed.

Lemma str_nat_inj (n m : nat) : str_nat n = str_nat m → n = m.
Proof. intros H%lit_inj. by apply pretty_nat_inj in H. Qed.

Lemma str_Z_inj (n m : Z) : str_Z n = str_Z m → n = m.
Proof. intros H%lit_inj. by apply pretty_Z_inj in H. Qed.

(** The decimal digits. *)
Definition is_digit (c : N) : Prop := (48 ≤ c ≤ 57)%N.

Lemma pretty_N_go_head (x : N) :
  ∀ s, (0 < x)%N →
       ∃ d rest, (d < 10)%N ∧ pretty_N_go x s = String (pretty_N_char d) rest.
Proof.
  induction (N.lt_wf_0 x) as [x _ IH]. intros s Hx.
  rewrite pretty_N_go_step by done.
  destruct (decide (x `div` 10 = 0)%N) as [H0|Hne].
  - rewrite H0, pretty_N_go_0. exists (x `mod` 10)%N, s. split; [|done].
    by apply N.mod_lt.
  - apply IH; [apply N.div_lt; lia|]. by apply N.neq_0_lt_0.
Qed.

Lemma pretty_N_char_digit (d : N) : (d < 10)%N → is_digit (N_of_ascii (pretty_N_char d)).
Proof.
  intros Hd. unfold is_digit.
  destruct d as [|p]; [vm_compute; split; discriminate|].
  do 4 (destruct p as [p|p|]; try lia; try (vm_compute; split; discriminate)).
Qed.

(** The decimal numeral of a natural number starts with a digit, [str(n)] of
    an [int] with a digit or the minus sign. *)
Lemma pretty_N_head (x : N) : ∃ c rest, lit (pretty x) = c :: rest ∧ is_digit c.
Proof.
  unfold pretty, pretty_N.
  destruct (decide (x = 0)%N) as [H0|Hne].
  - exists 48%N, []. split; [done|]. unfold is_digit. lia.
  - destruct (pretty_N_go_head x "") as (d & rest & Hd & Hgo); [lia|].
    rewrite Hgo. eexists _, _. split; [reflexivity|]. by apply pretty_N_char_digit.
Qed.

Lemma str_nat_head (n : nat) : ∃ c rest, str_nat n = c :: rest ∧ is_digit c.
Proof. apply pretty_N_head. Qed.

Definition minus_sign : N := 45.

Lemma str_Z_head (z : Z) :
  ∃ c rest, str_Z z = c :: rest ∧ (is_digit c ∨ c = minus_sign).
Proof.
  destruct z as [|p|p].
  - exists 48%N, []. split; [done|]. left. unfold is_digit. lia.
  - destruct (pretty_N_head (Npos p)) as (c & rest & Hc & Hd).
    exists c, rest. split; [exact Hc|by left].
  - eexists _, _. split; [reflexivity|by right].
Qed.

Lemma split_head_prefix (c : N) (s : pystr) : split_head c s `prefix_of` s.
Proof.
  induction s as [|x s IH]; simpl; [done|].
  case_bool_decide; [apply prefix_nil|]. by apply prefix_cons.
Qed.

Lemma split_head_not_elem (c : N) (s : pystr) : c ∉ split_head c s.
Proof.
  induction s as [|x s IH]; simpl; [apply not_elem_of_nil|].
  case_bool_decide; [apply not_elem_of_nil|].
  apply not_elem_of_cons. split; [congruence|done].
Qed.

Lemma split_head_id (c : N) (s : pystr) : c ∉ s → split_head c s = s.
Proof.
  induction s as [|x s IH]; simpl; [done|]. intros [Hx Hs]%not_elem_of_cons.
  rewrite bool_decide_eq_false_2 by congruence. by rewrite IH.
Qed.

Lemma split_head_elem (c : N) (s : pystr) :
  c ∈ s → ∃ rest, s = split_head c s ++ c :: rest.
Proof.
  induction s as [|x s IH]; simpl; [by intros ?%elem_of_nil|].
  case_bool_decide as Hx.
  - intros _. exists s. by rewrite Hx.
  - intros [->|Hs]%elem_of_cons; [done|].
    destruct (IH Hs) as [rest Hrest]. exists rest. simpl. by f_equal.
Qed.

(** A joined path ends as its last component does. *)
Lemma last_os_path_join (a b : pystr) : b ≠ [] → last (os_path_join a b) = last b.
Proof.
  intros Hb. unfold os_path_join.
  assert (Hl : is_Some (last b)).
  { destruct b as [|x b] using rev_ind; [done|]. rewrite last_snoc. by eexists. }
  destruct Hl as [y Hy].
  destruct (startswith_sep b); [done|].
  destruct (_ || _); rewrite !last_app; simpl; by rewrite ?Hy.
Qed.

(** * The preference-data pipeline ([dataloader/shp.py]) *)

Module Shp.

(** ** Data *)

(** One row of the Stanford Human Preferences corpus.  The corpus is a
    table, so the [zip] over its columns is an iteration over its rows. *)
Record shp_row := ShpRow {
  history : pystr;
  human_ref_A : pystr;
  human_ref_B : pystr;
  labels : Z;
  hf_domain : pystr
}.

Inductive split_tag := train | validation | test.

(** The value of [datasets.load_dataset("stanfordnlp/SHP")]. *)
Definition corpus : Type := split_tag → list shp_row.

(** A comparison record: a [dict] with the keys [instruction], [output_A],
    [output_B], [choice], [category] and, once [shp_dataset] has merged the
    client assignment, [domain].  [choice] is an [int] until the letter-choice
    shaper replaces it by a [str]; [C] is its type. *)
Record sample (C : Type) := Sample {
  instruction : pystr;
  output_A : pystr;
  output_B : pystr;
  choice : C;
  category : pystr;
  domain : option pystr
}.
Arguments Sample {C}.
Arguments instruction {C}.
Arguments output_A {C}.
Arguments output_B {C}.
Arguments choice {C}.
Arguments category {C}.
Arguments domain {C}.

(** An instruction record: a [dict] with the keys [instruction], [category]
    and, once [shp_dataset] has coded the categories, [categories]. *)
Record inst := Inst {
  inst_instruction : pystr;
  inst_category : pystr;
  categories : option nat
}.

(** The keys of [SHP_PROMPT_DICT]. *)
Inductive prompt_key := shp | shp_cmp | mix_cmp.

(** What [print] receives. *)
Inductive printed :=
  | PrintStr (s : pystr)
  | PrintDict (d : gmap pystr nat).

Record config := Config { federate_client_num : nat }.

Section Pipeline.

Set Default Proof Using "Type".

(** The attributes of an [LLMDataset] other than [input_ids], and those of an
    [LLMComparisonDataset] other than its two sub-datasets (the classes are
    defined in [llm_dataset.py], outside this development). *)
Context {attrs cmp_attrs : Type}.

Record llm_dataset := LLMDatasetObj {
  input_ids : list (list Z);
  llm_attrs : attrs
}.

Record cmp_dataset := LLMComparisonDatasetObj {
  win_dataset : llm_dataset;
  lose_dataset : llm_dataset;
  cmp_other : cmp_attrs
}.

(** An unpickled object: [pickle.load] returns an object of the class that
    was dumped, whatever the path.  An [LLMDataset] has no attribute
    [win_dataset]; an [LLMComparisonDataset] is taken to have no [input_ids]
    of its own. *)
Inductive pyobj :=
  | ObjComparison (d : cmp_dataset)
  | ObjLLM (d : llm_dataset).

(** The content of a file under the data root: the lines of a JSONL file of
    comparison records or of instruction records, or a pickled dataset. *)
Inductive file :=
  | CmprJsonl (rows : list (sample Z))
  | InstJsonl (rows : list inst)
  | Pickle (obj : pyobj).

Record world := World {
  fs : gmap pystr file;
  stdout : list printed
}.

Definition os_path_exists (fp : pystr) : M world bool :=
  gets (λ w, bool_decide (is_Some (fs w !! fp))).

(** [os.path.exists(train_fp) and os.path.exists(val_fp) and
    os.path.exists(test_fp)]. *)
Definition all_exist (fps : pystr * pystr * pystr) : M world bool :=
  let '(train_fp, val_fp, test_fp) := fps in
  e_train ← os_path_exists train_fp;
  e_val ← os_path_exists val_fp;
  e_test ← os_path_exists test_fp;
  mret (e_train && e_val && e_test).

(** [open(fp, 'w')] followed by the writes and the close, as one step: the
    opening and the writes are taken to succeed, so that a file is seen only
    once it is written in full.  What a failing [open] or a failing dump
    leaves behind (an empty or truncated file) is not followed. *)
Definition write_file (fp : pystr) (f : file) : M world unit :=
  modify (λ w, World (<[fp := f]> (fs w)) (stdout w)).

Definition print (p : printed) : M world unit :=
  modify (λ w, World (fs w) (stdout w ++ [p])).

(** ** External collaborators *)

(** [tokenizer(text)['input_ids']] and [tokenizer.name_or_path]. *)
Variable tokenizer : pystr → list Z.
Variable name_or_path : pystr.

(** [datasets.load_dataset("stanfordnlp/SHP")]: the corpus, or the exception
    of a failed fetch. *)
Variable load_dataset : res corpus.

(** [LDASplitter(num_clients, alpha=0.3)(records)]. *)
Variable LDASplitter : nat → list inst → list (list inst).

(** The constructors [LLMComparisonDataset(list, tokenizer, prompt, ...)] and
    [LLMDataset(list, tokenizer, prompt, output_tag='choice')]. *)
Variable LLMComparisonDataset : list (sample Z) → prompt_key → res cmp_dataset.
Variable LLMDataset : list (sample pystr) → prompt_key → res llm_dataset.

(** Modelled from the spec: [load_jsonl] of [dataloader.py], whose source is
    not part of this development.  Each line is parsed as a JSON object and
    only the configured fields are projected: unknown fields are ignored, a
    missing field fails with a FormatError.  Called with the five fields of a
    comparison record. *)
Definition load_jsonl_cmpr (fp : pystr) : M world (list (sample Z)) := λ w,
  match fs w !! fp with
  | Some (CmprJsonl rows) =>
      (Ok ((λ r, Sample (instruction r) (output_A r) (output_B r) (choice r)
                        (category r) None) <$> rows), w)
  | Some (InstJsonl (_ :: _)) => (Err (Raise "FormatError" (lit "output_A")), w)
  | Some (InstJsonl []) => (Ok [], w)
  | Some (Pickle _) => (Err (Raise "JSONDecodeError" []), w)
  | None => (Err (Raise "FileNotFoundError" fp), w)
  end.

(** Modelled from the spec: [load_jsonl] called with the two fields
    [instruction] and [category]. *)
Definition load_jsonl_inst (fp : pystr) : M world (list inst) := λ w,
  match fs w !! fp with
  | Some (CmprJsonl rows) =>
      (Ok ((λ r, Inst (instruction r) (category r) None) <$> rows), w)
  | Some (InstJsonl rows) =>
      (Ok ((λ r, Inst (inst_instruction r) (inst_category r) None) <$> rows), w)
  | Some (Pickle _) => (Err (Raise "JSONDecodeError" []), w)
  | None => (Err (Raise "FileNotFoundError" fp), w)
  end.

(** [pickle.load] on the file at [fp]. *)
Definition pickle_load (fp : pystr) : M world pyobj := λ w,
  match fs w !! fp with
  | Some (Pickle o) => (Ok o, w)
  | Some _ => (Err (Raise "UnpicklingError" []), w)
  | None => (Err (Raise "FileNotFoundError" fp), w)
  end.

(** ** [_download_shp_cmpr] *)

Definition underscore : N := 95.

Definition cmpr_record (r : shp_row) : sample Z :=
  {| instruction := history r;
     output_A := human_ref_A r;
     output_B := human_ref_B r;
     choice := labels r;
     category := split_head underscore (hf_domain r);
     domain := None |}.

Definition cmpr_paths (data_root : pystr) : pystr * pystr * pystr :=
  (os_path_join data_root (lit "shp_cmpr_train.jsonl"),
   os_path_join data_root (lit "shp_cmpr_val.jsonl"),
   os_path_join data_root (lit "shp_cmpr_test.jsonl")).

Definition _download_shp_cmpr (data_root : pystr)
  : M world (list (sample Z) * list (sample Z) * list (sample Z)) :=
  let '(train_fp, val_fp, test_fp) := cmpr_paths data_root in
  cached ← all_exist (train_fp, val_fp, test_fp);
  if (cached : bool) then
    list_train_dict ← load_jsonl_cmpr train_fp;
    list_val_dict ← load_jsonl_cmpr val_fp;
    list_test_dict ← load_jsonl_cmpr test_fp;
    mret (list_train_dict, list_val_dict, list_test_dict)
  else
    dataset ← lift load_dataset;
    let list_train_dict := cmpr_record <$> dataset train in
    _ ← write_file train_fp (CmprJsonl list_train_dict);
    let list_val_dict := cmpr_record <$> dataset validation in
    _ ← write_file val_fp (CmprJsonl list_val_dict);
    let list_test_dict := cmpr_record <$> dataset test in
    _ ← write_file test_fp (CmprJsonl list_test_dict);
    mret (list_train_dict, list_val_dict, list_test_dict).

(** ** [_download_shp] *)

Definition inst_record (r : shp_row) : inst :=
  {| inst_instruction := history r;
     inst_category := split_head underscore (hf_domain r);
     categories := None |}.

(** One iteration of the inner loop: [instructions] is the list of the
    instructions seen so far, [list_data_dict] the output of the split. *)
Definition dedup_step (acc : list pystr * list inst) (r : shp_row)
  : list pystr * list inst :=
  let '(instructions, list_data_dict) := acc in
  if bool_decide (history r ∈ instructions) then acc
  else (instructions ++ [history r], list_data_dict ++ [inst_record r]).

(** The inner loop over one split; [instructions] is not reset between
    splits. *)
Definition dedup_split (instructions : list pystr) (rows : list shp_row)
  : list pystr * list inst :=
  fold_left dedup_step rows (instructions, []).

Definition rlhf_paths (data_root : pystr) : pystr * pystr * pystr :=
  (os_path_join data_root (lit "shp_rlhf_train.jsonl"),
   os_path_join data_root (lit "shp_rlhf_val.jsonl"),
   os_path_join data_root (lit "shp_rlhf_test.jsonl")).

Definition _download_shp (data_root : pystr)
  : M world (list inst * list inst * list inst) :=
  let '(train_fp, val_fp, test_fp) := rlhf_paths data_root in
  cached ← all_exist (train_fp, val_fp, test_fp);
  if (cached : bool) then
    list_train_dict ← load_jsonl_inst train_fp;
    list_val_dict ← load_jsonl_inst val_fp;
    list_test_dict ← load_jsonl_inst test_fp;
    mret (list_train_dict, list_val_dict, list_test_dict)
  else
    dataset ← lift load_dataset;
    let instructions := [] in
    let '(instructions, list_train_dict) := dedup_split instructions (dataset train) in
    _ ← write_file train_fp (InstJsonl list_train_dict);
    let '(instructions, list_val_dict) := dedup_split instructions (dataset validation) in
    _ ← write_file val_fp (InstJsonl list_val_dict);
    let '(instructions, list_test_dict) := dedup_split instructions (dataset test) in
    _ ← write_file test_fp (InstJsonl list_test_dict);
    mret (list_train_dict, list_val_dict, list_test_dict).

(** ** [shp_dataset] *)

(** One iteration of the loop that codes the categories in first-seen order
    and stores the code under [categories]. *)
Definition code_step (acc : gmap pystr nat * list inst) (s : inst)
  : gmap pystr nat * list inst :=
  let '(cat_idx_map, done) := acc in
  let cat_idx_map :=
    match cat_idx_map !! inst_category s with
    | None => <[inst_category s := size cat_idx_map]> cat_idx_map
    | Some _ => cat_idx_map
    end in
  (cat_idx_map,
   done ++ [Inst (inst_instruction s) (inst_category s)
                 (cat_idx_map !! inst_category s)]).

Definition code_categories (list_train_instructions : list inst) : list inst :=
  (fold_left code_step list_train_instructions (∅, [])).2.

(** [enumerate(xs)]. *)
Definition enumerate {A} (xs : list A) : list (nat * A) :=
  zip (seq 0 (length xs)) xs.

(** The instruction-to-client map: a later assignment of an instruction
    overwrites an earlier one. *)
Definition build_inst_client_map (inst_split_list : list (list inst))
  : gmap pystr nat :=
  fold_left
    (λ inst_client_map '(idx, sublist),
       fold_left (λ m s, <[inst_instruction s := idx]> m) sublist inst_client_map)
    (enumerate inst_split_list) ∅.

(** [sample['domain'] = sample['category']] followed by
    [sample['category'] = f"Client_{idx}"]. *)
Definition relabel (idx : nat) (s : sample Z) : sample Z :=
  {| instruction := instruction s;
     output_A := output_A s;
     output_B := output_B s;
     choice := choice s;
     category := lit "Client_" ++ str_nat idx;
     domain := Some (category s) |}.

(** The body of the merge loop; the lookup
    [inst_client_map[sample['instruction']]] raises [KeyError] on an
    instruction without entry. *)
Definition assign_client (inst_client_map : gmap pystr nat) (s : sample Z)
  : res (sample Z) :=
  match inst_client_map !! instruction s with
  | Some idx => Ok (relabel idx s)
  | None => Err (KeyError (instruction s))
  end.

(** [len_inst + len_resA + len_resB]. *)
Definition num_tokens {C} (s : sample C) : nat :=
  (length (tokenizer (instruction s)) + length (tokenizer (output_A s))
   + length (tokenizer (output_B s)))%nat.

Definition max_tokens : nat := 512.

(** The selection loop of lines 156-164. *)
Definition select_by_budget (list_train_dict : list (sample Z)) : list (sample Z) :=
  filter (λ s, (num_tokens s ≤ max_tokens)%nat) list_train_dict.

(** One iteration of the counting loop for the client label [client]. *)
Definition count_step (client : pystr) (acc : res (gmap pystr nat)) (s : sample Z)
  : res (gmap pystr nat) :=
  num_sample_by_domains ← acc;
  if bool_decide (category s = client) then
    match domain s with
    | None => Err (KeyError (lit "domain"))
    | Some d =>
        let num_sample_by_domains :=
          match num_sample_by_domains !! d with
          | None => <[d := 0%nat]> num_sample_by_domains
          | Some _ => num_sample_by_domains
          end in
        Ok (<[d := S (default 0%nat (num_sample_by_domains !! d))]> num_sample_by_domains)
    end
  else Ok num_sample_by_domains.

Definition count_domains (client : pystr) (l : list (sample Z)) : res (gmap pystr nat) :=
  fold_left (count_step client) l (Ok ∅).

(** The body of the diagnostic loop. *)
Definition print_client (new_list_train_dict : list (sample Z)) (client_id : nat)
  : M world unit :=
  _ ← print (PrintStr (lit "Client " ++ str_nat client_id ++ lit ":"));
  num_sample_by_domains ←
    lift (count_domains (lit "Client_" ++ str_nat client_id) new_list_train_dict);
  print (PrintDict num_sample_by_domains).

(** The diagnostic loop over [range(num_clients + 1)]. *)
Definition print_summary (num_clients : nat) (new_list_train_dict : list (sample Z))
  : M world unit :=
  for_M (seq 0 (num_clients + 1)) (print_client new_list_train_dict).

Definition shp_dataset (data_root : pystr) (num_clients : nat)
  : M world (list (sample Z) * list (sample Z) * list (sample Z)) :=
  '(list_train_dict, list_val_dict, list_test_dict) ← _download_shp_cmpr data_root;
  '(list_train_instructions, _, _) ← _download_shp data_root;
  let list_train_instructions := code_categories list_train_instructions in
  let inst_split_list := LDASplitter num_clients list_train_instructions in
  let inst_client_map := build_inst_client_map inst_split_list in
  list_train_dict ← lift (for_each (assign_client inst_client_map) list_train_dict);
  let new_list_train_dict := select_by_budget list_train_dict in
  _ ← print_summary num_clients new_list_train_dict;
  mret (new_list_train_dict, list_val_dict, list_test_dict).

(** ** [load_rlhf_dataset] *)

Definition load_rlhf_dataset (data_root : pystr) (max_num_test : Z)
  : M world (list inst * list inst * list inst) :=
  '(_, list_val_dict, list_test_dict) ← _download_shp data_root;
  let list_train_dict := list_val_dict ++ list_test_dict in
  let list_val_dict' := take (Nat.div (length list_test_dict) 2) list_test_dict in
  let list_test_dict' := drop (Nat.div (length list_test_dict) 2) list_test_dict in
  if bool_decide (0 < max_num_test) then
    mret (list_train_dict, slice_to max_num_test list_val_dict',
          slice_to max_num_test list_test_dict')
  else mret (list_train_dict, list_val_dict', list_test_dict').

(** ** [load_comparison_dataset] *)

(** [ds.input_ids = ds.input_ids[:max_num_test]]. *)
Definition truncate_input_ids (max_num_test : Z) (ds : llm_dataset) : llm_dataset :=
  {| input_ids := slice_to max_num_test (input_ids ds); llm_attrs := llm_attrs ds |}.

(** The four assignments that shrink the sub-datasets of one comparison
    dataset; an object without [win_dataset] raises [AttributeError]. *)
Definition shrink_comparison (max_num_test : Z) (o : pyobj) : res pyobj :=
  match o with
  | ObjComparison d =>
      Ok (ObjComparison
            {| win_dataset := truncate_input_ids max_num_test (win_dataset d);
               lose_dataset := truncate_input_ids max_num_test (lose_dataset d);
               cmp_other := cmp_other d |})
  | ObjLLM _ => Err (AttributeError "win_dataset")
  end.

(** The pickle paths of the comparison shape. *)
Definition comparison_paths (data_root : pystr) (num_clients : nat)
  : pystr * pystr * pystr :=
  let token_name := os_path_basename name_or_path in
  (os_path_join data_root (token_name ++ lit "_train_" ++ str_nat num_clients ++ lit ".pickle"),
   os_path_join data_root (token_name ++ lit "_val.pickle"),
   os_path_join data_root (token_name ++ lit "_test.pickle")).

(** The [else] branch of [load_comparison_dataset]: the build pipeline, then
    the three dumps. *)
Definition build_comparison (data_root : pystr) (num_clients : nat)
  : M world (pyobj * pyobj * pyobj) :=
  let '(train_fp, val_fp, test_fp) := comparison_paths data_root num_clients in
  '(list_train_dict, list_val_dict, list_test_dict) ←
    shp_dataset data_root num_clients;
  train_dataset ← lift (LLMComparisonDataset list_train_dict shp);
  val_dataset ← lift (LLMComparisonDataset list_val_dict shp);
  test_dataset ← lift (LLMComparisonDataset list_test_dict shp);
  _ ← write_file train_fp (Pickle (ObjComparison train_dataset));
  _ ← write_file val_fp (Pickle (ObjComparison val_dataset));
  _ ← write_file test_fp (Pickle (ObjComparison test_dataset));
  mret (ObjComparison train_dataset, ObjComparison val_dataset,
        ObjComparison test_dataset).

(** The [if] branch: the three loads. *)
Definition load_pickles (fps : pystr * pystr * pystr) : M world (pyobj * pyobj * pyobj) :=
  let '(train_fp, val_fp, test_fp) := fps in
  train_dataset ← pickle_load train_fp;
  val_dataset ← pickle_load val_fp;
  test_dataset ← pickle_load test_fp;
  mret (train_dataset, val_dataset, test_dataset).

(** The block [if max_num_test > 0: ...] that ends both loaders: the
    validation and the test dataset are shrunk in memory, after the loads or
    the dumps; [shrink] is the assignment made to each of the two. *)
Definition shrink_val_test (shrink : Z → pyobj → res pyobj) (max_num_test : Z)
    (ds : pyobj * pyobj * pyobj) : res (pyobj * pyobj * pyobj) :=
  let '(train_dataset, val_dataset, test_dataset) := ds in
  if bool_decide (0 < max_num_test) then
    val_dataset ← shrink max_num_test val_dataset;
    test_dataset ← shrink max_num_test test_dataset;
    Ok (train_dataset, val_dataset, test_dataset)
  else Ok (train_dataset, val_dataset, test_dataset).

Definition load_comparison_dataset (data_root : pystr) (cfg : config) (max_num_test : Z)
  : M world (pyobj * pyobj * pyobj) :=
  let num_clients := federate_client_num cfg in
  let fps := comparison_paths data_root num_clients in
  cached ← all_exist fps;
  ds ← (if (cached : bool) then load_pickles fps
        else build_comparison data_root num_clients);
  lift (shrink_val_test shrink_comparison max_num_test ds).

(** ** [load_shp_cmp_dataset_by_choice] *)

(** The body of the loop over [exchange_list_train_dict], a deep copy of the
    training list: the two outputs change places and the choice is flipped. *)
Definition exchange (s : sample Z) : sample Z :=
  {| instruction := instruction s;
     output_A := output_B s;
     output_B := output_A s;
     choice := 1 - choice s;
     category := category s;
     domain := domain s |}.

(** The exception of [chr(i)] for an [i] outside [range(0x110000)]: the
    argument is first converted to a C [int], and an [int] that does not fit
    one is an overflow. *)
Definition chr_error (i : Z) : exn :=
  if bool_decide (-2147483648 ≤ i ≤ 2147483647)
  then ValueError "chr() arg not in range(0x110000)"
  else OverflowError "Python int too large to convert to C int".

(** [chr(i)]. *)
Definition chr (i : Z) : res N :=
  if bool_decide (0 ≤ i < 1114112) then Ok (Z.to_N i)
  else Err (chr_error i).

(** [ord("A")]. *)
Definition ord_A : Z := 65.

(** [sample['choice'] = " " + chr(sample['choice'] + ord("A"))]. *)
Definition choice_to_letter (s : sample Z) : res (sample pystr) :=
  c ← chr (choice s + ord_A);
  Ok {| instruction := instruction s;
        output_A := output_A s;
        output_B := output_B s;
        choice := lit " " ++ [c];
        category := category s;
        domain := domain s |}.

(** Lines 313-325: the training list is doubled by its exchanged copy, then
    the choices of the three lists are mapped to letters, in the order
    train, test, val.  The exchanged list is a deep copy, so the loop over it
    leaves the training records as they are; the records are given here by
    their values, and [shape_objects] below gives the same lines on the
    objects. *)
Definition shape_by_choice (lists : list (sample Z) * list (sample Z) * list (sample Z))
  : res (list (sample pystr) * list (sample pystr) * list (sample pystr)) :=
  let '(list_train_dict, list_val_dict, list_test_dict) := lists in
  let exchange_list_train_dict := exchange <$> list_train_dict in
  let list_train_dict := list_train_dict ++ exchange_list_train_dict in
  list_train_dict ← for_each choice_to_letter list_train_dict;
  list_test_dict ← for_each choice_to_letter list_test_dict;
  list_val_dict ← for_each choice_to_letter list_val_dict;
  Ok (list_train_dict, list_val_dict, list_test_dict).

Definition choice_paths (data_root : pystr) (num_clients : nat)
  : pystr * pystr * pystr :=
  let token_name := os_path_basename name_or_path in
  (os_path_join data_root
     (token_name ++ lit "_train_choice_" ++ str_nat num_clients ++ lit ".pickle"),
   os_path_join data_root (token_name ++ lit "_val_choice.pickle"),
   os_path_join data_root (token_name ++ lit "_test_choice.pickle")).

Definition build_choice (data_root : pystr) (num_clients : nat)
  : M world (pyobj * pyobj * pyobj) :=
  let '(train_fp, val_fp, test_fp) := choice_paths data_root num_clients in
  lists ← shp_dataset data_root num_clients;
  '(list_train_dict, list_val_dict, list_test_dict) ← lift (shape_by_choice lists);
  train_dataset ← lift (LLMDataset list_train_dict shp_cmp);
  val_dataset ← lift (LLMDataset list_val_dict shp_cmp);
  test_dataset ← lift (LLMDataset list_test_dict shp_cmp);
  _ ← write_file train_fp (Pickle (ObjLLM train_dataset));
  _ ← write_file val_fp (Pickle (ObjLLM val_dataset));
  _ ← write_file test_fp (Pickle (ObjLLM test_dataset));
  mret (ObjLLM train_dataset, ObjLLM val_dataset, ObjLLM test_dataset).

(** [ds.input_ids = ds.input_ids[:max_num_test]] on an unpickled object. *)
Definition shrink_llm (max_num_test : Z) (o : pyobj) : res pyobj :=
  match o with
  | ObjLLM d => Ok (ObjLLM (truncate_input_ids max_num_test d))
  | ObjComparison _ => Err (AttributeError "input_ids")
  end.

Definition load_shp_cmp_dataset_by_choice (data_root : pystr) (cfg : config)
    (max_num_test : Z) : M world (pyobj * pyobj * pyobj) :=
  let num_clients := federate_client_num cfg in
  let fps := choice_paths data_root num_clients in
  cached ← all_exist fps;
  ds ← (if (cached : bool) then load_pickles fps
        else build_choice data_root num_clients);
  lift (shrink_val_test shrink_llm max_num_test ds).

(** Propositional goals are closed without the collaborators in the
    context. *)
Local Ltac prop_solve :=
  try clear LLMDataset; try clear LLMComparisonDataset; try clear LDASplitter;
  try clear load_dataset; try clear name_or_path; try clear tokenizer;
  tauto.

(** ** Running monadic code *)

Lemma all_exist_run (fps : pystr * pystr * pystr) (w : world) :
  ∃ b : bool, all_exist fps w = (Ok b, w).
Proof. destruct fps as [[a b] c]. eexists. reflexivity. Qed.

Lemma all_exist_true (train_fp val_fp test_fp : pystr) (w : world) :
  all_exist (train_fp, val_fp, test_fp) w = (Ok true, w) ↔
  is_Some (fs w !! train_fp) ∧ is_Some (fs w !! val_fp) ∧ is_Some (fs w !! test_fp).
Proof.
  unfold all_exist, os_path_exists, gets, mbind, M_bind, mret, M_ret.
  split.
  - intros H. injection H as H.
    apply andb_true_iff in H as [H H3]. apply andb_true_iff in H as [H1 H2].
    apply bool_decide_eq_true in H1, H2, H3. done.
  - intros (H1 & H2 & H3).
    rewrite !bool_decide_eq_true_2 by done. reflexivity.
Qed.

(** ** The deduplicating loader *)

(** The specification's reading of the deduplication, as a function of the
    instructions [seen] before: a row is kept when its instruction occurs
    neither in [seen] nor in an earlier row. *)
Fixpoint first_occurrences (seen : list pystr) (rows : list shp_row) : list shp_row :=
  match rows with
  | [] => []
  | r :: rows' =>
      if bool_decide (history r ∈ seen) then first_occurrences seen rows'
      else r :: first_occurrences (seen ++ [history r]) rows'
  end.

Lemma first_occurrences_ext (seen1 seen2 : list pystr) (rows : list shp_row) :
  (∀ x, x ∈ seen1 ↔ x ∈ seen2) →
  first_occurrences seen1 rows = first_occurrences seen2 rows.
Proof.
  revert seen1 seen2. induction rows as [|r rows IH]; intros seen1 seen2 Hs; [done|].
  simpl. rewrite (bool_decide_ext _ _ (Hs (history r))).
  case_bool_decide.
  - by apply IH.
  - f_equal. apply IH. intros x. rewrite !elem_of_app. by rewrite Hs.
Qed.

Lemma first_occurrences_app (seen : list pystr) (l1 l2 : list shp_row) :
  first_occurrences seen (l1 ++ l2) =
  first_occurrences seen l1 ++
  first_occurrences (seen ++ (history <$> first_occurrences seen l1)) l2.
Proof.
  revert seen. induction l1 as [|r l1 IH]; intros seen; simpl.
  - by rewrite app_nil_r.
  - case_bool_decide; [apply IH|].
    simpl. rewrite IH. by rewrite <- app_assoc.
Qed.

Lemma first_occurrences_seen (seen : list pystr) (rows : list shp_row) (x : pystr) :
  x ∈ seen ++ (history <$> first_occurrences seen rows) ↔
  x ∈ seen ++ (history <$> rows).
Proof.
  revert seen. induction rows as [|r rows IH]; intros seen; simpl; [done|].
  case_bool_decide as Hr.
  - rewrite IH. rewrite !elem_of_app, elem_of_cons.
    split; [prop_solve|]. intros [?|[->|?]]; prop_solve.
  - simpl. specialize (IH (seen ++ [history r])).
    rewrite <- !app_assoc in IH. simpl in IH. exact IH.
Qed.

(** The row [r] after the rows [pre] is kept if and only if its instruction
    occurs neither in [seen] nor in [pre]. *)
Lemma first_occurrences_middle (seen : list pystr) (pre post : list shp_row) (r : shp_row) :
  first_occurrences seen (pre ++ r :: post) =
  first_occurrences seen pre
  ++ (if bool_decide (history r ∈ seen ++ (history <$> pre)) then [] else [r])
  ++ first_occurrences (seen ++ (history <$> pre) ++ [history r]) post.
Proof.
  rewrite first_occurrences_app. f_equal. simpl.
  rewrite (bool_decide_ext _ _ (first_occurrences_seen seen pre (history r))).
  case_bool_decide as Hr.
  - simpl. apply first_occurrences_ext. intros x.
    pose proof (first_occurrences_seen seen pre x) as Hx.
    rewrite Hx. rewrite !elem_of_app, list_elem_of_singleton.
    rewrite elem_of_app in Hr. split; [prop_solve|].
    intros [?|[?| ->]]; prop_solve.
  - simpl. f_equal. apply first_occurrences_ext. intros x.
    pose proof (first_occurrences_seen seen pre x) as Hx.
    rewrite !elem_of_app in *. prop_solve.
Qed.

Lemma first_occurrences_fresh (seen : list pystr) (rows : list shp_row) :
  NoDup (history <$> first_occurrences seen rows) ∧
  ∀ x, x ∈ history <$> first_occurrences seen rows → x ∉ seen.
Proof.
  revert seen. induction rows as [|r rows IH]; intros seen; simpl.
  - split; [constructor|]. intros x Hx. by apply elem_of_nil in Hx.
  - case_bool_decide as Hr; [apply IH|].
    destruct (IH (seen ++ [history r])) as [Hnd Hfresh]. simpl. split.
    + constructor; [|done]. intros Hin. apply (Hfresh _ Hin).
      apply elem_of_app. right. by apply list_elem_of_singleton.
    + intros x [->|Hx]%elem_of_cons; [done|].
      intros Hs. apply (Hfresh _ Hx). apply elem_of_app. by left.
Qed.

Lemma first_occurrences_sublist (seen : list pystr) (rows : list shp_row) :
  first_occurrences seen rows `sublist_of` rows.
Proof.
  revert seen. induction rows as [|r rows IH]; intros seen; simpl; [done|].
  case_bool_decide.
  - by apply sublist_cons.
  - by apply sublist_skip.
Qed.

Lemma dedup_split_fold (rows : list shp_row) (seen : list pystr) (out : list inst) :
  fold_left dedup_step rows (seen, out) =
  (seen ++ (history <$> first_occurrences seen rows),
   out ++ (inst_record <$> first_occurrences seen rows)).
Proof.
  revert seen out. induction rows as [|r rows IH]; intros seen out; simpl.
  - by rewrite !app_nil_r.
  - case_bool_decide; [apply IH|].
    rewrite IH. simpl. by rewrite <- !app_assoc.
Qed.

Lemma dedup_split_spec (seen : list pystr) (rows : list shp_row) :
  dedup_split seen rows =
  (seen ++ (history <$> first_occurrences seen rows),
   inst_record <$> first_occurrences seen rows).
Proof. unfold dedup_split. by rewrite dedup_split_fold. Qed.

(** The claim's reading of the loader: every split is deduplicated on its
    own, so a split keeps the first occurrence of each of its instructions. *)
Definition dedup_per_split (rows : list shp_row) : list inst :=
  inst_record <$> first_occurrences [] rows.

(** C5 (amended).  When the three JSONL files are not all present and the
    corpus is fetched, [_download_shp] returns, and writes to the three files,
    the records of the rows whose instruction occurs neither earlier in their
    own split nor anywhere in an earlier split (train, then validation, then
    test): the instructions seen are shared by the three splits.  The three
    outputs in this order are the first occurrences of the instructions in
    the concatenated corpus, in their order, so no two records of the output,
    in one split or in two, have the same instruction.  The last part spells
    out [first_occurrences]: a row is kept if and only if its instruction is
    neither among those seen before nor that of an earlier row. *)
Theorem download_shp_first_occurrences (data_root : pystr) (w : world) (dataset : corpus) :
  load_dataset = Ok dataset →
  all_exist (rlhf_paths data_root) w = (Ok false, w) →
  let list_train_dict := inst_record <$> first_occurrences [] (dataset train) in
  let list_val_dict :=
    inst_record <$> first_occurrences (history <$> dataset train) (dataset validation) in
  let list_test_dict :=
    inst_record <$> first_occurrences (history <$> dataset train ++ dataset validation)
                      (dataset test) in
  _download_shp data_root w =
    (Ok (list_train_dict, list_val_dict, list_test_dict),
     World (<[(rlhf_paths data_root).2 := InstJsonl list_test_dict]>
              (<[(rlhf_paths data_root).1.2 := InstJsonl list_val_dict]>
                 (<[(rlhf_paths data_root).1.1 := InstJsonl list_train_dict]> (fs w))))
           (stdout w))
  ∧ list_train_dict ++ list_val_dict ++ list_test_dict =
      inst_record <$>
        first_occurrences [] (dataset train ++ dataset validation ++ dataset test)
  ∧ NoDup (inst_instruction <$> list_train_dict ++ list_val_dict ++ list_test_dict)
  ∧ list_train_dict `sublist_of` inst_record <$> dataset train
  ∧ list_val_dict `sublist_of` inst_record <$> dataset validation
  ∧ list_test_dict `sublist_of` inst_record <$> dataset test
  ∧ (∀ seen pre r post,
       first_occurrences seen (pre ++ r :: post) =
       first_occurrences seen pre
       ++ (if bool_decide (history r ∈ seen ++ (history <$> pre)) then [] else [r])
       ++ first_occurrences (seen ++ (history <$> pre) ++ [history r]) post).
Proof.
  intros Hload Hmiss ltr lva lte.
  assert (Hva : first_occurrences
                  ([] ++ (history <$> first_occurrences [] (dataset train)))
                  (dataset validation)
                = first_occurrences (history <$> dataset train) (dataset validation)).
  { apply first_occurrences_ext. intros x.
    apply (first_occurrences_seen [] (dataset train) x). }
  assert (Hte : first_occurrences
                  (([] ++ (history <$> first_occurrences [] (dataset train))) ++
                   (history <$> first_occurrences
                      ([] ++ (history <$> first_occurrences [] (dataset train)))
                      (dataset validation)))
                  (dataset test)
                = first_occurrences (history <$> dataset train ++ dataset validation)
                    (dataset test)).
  { apply first_occurrences_ext. intros x.
    rewrite first_occurrences_seen. rewrite fmap_app, !elem_of_app.
    pose proof (first_occurrences_seen [] (dataset train) x) as Hx.
    simpl in Hx. simpl. rewrite Hx, elem_of_nil. prop_solve. }
  split; [|split; [|split; [|split; [|split; [|split]]]]];
    [| | | | | |intros; apply first_occurrences_middle].
  - unfold _download_shp. unfold rlhf_paths in *.
    unfold mbind at 1. unfold M_bind at 1. rewrite Hmiss.
    unfold mbind at 1. unfold M_bind at 1. unfold lift. rewrite Hload.
    rewrite !dedup_split_spec. rewrite Hte, Hva. reflexivity.
  - subst ltr lva lte. rewrite <- Hva, <- Hte.
    rewrite !first_occurrences_app, !fmap_app. done.
  - assert (Hall : ltr ++ lva ++ lte =
                   inst_record <$> first_occurrences []
                     (dataset train ++ dataset validation ++ dataset test)).
    { subst ltr lva lte. rewrite <- Hva, <- Hte.
      rewrite !first_occurrences_app, !fmap_app. done. }
    rewrite Hall. rewrite <- list_fmap_compose.
    apply (first_occurrences_fresh [] _).
  - apply fmap_sublist, first_occurrences_sublist.
  - apply fmap_sublist, first_occurrences_sublist.
  - apply fmap_sublist, first_occurrences_sublist.
Qed.

(** ** [for] loops that may raise *)

Lemma for_each_Ok {A B} (body : A → res B) (xs : list A) (ys : list B) :
  for_each body xs = Ok ys ↔ Forall2 (λ x y, body x = Ok y) xs ys.
Proof.
  revert ys. induction xs as [|x xs IH]; intros ys; simpl.
  - split.
    + intros [= <-]. constructor.
    + intros H. by inversion H.
  - split.
    + destruct (body x) as [y|e] eqn:Hx; [|done].
      destruct (for_each body xs) as [ys'|e] eqn:Hxs; [|done].
      intros [= <-]. constructor; [done|]. by apply IH.
    + intros H. inversion H as [|? y ? ys' Hx Hxs]; subst.
      rewrite Hx. apply IH in Hxs. by rewrite Hxs.
Qed.

Lemma for_each_Err {A B} (body : A → res B) (pre post : list A) (x : A) (e : exn) :
  (∀ p, p ∈ pre → ∃ y, body p = Ok y) →
  body x = Err e →
  for_each body (pre ++ x :: post) = Err e.
Proof.
  intros Hpre Hx. induction pre as [|p pre IH]; simpl.
  - by rewrite Hx.
  - destruct (Hpre p) as [y Hy]; [by left|]. rewrite Hy.
    rewrite IH; [done|]. intros q Hq. apply Hpre. by right.
Qed.

Lemma for_each_length {A B} (body : A → res B) (xs : list A) (ys : list B) :
  for_each body xs = Ok ys → length ys = length xs.
Proof. intros H%for_each_Ok. symmetry. by eapply Forall2_length. Qed.

Lemma for_each_app_Ok {A B} (body : A → res B) (xs1 xs2 : list A) (ys : list B) :
  for_each body (xs1 ++ xs2) = Ok ys ↔
  ∃ ys1 ys2, ys = ys1 ++ ys2 ∧ for_each body xs1 = Ok ys1 ∧ for_each body xs2 = Ok ys2.
Proof.
  rewrite for_each_Ok. split.
  - intros (ys1 & ys2 & H1 & H2 & ->)%Forall2_app_inv_l.
    exists ys1, ys2. by rewrite !for_each_Ok.
  - intros (ys1 & ys2 & -> & H1 & H2). apply for_each_Ok in H1, H2.
    by apply Forall2_app.
Qed.

(** ** The merge of the client assignment and the token budget *)

Lemma num_tokens_relabel (idx : nat) (s : sample Z) :
  num_tokens (relabel idx s) = num_tokens s.
Proof. reflexivity. Qed.

Lemma assign_client_domain (m : gmap pystr nat) (l l' : list (sample Z)) :
  for_each (assign_client m) l = Ok l' →
  Forall (λ s, is_Some (domain s)) l'.
Proof.
  intros H%for_each_Ok. induction H as [|s s' l l' Hs _ IH]; constructor; [|done].
  unfold assign_client in Hs. destruct (m !! instruction s); [|done].
  injection Hs as <-. by eexists.
Qed.

Lemma count_domains_ok (client : pystr) (l : list (sample Z)) :
  Forall (λ s, is_Some (domain s)) l →
  ∃ d, count_domains client l = Ok d.
Proof.
  unfold count_domains. generalize (∅ : gmap pystr nat).
  induction l as [|s l IH]; intros d0 Hl; cbn [fold_left]; [by eexists|].
  inversion Hl as [|? ? [d Hd] Hl']; subst.
  assert (∃ d1, count_step client (Ok d0) s = Ok d1) as [d1 ->].
  { unfold count_step. simpl. rewrite Hd. case_bool_decide; by eexists. }
  by apply IH.
Qed.

Lemma print_client_ok (l : list (sample Z)) (client_id : nat) (w : world) :
  Forall (λ s, is_Some (domain s)) l →
  ∃ d, print_client l client_id w =
       (Ok tt, World (fs w)
                 (stdout w ++ [PrintStr (lit "Client " ++ str_nat client_id ++ lit ":");
                               PrintDict d])).
Proof.
  intros Hl.
  destruct (count_domains_ok (lit "Client_" ++ str_nat client_id) _ Hl) as [d Hd].
  exists d. unfold print_client, mbind, M_bind, print, modify, lift.
  rewrite Hd. cbn [fs stdout]. by rewrite <- app_assoc.
Qed.

Lemma for_M_print_client (l : list (sample Z)) (ids : list nat) (w : world) :
  Forall (λ s, is_Some (domain s)) l →
  ∃ out, for_M ids (print_client l) w = (Ok tt, World (fs w) (stdout w ++ out))
         ∧ length out = (2 * length ids)%nat.
Proof.
  intros Hl. revert w. induction ids as [|i ids IH]; intros w; cbn [for_M].
  - exists []. rewrite app_nil_r. by destruct w.
  - destruct (print_client_ok l i w Hl) as [d Hd].
    unfold mbind, M_bind. rewrite Hd.
    edestruct IH as (out & -> & Hlen).
    eexists (_ :: _ :: out). cbn [fs stdout]. rewrite <- !app_assoc.
    split; [reflexivity|]. simpl. lia.
Qed.

Lemma print_summary_ok (num_clients : nat) (l : list (sample Z)) (w : world) :
  Forall (λ s, is_Some (domain s)) l →
  ∃ out, print_summary num_clients l w = (Ok tt, World (fs w) (stdout w ++ out))
         ∧ length out = (2 * (num_clients + 1))%nat.
Proof.
  intros Hl. destruct (for_M_print_client l (seq 0 (num_clients + 1)) w Hl)
    as (out & Hrun & Hlen).
  exists out. split; [exact Hrun|]. by rewrite length_seq in Hlen.
Qed.

(** The instruction-to-client map that [shp_dataset] builds from the
    instruction records [list_train_instructions]. *)
Definition client_map (num_clients : nat) (list_train_instructions : list inst)
  : gmap pystr nat :=
  build_inst_client_map (LDASplitter num_clients (code_categories list_train_instructions)).

Lemma shp_dataset_run (data_root : pystr) (num_clients : nat) (w : world) :
  shp_dataset data_root num_clients w =
  match _download_shp_cmpr data_root w with
  | (Err e, w1) => (Err e, w1)
  | (Ok (list_train_dict, list_val_dict, list_test_dict), w1) =>
      match _download_shp data_root w1 with
      | (Err e, w2) => (Err e, w2)
      | (Ok (list_train_instructions, _, _), w2) =>
          match for_each (assign_client (client_map num_clients list_train_instructions))
                  list_train_dict with
          | Err e => (Err e, w2)
          | Ok merged =>
              match print_summary num_clients (select_by_budget merged) w2 with
              | (Err e, w3) => (Err e, w3)
              | (Ok _, w3) => (Ok (select_by_budget merged, list_val_dict, list_test_dict), w3)
              end
          end
      end
  end.
Proof.
  unfold shp_dataset, client_map, mbind, M_bind, lift, mret, M_ret.
  destruct (_download_shp_cmpr data_root w) as [[[[tr va] te]|e] w1]; [|done].
  destruct (_download_shp data_root w1) as [[[[insts v] t]|e] w2]; [|done].
  destruct (for_each _ tr) as [merged|e]; [|done].
  destruct (print_summary _ _ w2) as [[[]|e] w3]; done.
Qed.

Lemma select_by_budget_domain (l : list (sample Z)) :
  Forall (λ s, is_Some (domain s)) l →
  Forall (λ s, is_Some (domain s)) (select_by_budget l).
Proof.
  rewrite !Forall_forall. intros H s Hs. apply H.
  unfold select_by_budget in Hs. by apply list_elem_of_filter in Hs as [_ Hs].
Qed.

(** [shp_dataset] succeeds as soon as its two loaders and the merge do. *)
Lemma shp_dataset_Ok (data_root : pystr) (num_clients : nat) (w w1 w2 : world)
    (tr va te merged : list (sample Z)) (insts v t : list inst) :
  _download_shp_cmpr data_root w = (Ok (tr, va, te), w1) →
  _download_shp data_root w1 = (Ok (insts, v, t), w2) →
  for_each (assign_client (client_map num_clients insts)) tr = Ok merged →
  ∃ out, shp_dataset data_root num_clients w =
           (Ok (select_by_budget merged, va, te), World (fs w2) (stdout w2 ++ out))
         ∧ length out = (2 * (num_clients + 1))%nat.
Proof.
  intros H1 H2 H3. rewrite shp_dataset_run, H1, H2, H3.
  destruct (print_summary_ok num_clients (select_by_budget merged) w2) as (out & -> & Hlen).
  { eapply select_by_budget_domain, assign_client_domain, H3. }
  by exists out.
Qed.

(** C2.  Whenever the two loaders and the merge of the client assignment
    succeed, [shp_dataset] returns: its training list consists, in their
    order, of exactly the merged training records whose instruction, output_A
    and output_B tokenize to at most 512 tokens in total (a record is kept if
    and only if the sum is at most 512), and its validation and test lists
    are the loaded ones, whatever their token counts. *)
Theorem shp_dataset_token_budget (data_root : pystr) (num_clients : nat) (w w1 w2 : world)
    (tr va te merged : list (sample Z)) (insts v t : list inst) :
  _download_shp_cmpr data_root w = (Ok (tr, va, te), w1) →
  _download_shp data_root w1 = (Ok (insts, v, t), w2) →
  for_each (assign_client (client_map num_clients insts)) tr = Ok merged →
  ∃ kept w3,
    shp_dataset data_root num_clients w = (Ok (kept, va, te), w3)
    ∧ kept = filter (λ s, (length (tokenizer (instruction s))
                           + length (tokenizer (output_A s))
                           + length (tokenizer (output_B s)) ≤ 512)%nat) merged
    ∧ (∀ s, s ∈ kept ↔
            s ∈ merged ∧ (length (tokenizer (instruction s))
                          + length (tokenizer (output_A s))
                          + length (tokenizer (output_B s)) ≤ 512)%nat)
    ∧ kept `sublist_of` merged.
Proof.
  intros H1 H2 H3.
  destruct (shp_dataset_Ok _ _ _ _ _ _ _ _ _ _ _ _ H1 H2 H3) as (out & Hrun & _).
  eexists _, _. split; [exact Hrun|].
  split; [reflexivity|]. split.
  - intros s. unfold select_by_budget. rewrite list_elem_of_filter.
    unfold num_tokens, max_tokens. prop_solve.
  - apply sublist_filter.
Qed.

(** C3 (amended).  In the merge loop of [shp_dataset], the first comparison
    record whose instruction has no entry in the instruction-to-client map
    makes the pipeline fail with the [KeyError] of the dictionary lookup,
    carrying that instruction; no dedicated error is raised.  When every
    training instruction has an entry the merge succeeds, and every training
    record whose instruction is mapped to client [i] has its category
    rewritten to ["Client_i"] and its original category kept under
    [domain]; its other fields are unchanged. *)
Theorem shp_dataset_client_merge (data_root : pystr) (num_clients : nat) (w w1 w2 : world)
    (tr va te : list (sample Z)) (insts v t : list inst) :
  _download_shp_cmpr data_root w = (Ok (tr, va, te), w1) →
  _download_shp data_root w1 = (Ok (insts, v, t), w2) →
  (∀ pre s post,
     tr = pre ++ s :: post →
     (∀ p, p ∈ pre → is_Some (client_map num_clients insts !! instruction p)) →
     client_map num_clients insts !! instruction s = None →
     shp_dataset data_root num_clients w = (Err (KeyError (instruction s)), w2))
  ∧ ((∀ s, s ∈ tr → is_Some (client_map num_clients insts !! instruction s)) →
     ∃ merged w3,
       shp_dataset data_root num_clients w = (Ok (select_by_budget merged, va, te), w3)
       ∧ Forall2 (λ s s',
           ∃ i, client_map num_clients insts !! instruction s = Some i
                ∧ category s' = lit "Client_" ++ str_nat i
                ∧ domain s' = Some (category s)
                ∧ instruction s' = instruction s
                ∧ output_A s' = output_A s
                ∧ output_B s' = output_B s
                ∧ choice s' = choice s) tr merged).
Proof.
  intros H1 H2. split.
  - intros pre s post -> Hpre Hs.
    rewrite shp_dataset_run, H1, H2.
    rewrite (for_each_Err _ pre post s (KeyError (instruction s))); [done| |].
    + intros p Hp. destruct (Hpre p Hp) as [i Hi].
      exists (relabel i p). unfold assign_client. by rewrite Hi.
    + unfold assign_client. by rewrite Hs.
  - intros Hall.
    assert (∃ merged, for_each (assign_client (client_map num_clients insts)) tr = Ok merged
                      ∧ Forall2 (λ s s', assign_client (client_map num_clients insts) s = Ok s')
                          tr merged) as (merged & Hm & HF).
    { clear H1. induction tr as [|s tr IH].
      - exists []. split; [done|constructor].
      - destruct IH as (merged & Hm & HF); [intros s' Hs'; apply Hall; by right|].
        destruct (Hall s) as [i Hi]; [by left|].
        exists (relabel i s :: merged). split.
        + simpl. unfold assign_client at 1. by rewrite Hi, Hm.
        + constructor; [|done]. unfold assign_client. by rewrite Hi. }
    destruct (shp_dataset_Ok _ _ _ _ _ _ _ _ _ _ _ _ H1 H2 Hm) as (out & Hrun & _).
    eexists _, _. split; [exact Hrun|].
    eapply Forall2_impl; [exact HF|].
    intros s s' Hs. unfold assign_client in Hs.
    destruct (client_map num_clients insts !! instruction s) as [i|] eqn:Hi; [|done].
    injection Hs as <-. exists i. done.
Qed.

(** ** The letter-choice shaper *)

Lemma for_each_fmap {A B} (body : A → res B) (f : A → B) (xs : list A) :
  Forall (λ x, body x = Ok (f x)) xs → for_each body xs = Ok (f <$> xs).
Proof.
  induction 1 as [|x xs Hx _ IH]; simpl; [done|]. by rewrite Hx, IH.
Qed.


(** The code points that [chr] accepts. *)
Definition code_point (i : Z) : Prop := 0 ≤ i < 1114112.

(** The record that the letter mapping makes of [s] when [chr] accepts
    [choice s + ord("A")]. *)
Definition with_letter (s : sample Z) : sample pystr :=
  {| instruction := instruction s;
     output_A := output_A s;
     output_B := output_B s;
     choice := lit " " ++ [Z.to_N (choice s + ord_A)];
     category := category s;
     domain := domain s |}.

Lemma choice_to_letter_Ok (s : sample Z) :
  code_point (choice s + ord_A) → choice_to_letter s = Ok (with_letter s).
Proof.
  intros H. unfold choice_to_letter, chr. by rewrite bool_decide_eq_true_2.
Qed.

Lemma choice_to_letter_Err (s : sample Z) :
  ¬ code_point (choice s + ord_A) →
  choice_to_letter s = Err (chr_error (choice s + ord_A)).
Proof.
  intros H. unfold choice_to_letter, chr. by rewrite bool_decide_eq_false_2.
Qed.

Lemma choice_to_letter_cases (s : sample Z) :
  choice_to_letter s = Ok (with_letter s) ∧ code_point (choice s + ord_A)
  ∨ choice_to_letter s = Err (chr_error (choice s + ord_A))
    ∧ ¬ code_point (choice s + ord_A).
Proof.
  destruct (decide (code_point (choice s + ord_A))) as [H|H].
  - left. split; [by apply choice_to_letter_Ok|done].
  - right. split; [by apply choice_to_letter_Err|done].
Qed.

Lemma shape_by_choice_Ok (tr va te : list (sample Z)) :
  Forall (λ s, code_point (choice s + ord_A)) (tr ++ (exchange <$> tr)) →
  Forall (λ s, code_point (choice s + ord_A)) te →
  Forall (λ s, code_point (choice s + ord_A)) va →
  shape_by_choice (tr, va, te) =
    Ok (with_letter <$> tr ++ (exchange <$> tr), with_letter <$> va, with_letter <$> te).
Proof.
  intros Htr Hte Hva. unfold shape_by_choice.
  rewrite (for_each_fmap _ with_letter (tr ++ (exchange <$> tr))).
  2:{ eapply Forall_impl; [exact Htr|]. intros s. apply choice_to_letter_Ok. }
  rewrite (for_each_fmap _ with_letter te).
  2:{ eapply Forall_impl; [exact Hte|]. intros s. apply choice_to_letter_Ok. }
  rewrite (for_each_fmap _ with_letter va).
  2:{ eapply Forall_impl; [exact Hva|]. intros s. apply choice_to_letter_Ok. }
  reflexivity.
Qed.

Lemma for_each_choice_to_letter (l : list (sample Z)) (l' : list (sample pystr)) :
  for_each choice_to_letter l = Ok l' → l' = with_letter <$> l.
Proof.
  intros H%for_each_Ok. induction H as [|s s' l l' Hs _ IH]; [done|].
  simpl. f_equal; [|done].
  destruct (choice_to_letter_cases s) as [[H _]|[H _]]; congruence.
Qed.

Lemma shape_by_choice_Ok_inv (tr va te : list (sample Z))
    (tr' va' te' : list (sample pystr)) :
  shape_by_choice (tr, va, te) = Ok (tr', va', te') →
  tr' = with_letter <$> tr ++ (exchange <$> tr)
  ∧ va' = with_letter <$> va
  ∧ te' = with_letter <$> te.
Proof.
  unfold shape_by_choice.
  destruct (for_each choice_to_letter (tr ++ _)) as [l1|e] eqn:H1; [|done].
  destruct (for_each choice_to_letter te) as [l2|e] eqn:H2; [|done].
  destruct (for_each choice_to_letter va) as [l3|e] eqn:H3; [|done].
  intros [= <- <- <-].
  by rewrite (for_each_choice_to_letter _ _ H1), (for_each_choice_to_letter _ _ H2),
       (for_each_choice_to_letter _ _ H3).
Qed.

(** C1.  Whenever the letter-choice shaper returns, its training list has
    twice the length of the training list it received and holds at position
    [i] the original record [s] and at position [length + i] its mirrored
    copy, whose output_A is the output_B of [s], whose output_B is the
    output_A of [s] and whose choice is the letter of [1 - choice s]; the
    letter of a choice [c] is a space followed by the character of code point
    [c + 65], that is " A" for 0 and " B" for 1.  The validation and the test
    list keep their lengths and their records, position by position: they
    are not mirrored.  On records whose choice is 0 or 1 the shaper does
    return, and every choice it returns is " A" or " B". *)
Theorem shape_by_choice_mirrors_train (tr va te : list (sample Z)) :
  let shaped (c : Z) (a b : pystr) (s : sample Z) (s' : sample pystr) :=
    instruction s' = instruction s ∧ output_A s' = a ∧ output_B s' = b
    ∧ choice s' = lit " " ++ [Z.to_N (c + 65)]
    ∧ category s' = category s ∧ domain s' = domain s in
  (∀ tr' va' te',
     shape_by_choice (tr, va, te) = Ok (tr', va', te') →
     length tr' = (2 * length tr)%nat
     ∧ (∀ i s, tr !! i = Some s →
          choice (exchange s) = 1 - choice s
          ∧ output_A (exchange s) = output_B s
          ∧ output_B (exchange s) = output_A s
          ∧ ∃ original mirrored,
              tr' !! i = Some original
              ∧ tr' !! (length tr + i)%nat = Some mirrored
              ∧ shaped (choice s) (output_A s) (output_B s) s original
              ∧ shaped (1 - choice s) (output_B s) (output_A s) s mirrored)
     ∧ length va' = length va
     ∧ (∀ i s, va !! i = Some s →
          ∃ s', va' !! i = Some s' ∧ shaped (choice s) (output_A s) (output_B s) s s')
     ∧ length te' = length te
     ∧ (∀ i s, te !! i = Some s →
          ∃ s', te' !! i = Some s' ∧ shaped (choice s) (output_A s) (output_B s) s s'))
  ∧ (Forall (λ s, choice s = 0 ∨ choice s = 1) (tr ++ va ++ te) →
     ∃ tr' va' te',
       shape_by_choice (tr, va, te) = Ok (tr', va', te')
       ∧ Forall (λ s', choice s' = lit " A" ∨ choice s' = lit " B") (tr' ++ va' ++ te'))
  ∧ lit " " ++ [Z.to_N (0 + 65)] = lit " A"
  ∧ lit " " ++ [Z.to_N (1 + 65)] = lit " B".
Proof.
  intros shaped.
  assert (Hshaped : ∀ s, shaped (choice s) (output_A s) (output_B s) s (with_letter s)).
  { intros s. by repeat split. }
  split; [|split; [|split; reflexivity]].
  - intros tr' va' te' (-> & -> & ->)%shape_by_choice_Ok_inv.
    split; [|split; [|split; [|split; [|split]]]].
    + rewrite length_fmap, length_app, length_fmap. lia.
    + intros i s Hi. do 3 (split; [reflexivity|]).
      exists (with_letter s), (with_letter (exchange s)).
      split; [|split; [|split]].
      * rewrite list_lookup_fmap, lookup_app_l by (by eapply lookup_lt_Some).
        by rewrite Hi.
      * rewrite list_lookup_fmap, lookup_app_r by lia.
        replace (length tr + i - length tr)%nat with i by lia.
        by rewrite list_lookup_fmap, Hi.
      * apply Hshaped.
      * by repeat split.
    + by rewrite length_fmap.
    + intros i s Hi. exists (with_letter s). split; [|apply Hshaped].
      by rewrite list_lookup_fmap, Hi.
    + by rewrite length_fmap.
    + intros i s Hi. exists (with_letter s). split; [|apply Hshaped].
      by rewrite list_lookup_fmap, Hi.
  - intros H01.
    assert (Hletter : ∀ l : list (sample Z),
              Forall (λ s, choice s = 0 ∨ choice s = 1) l →
              Forall (λ s, code_point (choice s + ord_A)) l
              ∧ Forall (λ s', choice s' = lit " A" ∨ choice s' = lit " B")
                  (with_letter <$> l)).
    { intros l Hl. split.
      - eapply Forall_impl; [exact Hl|]. intros s Hs. cbv beta in *.
        unfold code_point, ord_A. lia.
      - apply Forall_fmap. eapply Forall_impl; [exact Hl|].
        intros s [Hs|Hs]; unfold compose; simpl; rewrite Hs; [by left|by right]. }
    apply Forall_app in H01 as [Htr H01]. apply Forall_app in H01 as [Hva Hte].
    assert (Hex : Forall (λ s, choice s = 0 ∨ choice s = 1) (tr ++ (exchange <$> tr))).
    { apply Forall_app. split; [done|]. apply Forall_fmap.
      eapply Forall_impl; [exact Htr|]. intros s Hs. unfold compose. cbn in *. lia. }
    eexists _, _, _. split.
    + apply shape_by_choice_Ok; by apply Hletter.
    + rewrite !Forall_app. repeat split; by apply Hletter.
Qed.



(** ** [load_rlhf_dataset] *)

(** C9.  [load_rlhf_dataset] drops the training list of [_download_shp] and
    returns as its training list the validation records followed by the test
    records, as its validation list the first half of the test records
    (floor of the length over 2) and as its test list the rest; a positive
    [max_num_test] cuts the validation and the test list, and not the
    training list, to their first [max_num_test] entries. *)
Theorem load_rlhf_dataset_splits (data_root : pystr) (max_num_test : Z) (w w' : world)
    (list_train_dict list_val_dict list_test_dict : list inst) :
  _download_shp data_root w = (Ok (list_train_dict, list_val_dict, list_test_dict), w') →
  let half := Nat.div (length list_test_dict) 2 in
  let first_half := take half list_test_dict in
  let second_half := drop half list_test_dict in
  load_rlhf_dataset data_root max_num_test w =
    (Ok (list_val_dict ++ list_test_dict,
         if bool_decide (0 < max_num_test) then take (Z.to_nat max_num_test) first_half
         else first_half,
         if bool_decide (0 < max_num_test) then take (Z.to_nat max_num_test) second_half
         else second_half), w')
  ∧ first_half ++ second_half = list_test_dict
  ∧ length first_half = half
  ∧ length second_half = (length list_test_dict - half)%nat.
Proof.
  intros H half first_half second_half. split; [|split; [|split]].
  - unfold load_rlhf_dataset, mbind, M_bind. rewrite H.
    case_bool_decide; reflexivity.
  - apply take_drop.
  - subst first_half. rewrite length_take. subst half.
    pose proof (Nat.Div0.div_le_upper_bound (length list_test_dict) 2
                  (length list_test_dict)).
    lia.
  - subst second_half. by rewrite length_drop.
Qed.

(** ** The tokenized-dataset cache *)

(** The specification's [get_or_build]: the shape shared by
    [load_comparison_dataset] and [load_shp_cmp_dataset_by_choice]. *)
Definition get_or_build (fps : pystr * pystr * pystr)
    (build_fn : M world (pyobj * pyobj * pyobj))
    (shrink : Z → pyobj → res pyobj) (max_num_test : Z)
  : M world (pyobj * pyobj * pyobj) :=
  cached ← all_exist fps;
  ds ← (if (cached : bool) then load_pickles fps else build_fn);
  lift (shrink_val_test shrink max_num_test ds).

Lemma load_comparison_dataset_get_or_build (data_root : pystr) (cfg : config) (m : Z) :
  load_comparison_dataset data_root cfg m =
  get_or_build (comparison_paths data_root (federate_client_num cfg))
    (build_comparison data_root (federate_client_num cfg)) shrink_comparison m.
Proof. reflexivity. Qed.

Lemma load_shp_cmp_dataset_by_choice_get_or_build (data_root : pystr) (cfg : config) (m : Z) :
  load_shp_cmp_dataset_by_choice data_root cfg m =
  get_or_build (choice_paths data_root (federate_client_num cfg))
    (build_choice data_root (federate_client_num cfg)) shrink_llm m.
Proof. reflexivity. Qed.

(** The three files hold the pickles of [ds]. *)
Definition cached_at (fps : pystr * pystr * pystr) (ds : pyobj * pyobj * pyobj)
    (w : world) : Prop :=
  fs w !! fps.1.1 = Some (Pickle ds.1.1)
  ∧ fs w !! fps.1.2 = Some (Pickle ds.1.2)
  ∧ fs w !! fps.2 = Some (Pickle ds.2).

Lemma get_or_build_hit fps build_fn shrink (m : Z) (w : world) ds :
  cached_at fps ds w →
  get_or_build fps build_fn shrink m w = (shrink_val_test shrink m ds, w).
Proof.
  destruct fps as [[a b] c], ds as [[o1 o2] o3]. intros (H1 & H2 & H3). simpl in *.
  unfold get_or_build. unfold mbind at 1. unfold M_bind at 1.
  rewrite (proj2 (all_exist_true a b c w)) by (by rewrite H1, H2, H3).
  unfold load_pickles, pickle_load, mbind, M_bind, lift, mret, M_ret.
  by rewrite H1, H2, H3.
Qed.

Lemma get_or_build_miss fps build_fn shrink (m : Z) (w : world) :
  all_exist fps w = (Ok false, w) →
  get_or_build fps build_fn shrink m w =
  match build_fn w with
  | (Ok ds, w') => (shrink_val_test shrink m ds, w')
  | (Err e, w') => (Err e, w')
  end.
Proof.
  intros H. unfold get_or_build. unfold mbind at 1. unfold M_bind at 1. rewrite H.
  unfold mbind, M_bind, lift. by destruct (build_fn w) as [[ds|e] w'].
Qed.

(** *** The three paths of a cache key differ *)

Lemma startswith_sep_app (t x y : pystr) :
  startswith_sep x = false → startswith_sep y = false → x ≠ [] → y ≠ [] →
  startswith_sep (t ++ x) = startswith_sep (t ++ y).
Proof. intros Hx Hy Hnx Hny. destruct t; [|done]. simpl. by rewrite Hx, Hy. Qed.

Lemma os_path_join_inj (a x y : pystr) :
  startswith_sep x = startswith_sep y →
  os_path_join a x = os_path_join a y → x = y.
Proof.
  unfold os_path_join. intros <-.
  destruct (startswith_sep x); [done|].
  destruct (_ || _).
  - by intros ?%app_inv_head.
  - by intros [= ?]%app_inv_head.
Qed.

Lemma cache_paths_distinct (a t x y : pystr) :
  startswith_sep x = false → startswith_sep y = false → x ≠ [] → y ≠ [] →
  x ≠ y → os_path_join a (t ++ x) ≠ os_path_join a (t ++ y).
Proof.
  intros Hx Hy Hnx Hny Hne Heq. apply Hne.
  apply os_path_join_inj in Heq; [|by apply startswith_sep_app].
  by apply app_inv_head in Heq.
Qed.

Lemma comparison_paths_distinct (data_root : pystr) (n : nat) :
  let fps := comparison_paths data_root n in
  fps.1.1 ≠ fps.1.2 ∧ fps.1.1 ≠ fps.2 ∧ fps.1.2 ≠ fps.2.
Proof.
  unfold comparison_paths. cbn [fst snd].
  repeat split; apply cache_paths_distinct; done.
Qed.

Lemma choice_paths_distinct (data_root : pystr) (n : nat) :
  let fps := choice_paths data_root n in
  fps.1.1 ≠ fps.1.2 ∧ fps.1.1 ≠ fps.2 ∧ fps.1.2 ≠ fps.2.
Proof.
  unfold choice_paths. cbn [fst snd].
  repeat split; apply cache_paths_distinct; done.
Qed.

(** *** What the build pipeline leaves in the world *)

Lemma load_jsonl_cmpr_world (fp : pystr) (w : world) : (load_jsonl_cmpr fp w).2 = w.
Proof. unfold load_jsonl_cmpr. by destruct (fs w !! fp) as [[|[]|]|]. Qed.

Lemma load_jsonl_inst_world (fp : pystr) (w : world) : (load_jsonl_inst fp w).2 = w.
Proof. unfold load_jsonl_inst. by destruct (fs w !! fp) as [[| |]|]. Qed.

Lemma bind_world_stdout {A B} (m : M world A) (f : A → M world B) (w : world) :
  stdout (m w).2 = stdout w →
  (∀ a w', stdout (f a w').2 = stdout w') →
  stdout ((m ≫= f) w).2 = stdout w.
Proof.
  intros Hm Hf. unfold mbind, M_bind.
  destruct (m w) as [[a|e] w'] eqn:E; simpl in *; [|done].
  by rewrite Hf.
Qed.

Lemma download_shp_cmpr_stdout (data_root : pystr) (w : world) :
  stdout (_download_shp_cmpr data_root w).2 = stdout w.
Proof.
  unfold _download_shp_cmpr, cmpr_paths.
  apply bind_world_stdout.
  { destruct (all_exist_run (os_path_join data_root (lit "shp_cmpr_train.jsonl"),
                             os_path_join data_root (lit "shp_cmpr_val.jsonl"),
                             os_path_join data_root (lit "shp_cmpr_test.jsonl")) w)
      as [b ->]. done. }
  intros [] w1.
  - repeat (apply bind_world_stdout;
            [by rewrite load_jsonl_cmpr_world | intros ? ?]).
    done.
  - apply bind_world_stdout; [done|]. intros dataset w2.
    repeat (apply bind_world_stdout; [done | intros ? ?]). done.
Qed.

Lemma download_shp_stdout (data_root : pystr) (w : world) :
  stdout (_download_shp data_root w).2 = stdout w.
Proof.
  unfold _download_shp, rlhf_paths.
  apply bind_world_stdout.
  { destruct (all_exist_run (os_path_join data_root (lit "shp_rlhf_train.jsonl"),
                             os_path_join data_root (lit "shp_rlhf_val.jsonl"),
                             os_path_join data_root (lit "shp_rlhf_test.jsonl")) w)
      as [b ->]. done. }
  intros [] w1.
  - repeat (apply bind_world_stdout;
            [by rewrite load_jsonl_inst_world | intros ? ?]).
    done.
  - apply bind_world_stdout; [done|]. intros dataset w2.
    destruct (dedup_split [] (dataset train)) as [seen1 out1].
    apply bind_world_stdout; [done|]. intros ? ?.
    destruct (dedup_split seen1 (dataset validation)) as [seen2 out2].
    apply bind_world_stdout; [done|]. intros ? ?.
    destruct (dedup_split seen2 (dataset test)) as [seen3 out3].
    apply bind_world_stdout; [done|]. intros ? ?. done.
Qed.

(** A run of [shp_dataset] that returns has printed its summary: two lines
    for each of the [num_clients + 1] client ids. *)
Lemma shp_dataset_prints (data_root : pystr) (num_clients : nat) (w w' : world) r :
  shp_dataset data_root num_clients w = (Ok r, w') →
  ∃ out, stdout w' = stdout w ++ out ∧ length out = (2 * (num_clients + 1))%nat.
Proof.
  rewrite shp_dataset_run.
  pose proof (download_shp_cmpr_stdout data_root w) as Hs1.
  destruct (_download_shp_cmpr data_root w) as [[[[tr va] te]|e] w1]; [|done].
  pose proof (download_shp_stdout data_root w1) as Hs2.
  destruct (_download_shp data_root w1) as [[[[insts v] t]|e] w2]; [|done].
  destruct (for_each _ tr) as [merged|e] eqn:Hm; [|done].
  destruct (print_summary_ok num_clients (select_by_budget merged) w2) as (out & -> & Hlen).
  { eapply select_by_budget_domain, assign_client_domain, Hm. }
  intros [= _ <-]. exists out. simpl in *. split; [congruence|done].
Qed.

Lemma build_comparison_run (data_root : pystr) (n : nat) (w w1 : world)
    (tr va te : list (sample Z)) (dtr dva dte : cmp_dataset) :
  shp_dataset data_root n w = (Ok (tr, va, te), w1) →
  LLMComparisonDataset tr shp = Ok dtr →
  LLMComparisonDataset va shp = Ok dva →
  LLMComparisonDataset te shp = Ok dte →
  let fps := comparison_paths data_root n in
  build_comparison data_root n w =
    (Ok (ObjComparison dtr, ObjComparison dva, ObjComparison dte),
     World (<[fps.2 := Pickle (ObjComparison dte)]>
              (<[fps.1.2 := Pickle (ObjComparison dva)]>
                 (<[fps.1.1 := Pickle (ObjComparison dtr)]> (fs w1))))
           (stdout w1)).
Proof.
  intros Hshp Htr Hva Hte. unfold build_comparison, comparison_paths.
  unfold mbind at 1. unfold M_bind at 1. rewrite Hshp.
  unfold mbind, M_bind, lift. rewrite Htr, Hva, Hte. reflexivity.
Qed.

Lemma build_choice_run (data_root : pystr) (n : nat) (w w1 : world)
    (lists : list (sample Z) * list (sample Z) * list (sample Z))
    (tr va te : list (sample pystr)) (dtr dva dte : llm_dataset) :
  shp_dataset data_root n w = (Ok lists, w1) →
  shape_by_choice lists = Ok (tr, va, te) →
  LLMDataset tr shp_cmp = Ok dtr →
  LLMDataset va shp_cmp = Ok dva →
  LLMDataset te shp_cmp = Ok dte →
  let fps := choice_paths data_root n in
  build_choice data_root n w =
    (Ok (ObjLLM dtr, ObjLLM dva, ObjLLM dte),
     World (<[fps.2 := Pickle (ObjLLM dte)]>
              (<[fps.1.2 := Pickle (ObjLLM dva)]>
                 (<[fps.1.1 := Pickle (ObjLLM dtr)]> (fs w1))))
           (stdout w1)).
Proof.
  intros Hshp Hshape Htr Hva Hte. unfold build_choice, choice_paths.
  unfold mbind at 1. unfold M_bind at 1. rewrite Hshp.
  unfold mbind, M_bind, lift. rewrite Hshape, Htr, Hva, Hte. reflexivity.
Qed.

Lemma cached_at_dumped (fps : pystr * pystr * pystr) (ds : pyobj * pyobj * pyobj)
    (files : gmap pystr file) (out : list printed) :
  fps.1.1 ≠ fps.1.2 → fps.1.1 ≠ fps.2 → fps.1.2 ≠ fps.2 →
  cached_at fps ds
    (World (<[fps.2 := Pickle ds.2]>
              (<[fps.1.2 := Pickle ds.1.2]> (<[fps.1.1 := Pickle ds.1.1]> files))) out).
Proof.
  intros H12 H13 H23. unfold cached_at. cbn [fs]. repeat split.
  - rewrite lookup_insert_ne, lookup_insert_ne by done. apply lookup_insert_eq.
  - rewrite lookup_insert_ne by done. apply lookup_insert_eq.
  - apply lookup_insert_eq.
Qed.

Lemma shrink_val_test_off (shrink : Z → pyobj → res pyobj) (m : Z)
    (ds : pyobj * pyobj * pyobj) :
  m ≤ 0 → shrink_val_test shrink m ds = Ok ds.
Proof.
  intros Hm. destruct ds as [[o1 o2] o3]. unfold shrink_val_test.
  rewrite bool_decide_eq_false_2 by lia. reflexivity.
Qed.

(** C6.  Both loaders follow the cache protocol, for the comparison shape
    and for the letter-choice shape alike.
    - When the three pickle files hold datasets, these are loaded and
      returned (after the shrinking step of the loader, which returns them
      as they are unless [max_num_test] is positive) and the world is left
      as it was: nothing is written and nothing is printed.
    - A build pipeline that returns has printed its summary, so a call that
      leaves the world as it was has not run it.
    - When the files are not all present and the build pipeline and the
      dataset constructors succeed, the three datasets built are returned
      (after the same shrinking step) and the three files hold their
      pickles; a second call with the same arguments in the resulting world
      returns the same result and leaves that world as it is. *)
Theorem tokenized_dataset_cache (data_root : pystr) (cfg : config) (m : Z) :
  let n := federate_client_num cfg in
  (∀ w ds,
     cached_at (comparison_paths data_root n) ds w →
     load_comparison_dataset data_root cfg m w =
       (shrink_val_test shrink_comparison m ds, w))
  ∧ (∀ w ds,
     cached_at (choice_paths data_root n) ds w →
     load_shp_cmp_dataset_by_choice data_root cfg m w =
       (shrink_val_test shrink_llm m ds, w))
  ∧ (∀ w w' r, shp_dataset data_root n w = (Ok r, w') →
               (length (stdout w) < length (stdout w'))%nat)
  ∧ (∀ w w1 tr va te dtr dva dte,
     all_exist (comparison_paths data_root n) w = (Ok false, w) →
     shp_dataset data_root n w = (Ok (tr, va, te), w1) →
     LLMComparisonDataset tr shp = Ok dtr →
     LLMComparisonDataset va shp = Ok dva →
     LLMComparisonDataset te shp = Ok dte →
     let ds := (ObjComparison dtr, ObjComparison dva, ObjComparison dte) in
     ∃ w2,
       load_comparison_dataset data_root cfg m w =
         (shrink_val_test shrink_comparison m ds, w2)
       ∧ cached_at (comparison_paths data_root n) ds w2
       ∧ load_comparison_dataset data_root cfg m w2 =
           (shrink_val_test shrink_comparison m ds, w2))
  ∧ (∀ w w1 lists tr va te dtr dva dte,
     all_exist (choice_paths data_root n) w = (Ok false, w) →
     shp_dataset data_root n w = (Ok lists, w1) →
     shape_by_choice lists = Ok (tr, va, te) →
     LLMDataset tr shp_cmp = Ok dtr →
     LLMDataset va shp_cmp = Ok dva →
     LLMDataset te shp_cmp = Ok dte →
     let ds := (ObjLLM dtr, ObjLLM dva, ObjLLM dte) in
     ∃ w2,
       load_shp_cmp_dataset_by_choice data_root cfg m w =
         (shrink_val_test shrink_llm m ds, w2)
       ∧ cached_at (choice_paths data_root n) ds w2
       ∧ load_shp_cmp_dataset_by_choice data_root cfg m w2 =
           (shrink_val_test shrink_llm m ds, w2))
  ∧ (∀ shrink ds, m ≤ 0 → shrink_val_test shrink m ds = Ok ds).
Proof.
  intros n. subst n.
  split; [|split; [|split; [|split; [|split]]]].
  - intros w ds H. rewrite load_comparison_dataset_get_or_build.
    by apply get_or_build_hit.
  - intros w ds H. rewrite load_shp_cmp_dataset_by_choice_get_or_build.
    by apply get_or_build_hit.
  - intros w w' r (out & -> & Hlen)%shp_dataset_prints. rewrite length_app. lia.
  - intros w w1 tr va te dtr dva dte Hmiss Hshp Htr Hva Hte ds.
    destruct (comparison_paths_distinct data_root (federate_client_num cfg)) as (H12 & H13 & H23).
    eexists. rewrite !load_comparison_dataset_get_or_build.
    rewrite (get_or_build_miss _ _ _ _ _ Hmiss).
    rewrite (build_comparison_run _ _ _ _ _ _ _ _ _ _ Hshp Htr Hva Hte).
    split; [reflexivity|].
    pose proof (cached_at_dumped (comparison_paths data_root (federate_client_num cfg)) ds (fs w1) (stdout w1)
                  H12 H13 H23) as Hc.
    split; [exact Hc|]. by apply get_or_build_hit.
  - intros w w1 lists tr va te dtr dva dte Hmiss Hshp Hshape Htr Hva Hte ds.
    destruct (choice_paths_distinct data_root (federate_client_num cfg)) as (H12 & H13 & H23).
    eexists. rewrite !load_shp_cmp_dataset_by_choice_get_or_build.
    rewrite (get_or_build_miss _ _ _ _ _ Hmiss).
    rewrite (build_choice_run _ _ _ _ _ _ _ _ _ _ _ Hshp Hshape Htr Hva Hte).
    split; [reflexivity|].
    pose proof (cached_at_dumped (choice_paths data_root (federate_client_num cfg)) ds (fs w1) (stdout w1)
                  H12 H13 H23) as Hc.
    split; [exact Hc|]. by apply get_or_build_hit.
  - intros shrink ds Hm. by apply shrink_val_test_off.
Qed.

(** C10.  With a positive [max_num_test], the validation and the test
    dataset that a loader returns have their [input_ids] cut to the first
    [max_num_test] entries (in both sub-datasets for the comparison shape)
    and their other attributes unchanged, and the training dataset is
    returned as loaded or built.  The cut happens in memory only: after a
    load the world, and so every file, is as before the call; after a build
    the three files hold the pickles of the datasets as built, not cut. *)
Theorem shrink_leaves_train_and_cache (data_root : pystr) (cfg : config) (m : Z) :
  0 < m →
  let n := federate_client_num cfg in
  let cut (d : llm_dataset) : llm_dataset :=
    {| input_ids := take (Z.to_nat m) (input_ids d); llm_attrs := llm_attrs d |} in
  let cut_cmp (d : cmp_dataset) : cmp_dataset :=
    {| win_dataset := cut (win_dataset d);
       lose_dataset := cut (lose_dataset d);
       cmp_other := cmp_other d |} in
  (∀ w o dva dte,
     cached_at (comparison_paths data_root n) (o, ObjComparison dva, ObjComparison dte) w →
     load_comparison_dataset data_root cfg m w =
       (Ok (o, ObjComparison (cut_cmp dva), ObjComparison (cut_cmp dte)), w))
  ∧ (∀ w o dva dte,
     cached_at (choice_paths data_root n) (o, ObjLLM dva, ObjLLM dte) w →
     load_shp_cmp_dataset_by_choice data_root cfg m w =
       (Ok (o, ObjLLM (cut dva), ObjLLM (cut dte)), w))
  ∧ (∀ w w1 tr va te dtr dva dte,
     all_exist (comparison_paths data_root n) w = (Ok false, w) →
     shp_dataset data_root n w = (Ok (tr, va, te), w1) →
     LLMComparisonDataset tr shp = Ok dtr →
     LLMComparisonDataset va shp = Ok dva →
     LLMComparisonDataset te shp = Ok dte →
     ∃ w2,
       load_comparison_dataset data_root cfg m w =
         (Ok (ObjComparison dtr, ObjComparison (cut_cmp dva), ObjComparison (cut_cmp dte)),
          w2)
       ∧ cached_at (comparison_paths data_root n)
           (ObjComparison dtr, ObjComparison dva, ObjComparison dte) w2)
  ∧ (∀ w w1 lists tr va te dtr dva dte,
     all_exist (choice_paths data_root n) w = (Ok false, w) →
     shp_dataset data_root n w = (Ok lists, w1) →
     shape_by_choice lists = Ok (tr, va, te) →
     LLMDataset tr shp_cmp = Ok dtr →
     LLMDataset va shp_cmp = Ok dva →
     LLMDataset te shp_cmp = Ok dte →
     ∃ w2,
       load_shp_cmp_dataset_by_choice data_root cfg m w =
         (Ok (ObjLLM dtr, ObjLLM (cut dva), ObjLLM (cut dte)), w2)
       ∧ cached_at (choice_paths data_root n) (ObjLLM dtr, ObjLLM dva, ObjLLM dte) w2).
Proof.
  intros Hm n cut cut_cmp. subst n.
  assert (Hcmp : ∀ o dva dte,
            shrink_val_test shrink_comparison m (o, ObjComparison dva, ObjComparison dte)
            = Ok (o, ObjComparison (cut_cmp dva), ObjComparison (cut_cmp dte))).
  { intros. unfold shrink_val_test. by rewrite bool_decide_eq_true_2. }
  assert (Hllm : ∀ o dva dte,
            shrink_val_test shrink_llm m (o, ObjLLM dva, ObjLLM dte)
            = Ok (o, ObjLLM (cut dva), ObjLLM (cut dte))).
  { intros. unfold shrink_val_test. by rewrite bool_decide_eq_true_2. }
  split; [|split; [|split]].
  - intros w o dva dte H. rewrite load_comparison_dataset_get_or_build.
    rewrite (get_or_build_hit _ _ _ _ _ _ H). by rewrite Hcmp.
  - intros w o dva dte H. rewrite load_shp_cmp_dataset_by_choice_get_or_build.
    rewrite (get_or_build_hit _ _ _ _ _ _ H). by rewrite Hllm.
  - intros w w1 tr va te dtr dva dte Hmiss Hshp Htr Hva Hte.
    destruct (comparison_paths_distinct data_root (federate_client_num cfg)) as (H12 & H13 & H23).
    eexists. rewrite load_comparison_dataset_get_or_build.
    rewrite (get_or_build_miss _ _ _ _ _ Hmiss).
    rewrite (build_comparison_run _ _ _ _ _ _ _ _ _ _ Hshp Htr Hva Hte).
    rewrite Hcmp. split; [reflexivity|].
    exact (cached_at_dumped (comparison_paths data_root (federate_client_num cfg))
             (ObjComparison dtr, ObjComparison dva, ObjComparison dte)
             (fs w1) (stdout w1) H12 H13 H23).
  - intros w w1 lists tr va te dtr dva dte Hmiss Hshp Hshape Htr Hva Hte.
    destruct (choice_paths_distinct data_root (federate_client_num cfg)) as (H12 & H13 & H23).
    eexists. rewrite load_shp_cmp_dataset_by_choice_get_or_build.
    rewrite (get_or_build_miss _ _ _ _ _ Hmiss).
    rewrite (build_choice_run _ _ _ _ _ _ _ _ _ _ _ Hshp Hshape Htr Hva Hte).
    rewrite Hllm. split; [reflexivity|].
    exact (cached_at_dumped (choice_paths data_root (federate_client_num cfg))
             (ObjLLM dtr, ObjLLM dva, ObjLLM dte) (fs w1) (stdout w1) H12 H13 H23).
Qed.

(** * Further properties of the pipeline *)

(** Goals about sets are closed without the collaborators in the context. *)
Local Set Warnings "-clear-no-such-hyp".

Local Ltac set_solve :=
  try clear LLMDataset; try clear LLMComparisonDataset; try clear LDASplitter;
  try clear load_dataset; try clear name_or_path; try clear tokenizer;
  set_solver.

(** ** The fetch of the comparison records *)

Lemma download_shp_cmpr_fetch (data_root : pystr) (w : world) (dataset : corpus) :
  load_dataset = Ok dataset →
  all_exist (cmpr_paths data_root) w = (Ok false, w) →
  _download_shp_cmpr data_root w =
    (Ok (cmpr_record <$> dataset train, cmpr_record <$> dataset validation,
         cmpr_record <$> dataset test),
     World (<[(cmpr_paths data_root).2 := CmprJsonl (cmpr_record <$> dataset test)]>
              (<[(cmpr_paths data_root).1.2 :=
                   CmprJsonl (cmpr_record <$> dataset validation)]>
                 (<[(cmpr_paths data_root).1.1 :=
                      CmprJsonl (cmpr_record <$> dataset train)]> (fs w))))
           (stdout w)).
Proof.
  intros Hload Hmiss.
  unfold _download_shp_cmpr. unfold cmpr_paths in *.
  unfold mbind at 1. unfold M_bind at 1. rewrite Hmiss.
  unfold mbind at 1. unfold M_bind at 1. unfold lift. rewrite Hload.
  reflexivity.
Qed.

(** X1.  When the three comparison JSONL files are not all present and the
    corpus is fetched, [_download_shp_cmpr] makes one record of every row of
    every split, in the order of the rows and without dropping a repeated
    instruction, returns the three lists and writes them to the three files.
    A record copies the history, the two references and the label of its
    row, has no [domain] key, and its category is the part of the row's
    domain before the first underscore: a prefix of the domain without
    underscore, the whole domain when that has none. *)
Theorem download_shp_cmpr_keeps_every_row (data_root : pystr) (w : world)
    (dataset : corpus) :
  load_dataset = Ok dataset →
  all_exist (cmpr_paths data_root) w = (Ok false, w) →
  let record_of (r : shp_row) (s : sample Z) :=
    instruction s = history r ∧ output_A s = human_ref_A r
    ∧ output_B s = human_ref_B r ∧ choice s = labels r ∧ domain s = None
    ∧ (category s `prefix_of` hf_domain r)
    ∧ (underscore ∉ category s)
    ∧ (underscore ∉ hf_domain r → category s = hf_domain r)
    ∧ (underscore ∈ hf_domain r →
       ∃ rest, hf_domain r = category s ++ underscore :: rest) in
  ∃ tr va te,
    _download_shp_cmpr data_root w =
      (Ok (tr, va, te),
       World (<[(cmpr_paths data_root).2 := CmprJsonl te]>
                (<[(cmpr_paths data_root).1.2 := CmprJsonl va]>
                   (<[(cmpr_paths data_root).1.1 := CmprJsonl tr]> (fs w))))
             (stdout w))
    ∧ Forall2 record_of (dataset train) tr
    ∧ Forall2 record_of (dataset validation) va
    ∧ Forall2 record_of (dataset test) te.
Proof.
  intros Hload Hmiss record_of.
  exists (cmpr_record <$> dataset train), (cmpr_record <$> dataset validation),
         (cmpr_record <$> dataset test).
  assert (Hrec : ∀ rows, Forall2 record_of rows (cmpr_record <$> rows)).
  { intros rows. apply Forall2_fmap_r, Forall_Forall2_diag, Forall_forall.
    intros r _. unfold record_of. cbn [instruction output_A output_B choice domain
                                        category cmpr_record].
    do 5 (split; [reflexivity|]).
    split; [apply split_head_prefix|]. split; [apply split_head_not_elem|].
    split; [apply split_head_id|apply split_head_elem]. }
  split; [|by repeat split].
  by apply download_shp_cmpr_fetch.
Qed.

(** ** The category codes *)

(** The codes of a category map are below its size and no two categories
    share one. *)
Definition injective_codes (m : gmap pystr nat) : Prop :=
  ∀ c k, m !! c = Some k → (k < size m)%nat ∧ ∀ c', m !! c' = Some k → c' = c.

Lemma code_step_spec (m : gmap pystr nat) (done : list inst) (s : inst) :
  injective_codes m →
  ∃ m', code_step (m, done) s =
          (m', done ++ [Inst (inst_instruction s) (inst_category s)
                             (m' !! inst_category s)])
        ∧ injective_codes m' ∧ m ⊆ m'
        ∧ dom m' = {[inst_category s]} ∪ dom m
        ∧ m' !! inst_category s = Some (default (size m) (m !! inst_category s)).
Proof.
  intros Hinj. unfold code_step.
  destruct (m !! inst_category s) as [k|] eqn:Hc.
  - exists m. split; [by rewrite Hc|]. split; [done|]. split; [done|].
    split; [|by rewrite Hc].
    assert (inst_category s ∈ dom m) by (apply elem_of_dom; by eexists).
    set_solve.
  - exists (<[inst_category s := size m]> m).
    split; [done|]. split; [|split; [|split]].
    + intros c k. rewrite map_size_insert_None by done.
      destruct (decide (c = inst_category s)) as [->|Hne].
      * rewrite lookup_insert_eq. intros [= <-]. split; [lia|].
        intros c'. destruct (decide (c' = inst_category s)) as [->|Hne']; [done|].
        rewrite lookup_insert_ne by done. intros [Hlt _]%Hinj. lia.
      * rewrite lookup_insert_ne by done. intros Hk.
        destruct (Hinj _ _ Hk) as [Hlt Huniq]. split; [lia|].
        intros c'. destruct (decide (c' = inst_category s)) as [->|Hne'].
        -- rewrite lookup_insert_eq. intros [= <-]. lia.
        -- rewrite lookup_insert_ne by done. apply Huniq.
    + by apply insert_subseteq.
    + by rewrite dom_insert_L.
    + by rewrite lookup_insert_eq.
Qed.

Lemma code_fold (l : list inst) (m : gmap pystr nat) (done : list inst) :
  injective_codes m →
  ∃ m', fold_left code_step l (m, done) =
          (m', done ++ ((λ s, Inst (inst_instruction s) (inst_category s)
                                   (m' !! inst_category s)) <$> l))
        ∧ injective_codes m' ∧ m ⊆ m'
        ∧ dom m' = list_to_set (inst_category <$> l) ∪ dom m.
Proof.
  revert m done. induction l as [|s l IH]; intros m done Hinj.
  - exists m. simpl. rewrite app_nil_r. split; [done|]. split; [done|].
    split; [done|]. set_solve.
  - destruct (code_step_spec m done s Hinj) as (m1 & Hstep & Hinj1 & Hsub1 & Hdom1 & Hs).
    destruct (IH m1 (done ++ [Inst (inst_instruction s) (inst_category s)
                                   (m1 !! inst_category s)]) Hinj1)
      as (m' & Hfold & Hinj' & Hsub' & Hdom').
    exists m'. cbn [fold_left]. rewrite Hstep, Hfold.
    split; [|split; [done|split; [by etrans|]]].
    + rewrite <- app_assoc. cbn [fmap list_fmap app]. do 4 f_equal.
      rewrite Hs. symmetry. eapply lookup_weaken; [exact Hs|done].
    + rewrite Hdom', Hdom1. cbn [fmap list_fmap list_to_set]. set_solve.
Qed.

Lemma injective_codes_empty : injective_codes ∅.
Proof. intros c k Hk. by rewrite lookup_empty in Hk. Qed.

(** X2.  The coding loop of [shp_dataset] keeps the instruction and the
    category of every instruction record and stores under [categories] the
    code of the category in the final category map.  The map has an entry
    exactly for the categories that occur, the codes are the numbers below
    the number of distinct categories, two records have the same code if and
    only if they have the same category, and the codes follow the order of
    first appearance: the first record of a category gets as code the
    number of distinct categories before it. *)
Theorem code_categories_first_seen (l : list inst) :
  ∃ cat_idx_map : gmap pystr nat,
    Forall2 (λ s s', inst_instruction s' = inst_instruction s
                     ∧ inst_category s' = inst_category s
                     ∧ categories s' = cat_idx_map !! inst_category s
                     ∧ is_Some (categories s'))
      l (code_categories l)
    ∧ (∀ c, is_Some (cat_idx_map !! c) ↔ c ∈ inst_category <$> l)
    ∧ (∀ c k, cat_idx_map !! c = Some k → (k < size cat_idx_map)%nat)
    ∧ (∀ c c' k, cat_idx_map !! c = Some k → cat_idx_map !! c' = Some k → c = c')
    ∧ (∀ pre s post,
         l = pre ++ s :: post →
         inst_category s ∉ inst_category <$> pre →
         cat_idx_map !! inst_category s =
           Some (size (list_to_set (inst_category <$> pre) : gset pystr))).
Proof.
  destruct (code_fold l ∅ [] injective_codes_empty) as (m & Hfold & Hinj & _ & Hdom).
  exists m. unfold code_categories. rewrite Hfold. cbn [snd app].
  assert (Hin : ∀ c, is_Some (m !! c) ↔ c ∈ inst_category <$> l).
  { intros c. rewrite <- elem_of_dom, Hdom. set_solve. }
  split; [|split; [done|split; [|split]]].
  - apply Forall2_fmap_r, Forall_Forall2_diag, Forall_forall.
    intros s Hs. cbn [inst_instruction inst_category categories].
    do 3 (split; [reflexivity|]). apply Hin. by apply list_elem_of_fmap_2.
  - intros c k Hk. by destruct (Hinj c k Hk).
  - intros c c' k Hk Hk'. destruct (Hinj c k Hk) as [_ Huniq]. symmetry. by apply Huniq.
  - intros pre s post -> Hnew. clear Hin Hdom Hinj.
    rewrite fold_left_app in Hfold.
    destruct (code_fold pre ∅ [] injective_codes_empty)
      as (m0 & Hpre & Hinj0 & _ & Hdom0).
    rewrite Hpre in Hfold. cbn [fold_left] in Hfold.
    destruct (code_step_spec m0 ([] ++ ((λ s, Inst (inst_instruction s) (inst_category s)
                                                  (m0 !! inst_category s)) <$> pre))
                s Hinj0) as (m1 & Hstep & Hinj1 & _ & _ & Hs).
    rewrite Hstep in Hfold.
    destruct (code_fold post m1 (([] ++ ((λ s, Inst (inst_instruction s) (inst_category s)
                                                   (m0 !! inst_category s)) <$> pre))
                                 ++ [Inst (inst_instruction s) (inst_category s)
                                          (m1 !! inst_category s)]) Hinj1)
      as (m2 & Hpost & _ & Hsub & _).
    rewrite Hpost in Hfold. injection Hfold as <- _.
    assert (Hnone : m0 !! inst_category s = None).
    { apply not_elem_of_dom. rewrite Hdom0. set_solve. }
    rewrite Hnone in Hs. cbn [default] in Hs.
    eapply lookup_weaken in Hs; [|exact Hsub]. rewrite Hs. f_equal.
    rewrite <- size_dom, Hdom0. f_equal. set_solve.
Qed.

(** ** The instruction-to-client map *)

Lemma assign_sublist (idx : nat) (sub : list inst) (m : gmap pystr nat) (x : pystr) :
  fold_left (λ m s, <[inst_instruction s := idx]> m) sub m !! x =
  if bool_decide (x ∈ inst_instruction <$> sub) then Some idx else m !! x.
Proof.
  revert m. induction sub as [|s sub IH]; intros m; cbn [fold_left fmap list_fmap].
  - rewrite bool_decide_eq_false_2; [done|]. apply not_elem_of_nil.
  - rewrite IH. case_bool_decide as Hsub.
    + rewrite bool_decide_eq_true_2; [done|]. by right.
    + destruct (decide (x = inst_instruction s)) as [->|Hne].
      * rewrite lookup_insert_eq, bool_decide_eq_true_2; [done|]. by left.
      * rewrite lookup_insert_ne by done.
        rewrite bool_decide_eq_false_2; [done|].
        by intros [?|?]%elem_of_cons.
Qed.

Lemma enumerate_snoc {A} (xs : list A) (x : A) :
  enumerate (xs ++ [x]) = enumerate xs ++ [(length xs, x)].
Proof.
  unfold enumerate. rewrite length_app. cbn [length].
  rewrite seq_app. cbn [seq]. rewrite Nat.add_0_l.
  rewrite (zip_with_app pair) by (by rewrite length_seq). done.
Qed.

Lemma build_inst_client_map_snoc (ll : list (list inst)) (sub : list inst) (x : pystr) :
  build_inst_client_map (ll ++ [sub]) !! x =
  if bool_decide (x ∈ inst_instruction <$> sub) then Some (length ll)
  else build_inst_client_map ll !! x.
Proof.
  unfold build_inst_client_map. rewrite enumerate_snoc, fold_left_app.
  cbn [fold_left]. apply assign_sublist.
Qed.

(** The client of an instruction in the map: the index of the last sublist
    of the split that holds a record with this instruction. *)
Lemma build_inst_client_map_lookup (ll : list (list inst)) (x : pystr) :
  match build_inst_client_map ll !! x with
  | Some idx =>
      (∃ sub, ll !! idx = Some sub ∧ x ∈ inst_instruction <$> sub)
      ∧ ∀ j sub', ll !! j = Some sub' → x ∈ inst_instruction <$> sub' → (j ≤ idx)%nat
  | None => ∀ sub, sub ∈ ll → x ∉ inst_instruction <$> sub
  end.
Proof.
  induction ll as [|sub ll IH] using rev_ind.
  - unfold build_inst_client_map. cbn. rewrite lookup_empty.
    intros sub Hsub. by apply elem_of_nil in Hsub.
  - rewrite build_inst_client_map_snoc. case_bool_decide as Hx.
    + split.
      * exists sub. split; [|done]. by rewrite list_lookup_middle.
      * intros j sub' Hj _. apply lookup_lt_Some in Hj.
        rewrite length_app in Hj. cbn in Hj. lia.
    + destruct (build_inst_client_map ll !! x) as [idx|].
      * destruct IH as [(sub0 & Hidx & Hin) Hmax]. split.
        -- exists sub0. split; [|done]. by apply lookup_app_l_Some.
        -- intros j sub' Hj Hin'.
           destruct (decide (j < length ll)%nat) as [Hlt|Hge].
           ++ rewrite lookup_app_l in Hj by done. by eapply Hmax.
           ++ rewrite lookup_app_r in Hj by lia.
              destruct (j - length ll)%nat; [|done].
              injection Hj as <-. done.
      * intros sub' [Hin|Hin]%elem_of_app; [by apply IH|].
        apply list_elem_of_singleton in Hin as ->. done.
Qed.

(** X3.  The loop that fills the instruction-to-client map gives every
    instruction of the split one client: the index of the last sublist that
    holds a record with this instruction, so that an instruction placed in
    two sublists goes to the later one.  The client is a valid index of the
    split, and an instruction has no entry exactly when no sublist holds
    it. *)
Theorem inst_client_map_last_wins (inst_split_list : list (list inst)) (x : pystr) :
  (∀ idx, build_inst_client_map inst_split_list !! x = Some idx ↔
          (∃ sub, inst_split_list !! idx = Some sub ∧ x ∈ inst_instruction <$> sub)
          ∧ ∀ j sub', inst_split_list !! j = Some sub' →
                      x ∈ inst_instruction <$> sub' → (j ≤ idx)%nat)
  ∧ (∀ idx, build_inst_client_map inst_split_list !! x = Some idx →
            (idx < length inst_split_list)%nat)
  ∧ (build_inst_client_map inst_split_list !! x = None ↔
     ∀ sub, sub ∈ inst_split_list → x ∉ inst_instruction <$> sub).
Proof.
  pose proof (build_inst_client_map_lookup inst_split_list x) as H.
  destruct (build_inst_client_map inst_split_list !! x) as [i|] eqn:Hi.
  - destruct H as [(sub & Hsub & Hin) Hmax]. split; [|split].
    + intros idx. split.
      * intros [= <-]. split; [by exists sub|done].
      * intros [(sub' & Hsub' & Hin') Hmax'].
        pose proof (Hmax _ _ Hsub' Hin'). pose proof (Hmax' _ _ Hsub Hin).
        f_equal. lia.
    + intros idx [= <-]. by eapply lookup_lt_Some.
    + split; [done|]. intros Hnone. exfalso.
      apply (Hnone sub); [|done]. by eapply list_elem_of_lookup_2.
  - split; [|split; [done|done]].
    intros idx. split; [done|].
    intros [(sub & Hsub & Hin) _]. exfalso.
    apply (H sub); [|done]. by eapply list_elem_of_lookup_2.
Qed.

(** ** The counts of the summary *)

(** The number of the records of [l] with the client label [client] and the
    domain [x]. *)
Definition count_in (client x : pystr) (l : list (sample Z)) : nat :=
  length (filter (λ s, category s = client ∧ domain s = Some x) l).

Lemma count_domains_fold (client : pystr) (l : list (sample Z)) (d0 : gmap pystr nat) :
  Forall (λ s, is_Some (domain s)) l →
  ∃ d, fold_left (count_step client) l (Ok d0) = Ok d
       ∧ ∀ x, d !! x = match count_in client x l with
                       | O => d0 !! x
                       | S k => Some (default 0%nat (d0 !! x) + S k)%nat
                       end.
Proof.
  revert d0. induction l as [|s l IH]; intros d0 Hl; cbn [fold_left].
  - by exists d0.
  - inversion Hl as [|? ? [dom Hd] Hl']; subst.
    unfold count_in. cbn [filter list_filter].
    unfold count_step at 2. cbn [mbind res_bind]. rewrite Hd.
    case_bool_decide as Hc.
    + set (d1 := <[dom := S (default 0%nat
                    (match d0 !! dom with
                     | Some _ => d0
                     | None => <[dom := 0%nat]> d0
                     end !! dom))]>
                   (match d0 !! dom with
                    | Some _ => d0
                    | None => <[dom := 0%nat]> d0
                    end)).
      destruct (IH d1 Hl') as (d & Hfold & Hd1). exists d. split; [exact Hfold|].
      intros x. rewrite Hd1. unfold count_in.
      assert (Hd1x : d1 !! x = if bool_decide (x = dom)
                               then Some (S (default 0%nat (d0 !! x))) else d0 !! x).
      { subst d1. case_bool_decide as Hx.
        - subst x. rewrite lookup_insert_eq. f_equal. f_equal.
          destruct (d0 !! dom) as [k|] eqn:E; [by rewrite E|].
          by rewrite lookup_insert_eq.
        - rewrite lookup_insert_ne by done.
          destruct (d0 !! dom); [done|]. by rewrite lookup_insert_ne. }
      rewrite Hd1x.
      destruct (decide (category s = client ∧ Some dom = Some x)) as [[_ Hx]|Hx].
      * assert (x = dom) as -> by congruence.
        rewrite bool_decide_eq_true_2 by done. cbn [length].
        destruct (length _); simpl; f_equal; lia.
      * assert (x ≠ dom) by (intros ->; by apply Hx).
        by rewrite bool_decide_eq_false_2.
    + destruct (IH d0 Hl') as (d & Hfold & Hd0). exists d. split; [exact Hfold|].
      intros x. rewrite Hd0. unfold count_in.
      destruct (decide (category s = client ∧ Some dom = Some x)) as [[? _]|Hx]; done.
Qed.


(** ** A fresh build assigns every training record *)

Definition paths_list (fps : pystr * pystr * pystr) : list pystr :=
  [fps.1.1; fps.1.2; fps.2].

Lemma all_exist_false_frame (fps : pystr * pystr * pystr) (w w' : world) :
  all_exist fps w = (Ok false, w) →
  (∀ p, p ∈ paths_list fps → fs w' !! p = fs w !! p) →
  all_exist fps w' = (Ok false, w').
Proof.
  destruct fps as [[a b] c]. unfold paths_list. cbn [fst snd].
  unfold all_exist, os_path_exists, gets, mbind, M_bind, mret, M_ret.
  intros H Hf. injection H as H.
  rewrite (Hf a), (Hf b), (Hf c), H; [done| | |].
  - by do 2 right; left.
  - by right; left.
  - by left.
Qed.

Lemma join_lit_ne (a : pystr) (x y : string) :
  startswith_sep (lit x) = startswith_sep (lit y) → x ≠ y →
  os_path_join a (lit x) ≠ os_path_join a (lit y).
Proof. intros Hs Hne Heq. apply Hne, lit_inj. by eapply os_path_join_inj. Qed.

(** The files of the two loaders have different paths. *)
Lemma jsonl_paths_distinct (data_root p q : pystr) :
  p ∈ paths_list (cmpr_paths data_root) → q ∈ paths_list (rlhf_paths data_root) → p ≠ q.
Proof.
  unfold paths_list, cmpr_paths, rlhf_paths. cbn [fst snd].
  intros Hp Hq.
  repeat (apply elem_of_cons in Hp as [->|Hp]); [| | |by apply elem_of_nil in Hp];
    (repeat (apply elem_of_cons in Hq as [->|Hq]); [| | |by apply elem_of_nil in Hq]);
    by apply join_lit_ne.
Qed.

Lemma download_shp_fetch (data_root : pystr) (w : world) (dataset : corpus) :
  load_dataset = Ok dataset →
  all_exist (rlhf_paths data_root) w = (Ok false, w) →
  ∃ va te files,
    _download_shp data_root w =
      (Ok (inst_record <$> first_occurrences [] (dataset train), va, te),
       World files (stdout w))
    ∧ ∀ p, p ∉ paths_list (rlhf_paths data_root) → files !! p = fs w !! p.
Proof.
  intros Hload Hmiss.
  unfold _download_shp. unfold rlhf_paths in *.
  unfold mbind at 1. unfold M_bind at 1. rewrite Hmiss.
  unfold mbind at 1. unfold M_bind at 1. unfold lift. rewrite Hload.
  rewrite !dedup_split_spec. eexists _, _, _. split; [reflexivity|].
  intros p Hp. unfold paths_list in Hp. cbn [fst snd fs] in *.
  rewrite !not_elem_of_cons in Hp. destruct Hp as (H1 & H2 & H3 & _).
  by rewrite !lookup_insert_ne.
Qed.

Lemma code_categories_instructions (l : list inst) :
  inst_instruction <$> code_categories l = inst_instruction <$> l.
Proof.
  destruct (code_fold l ∅ [] injective_codes_empty) as (m & Hfold & _).
  unfold code_categories. rewrite Hfold. cbn [snd app].
  rewrite <- list_fmap_compose. by apply list_fmap_ext.
Qed.

(** X5.  On a first run, when neither set of JSONL files is present and the
    corpus is fetched, the instruction records come from the same training
    split as the comparison records, so every training instruction has an
    instruction record.  If the splitter puts every record it is given in
    one of its sublists, [shp_dataset] then raises no [KeyError]: it returns
    the validation and the test records as fetched, and the training
    records, one for every training row before the token budget is applied,
    each labelled with a client whose sublist holds the row's instruction. *)
Theorem shp_dataset_fresh_assigns_every_record (data_root : pystr) (num_clients : nat)
    (w : world) (dataset : corpus) :
  load_dataset = Ok dataset →
  all_exist (cmpr_paths data_root) w = (Ok false, w) →
  all_exist (rlhf_paths data_root) w = (Ok false, w) →
  let insts := code_categories (inst_record <$> first_occurrences [] (dataset train)) in
  (∀ s, s ∈ insts → ∃ sub, sub ∈ LDASplitter num_clients insts ∧ s ∈ sub) →
  ∃ merged w',
    shp_dataset data_root num_clients w =
      (Ok (select_by_budget merged, cmpr_record <$> dataset validation,
           cmpr_record <$> dataset test), w')
    ∧ Forall2 (λ r s', ∃ i sub,
                 LDASplitter num_clients insts !! i = Some sub
                 ∧ history r ∈ inst_instruction <$> sub
                 ∧ s' = relabel i (cmpr_record r))
        (dataset train) merged.
Proof.
  intros Hload Hcmpr Hrlhf insts Hsplit.
  pose proof (download_shp_cmpr_fetch data_root w dataset Hload Hcmpr) as H1.
  set (w1 := World _ (stdout w)) in H1.
  assert (Hrlhf1 : all_exist (rlhf_paths data_root) w1 = (Ok false, w1)).
  { apply (all_exist_false_frame _ w); [done|]. intros q Hq. subst w1. cbn [fs].
    rewrite !lookup_insert_ne; [done| | |];
      apply (λ Hp, jsonl_paths_distinct data_root _ q Hp Hq);
      unfold paths_list; [by left|by right; left|by do 2 right; left]. }
  destruct (download_shp_fetch data_root w1 dataset Hload Hrlhf1)
    as (v & t & files & H2 & _).
  assert (Hassigned : ∀ r, r ∈ dataset train →
            ∃ i sub, LDASplitter num_clients insts !! i = Some sub
                     ∧ history r ∈ inst_instruction <$> sub
                     ∧ client_map num_clients
                         (inst_record <$> first_occurrences [] (dataset train))
                       !! history r = Some i).
  { intros r Hr. unfold client_map. fold insts.
    pose proof (build_inst_client_map_lookup (LDASplitter num_clients insts) (history r))
      as Hlook.
    destruct (build_inst_client_map (LDASplitter num_clients insts) !! history r)
      as [i|].
    - destruct Hlook as [(sub & Hsub & Hin) _]. by exists i, sub.
    - exfalso.
      assert (Hh : history r ∈ inst_instruction <$> insts).
      { subst insts. rewrite code_categories_instructions, <- list_fmap_compose.
        apply (first_occurrences_seen [] (dataset train) (history r)).
        cbn [app]. by apply list_elem_of_fmap_2. }
      apply list_elem_of_fmap in Hh as (s & Hs & Hin).
      destruct (Hsplit s Hin) as (sub & Hsub & Hssub).
      apply (Hlook sub Hsub). rewrite Hs. by apply list_elem_of_fmap_2. }
  assert (Hmerge : ∀ rows, (∀ r, r ∈ rows → r ∈ dataset train) →
            ∃ merged,
              for_each (assign_client
                          (client_map num_clients
                             (inst_record <$> first_occurrences [] (dataset train))))
                (cmpr_record <$> rows) = Ok merged
              ∧ Forall2 (λ r s', ∃ i sub,
                           LDASplitter num_clients insts !! i = Some sub
                           ∧ history r ∈ inst_instruction <$> sub
                           ∧ s' = relabel i (cmpr_record r))
                  rows merged).
  { clear H1 H2. induction rows as [|r rows IH]; intros Hrows.
    - exists []. split; [done|constructor].
    - destruct IH as (merged & Hm & HF); [intros r' Hr'; apply Hrows; by right|].
      destruct (Hassigned r) as (i & sub & Hsub & Hin & Hi); [apply Hrows; by left|].
      exists (relabel i (cmpr_record r) :: merged). split.
      + cbn [fmap list_fmap for_each]. unfold assign_client at 1.
        cbn [instruction cmpr_record]. rewrite Hi.
        change (list_fmap _ _ cmpr_record rows) with (cmpr_record <$> rows).
        by rewrite Hm.
      + constructor; [|done]. by exists i, sub. }
  destruct (Hmerge (dataset train)) as (merged & Hm & HF); [done|].
  destruct (shp_dataset_Ok _ _ _ _ _ _ _ _ _ _ _ _ H1 H2 Hm) as (out & Hrun & _).
  by eexists _, _.
Qed.

(** ** What a failure leaves behind *)

Lemma lookup_insert3_ne (files : gmap pystr file) (a b c p : pystr) (x y z : file) :
  p ∉ [a; b; c] → <[c := z]> (<[b := y]> (<[a := x]> files)) !! p = files !! p.
Proof.
  rewrite !not_elem_of_cons. intros (H1 & H2 & H3 & _).
  by rewrite !lookup_insert_ne.
Qed.

Lemma download_shp_cmpr_fs (data_root : pystr) (w : world) (p : pystr) :
  p ∉ paths_list (cmpr_paths data_root) →
  fs (_download_shp_cmpr data_root w).2 !! p = fs w !! p.
Proof.
  intros Hp. unfold _download_shp_cmpr.
  destruct (cmpr_paths data_root) as [[a b] c] eqn:Hfps.
  unfold mbind at 1. unfold M_bind at 1.
  destruct (all_exist_run (a, b, c) w) as [cached ->]. destruct cached.
  - unfold mbind, M_bind.
    pose proof (load_jsonl_cmpr_world a w) as Ha.
    destruct (load_jsonl_cmpr a w) as [[la|e] wa]; cbn [snd] in Ha; subst wa; [|done].
    pose proof (load_jsonl_cmpr_world b w) as Hb.
    destruct (load_jsonl_cmpr b w) as [[lb|e] wb]; cbn [snd] in Hb; subst wb; [|done].
    pose proof (load_jsonl_cmpr_world c w) as Hc.
    destruct (load_jsonl_cmpr c w) as [[lc|e] wc]; cbn [snd] in Hc; subst wc; done.
  - unfold mbind, M_bind, lift. destruct load_dataset as [dataset|e]; [|done].
    cbn [snd fs write_file modify mret M_ret]. by apply lookup_insert3_ne.
Qed.

Lemma download_shp_fs (data_root : pystr) (w : world) (p : pystr) :
  p ∉ paths_list (rlhf_paths data_root) →
  fs (_download_shp data_root w).2 !! p = fs w !! p.
Proof.
  intros Hp. unfold _download_shp.
  destruct (rlhf_paths data_root) as [[a b] c] eqn:Hfps.
  unfold mbind at 1. unfold M_bind at 1.
  destruct (all_exist_run (a, b, c) w) as [cached ->]. destruct cached.
  - unfold mbind, M_bind.
    pose proof (load_jsonl_inst_world a w) as Ha.
    destruct (load_jsonl_inst a w) as [[la|e] wa]; cbn [snd] in Ha; subst wa; [|done].
    pose proof (load_jsonl_inst_world b w) as Hb.
    destruct (load_jsonl_inst b w) as [[lb|e] wb]; cbn [snd] in Hb; subst wb; [|done].
    pose proof (load_jsonl_inst_world c w) as Hc.
    destruct (load_jsonl_inst c w) as [[lc|e] wc]; cbn [snd] in Hc; subst wc; done.
  - unfold mbind, M_bind, lift. destruct load_dataset as [dataset|e]; [|done].
    destruct (dedup_split [] (dataset train)) as [seen1 out1].
    destruct (dedup_split seen1 (dataset validation)) as [seen2 out2].
    destruct (dedup_split seen2 (dataset test)) as [seen3 out3].
    cbn [snd fs write_file modify mret M_ret]. by apply lookup_insert3_ne.
Qed.

(** The summary prints and writes no file, whether or not it fails. *)
Lemma print_summary_fs (num_clients : nat) (l : list (sample Z)) (w : world) :
  fs (print_summary num_clients l w).2 = fs w.
Proof.
  unfold print_summary. generalize (seq 0 (num_clients + 1)). intros ids.
  revert w. induction ids as [|i ids IH]; intros w; cbn [for_M]; [done|].
  unfold mbind at 1. unfold M_bind at 1.
  assert (Hone : fs (print_client l i w).2 = fs w).
  { unfold print_client, mbind, M_bind, print, modify, lift.
    by destruct (count_domains _ l). }
  destruct (print_client l i w) as [[[]|e] w1]; cbn [snd] in *; [|done].
  by rewrite IH.
Qed.

(** [shp_dataset] writes the JSONL files of its two loaders and no other
    file, whether or not it fails. *)
Lemma shp_dataset_fs (data_root : pystr) (num_clients : nat) (w : world) (p : pystr) :
  p ∉ paths_list (cmpr_paths data_root) → p ∉ paths_list (rlhf_paths data_root) →
  fs (shp_dataset data_root num_clients w).2 !! p = fs w !! p.
Proof.
  intros Hp1 Hp2. rewrite shp_dataset_run.
  pose proof (download_shp_cmpr_fs data_root w p Hp1) as H1.
  destruct (_download_shp_cmpr data_root w) as [[[[tr va] te]|e] w1];
    cbn [snd] in H1 |- *; [|done].
  pose proof (download_shp_fs data_root w1 p Hp2) as H2.
  destruct (_download_shp data_root w1) as [[[[insts v] t]|e] w2];
    cbn [snd] in H2 |- *; [|by rewrite H2].
  destruct (for_each _ tr) as [merged|e]; cbn [snd]; [|by rewrite H2].
  pose proof (print_summary_fs num_clients (select_by_budget merged) w2) as H3.
  destruct (print_summary _ _ w2) as [[[]|e] w3]; cbn [snd] in H3 |- *;
    by rewrite H3, H2.
Qed.

(** A pickle path is none of the JSONL paths: it ends in [e], they end in
    [l]. *)
Lemma last_join_app (a t x : pystr) :
  x ≠ [] → last (os_path_join a (t ++ x)) = last x.
Proof.
  intros Hx. rewrite last_os_path_join by (destruct t, x; done).
  rewrite last_app. destruct (last x) eqn:E; [done|].
  by apply last_None in E.
Qed.

Lemma jsonl_not_pickle (data_root p : pystr) :
  last p = Some 101%N →
  (p ∉ paths_list (cmpr_paths data_root)) ∧ (p ∉ paths_list (rlhf_paths data_root)).
Proof.
  intros Hp. unfold paths_list, cmpr_paths, rlhf_paths. cbn [fst snd].
  rewrite !not_elem_of_cons.
  repeat split; try apply not_elem_of_nil;
    intros ->; rewrite last_os_path_join in Hp by done; by vm_compute in Hp.
Qed.

Lemma pickle_paths_last (data_root : pystr) (n : nat) (p : pystr) :
  p ∈ paths_list (comparison_paths data_root n) ++ paths_list (choice_paths data_root n) →
  last p = Some 101%N.
Proof.
  unfold paths_list, comparison_paths, choice_paths. cbn [fst snd app].
  intros Hp.
  repeat (apply elem_of_cons in Hp as [->|Hp]); [..|by apply elem_of_nil in Hp];
    rewrite ?(assoc_L (++)); by rewrite last_join_app.
Qed.


Lemma all_exist_frame (fps : pystr * pystr * pystr) (w w' : world) :
  (∀ p, p ∈ paths_list fps → fs w' !! p = fs w !! p) →
  (all_exist fps w').1 = (all_exist fps w).1.
Proof.
  destruct fps as [[a b] c]. unfold paths_list. cbn [fst snd].
  unfold all_exist, os_path_exists, gets, mbind, M_bind, mret, M_ret.
  intros Hf. cbn [fst]. rewrite (Hf a), (Hf b), (Hf c); [done| | |].
  - by do 2 right; left.
  - by right; left.
  - by left.
Qed.

Lemma load_pickles_world (fps : pystr * pystr * pystr) (w : world) :
  (load_pickles fps w).2 = w.
Proof.
  destruct fps as [[a b] c].
  unfold load_pickles, pickle_load, mbind, M_bind, mret, M_ret.
  destruct (fs w !! a) as [[| |]|]; try done;
    destruct (fs w !! b) as [[| |]|]; try done;
    destruct (fs w !! c) as [[| |]|]; done.
Qed.

(** What the [else] branch of [load_comparison_dataset] computes between
    [shp_dataset] and the opening of the pickle files: the three datasets. *)
Definition comparison_datasets (lists : list (sample Z) * list (sample Z) * list (sample Z))
  : res (cmp_dataset * cmp_dataset * cmp_dataset) :=
  let '(list_train_dict, list_val_dict, list_test_dict) := lists in
  train_dataset ← LLMComparisonDataset list_train_dict shp;
  val_dataset ← LLMComparisonDataset list_val_dict shp;
  test_dataset ← LLMComparisonDataset list_test_dict shp;
  Ok (train_dataset, val_dataset, test_dataset).

(** The same for [load_shp_cmp_dataset_by_choice]: the shaping and the
    three datasets. *)
Definition choice_datasets (lists : list (sample Z) * list (sample Z) * list (sample Z))
  : res (llm_dataset * llm_dataset * llm_dataset) :=
  '(list_train_dict, list_val_dict, list_test_dict) ← shape_by_choice lists;
  train_dataset ← LLMDataset list_train_dict shp_cmp;
  val_dataset ← LLMDataset list_val_dict shp_cmp;
  test_dataset ← LLMDataset list_test_dict shp_cmp;
  Ok (train_dataset, val_dataset, test_dataset).

Lemma build_comparison_Err (data_root : pystr) (n : nat) (w w1 : world) (e : exn) :
  shp_dataset data_root n w = (Err e, w1)
  ∨ (∃ lists, shp_dataset data_root n w = (Ok lists, w1)
              ∧ comparison_datasets lists = Err e) →
  build_comparison data_root n w = (Err e, w1).
Proof.
  unfold build_comparison, comparison_paths.
  unfold mbind at 1. unfold M_bind at 1.
  intros [->|([[tr va] te] & -> & Hd)]; [done|].
  unfold comparison_datasets in Hd. unfold mbind, M_bind, lift.
  destruct (LLMComparisonDataset tr shp); [|by injection Hd as ->].
  cbn [mbind res_bind] in Hd.
  destruct (LLMComparisonDataset va shp); [|by injection Hd as ->].
  cbn [mbind res_bind] in Hd.
  destruct (LLMComparisonDataset te shp); [done|by injection Hd as ->].
Qed.

Lemma build_choice_Err (data_root : pystr) (n : nat) (w w1 : world) (e : exn) :
  shp_dataset data_root n w = (Err e, w1)
  ∨ (∃ lists, shp_dataset data_root n w = (Ok lists, w1)
              ∧ choice_datasets lists = Err e) →
  build_choice data_root n w = (Err e, w1).
Proof.
  unfold build_choice, choice_paths.
  unfold mbind at 1. unfold M_bind at 1.
  intros [->|(lists & -> & Hd)]; [done|].
  unfold choice_datasets in Hd. unfold mbind, M_bind, lift.
  destruct (shape_by_choice lists) as [[[tr va] te]|]; [|by injection Hd as ->].
  cbn [mbind res_bind] in Hd.
  destruct (LLMDataset tr shp_cmp); [|by injection Hd as ->].
  cbn [mbind res_bind] in Hd.
  destruct (LLMDataset va shp_cmp); [|by injection Hd as ->].
  cbn [mbind res_bind] in Hd.
  destruct (LLMDataset te shp_cmp); [done|by injection Hd as ->].
Qed.

(** [shp_dataset] leaves every path that ends in [.pickle] as it was. *)
Lemma shp_dataset_keeps_pickles (data_root : pystr) (n : nat) (w w1 : world)
    (r : res (list (sample Z) * list (sample Z) * list (sample Z))) (p : pystr) :
  shp_dataset data_root n w = (r, w1) →
  last p = Some 101%N → fs w1 !! p = fs w !! p.
Proof.
  intros Hrun [Hp1 Hp2]%(jsonl_not_pickle data_root).
  pose proof (shp_dataset_fs data_root n w p Hp1 Hp2) as Hfs.
  by rewrite Hrun in Hfs.
Qed.

(** X6.  A build that fails before its dumps has written no pickle.  When
    the cache files of a loader are not all present and [shp_dataset], the
    shaping of the records or one of the three dataset constructors raises,
    [load_comparison_dataset] and [load_shp_cmp_dataset_by_choice] raise the
    same exception.  These steps all come before the pickle files are
    opened, so every path that ends in [.pickle] holds after the failure
    what it held before; the cache files are still not all present, and the
    next call builds again instead of taking the failed build for a cached
    one.  The opening of the pickle files and the dumps themselves are taken
    to succeed here; what a failure of theirs leaves behind is not part of
    this property. *)
Theorem failed_load_caches_nothing (data_root : pystr) (cfg : config) (m : Z)
    (w w1 : world) (e : exn) :
  let n := federate_client_num cfg in
  (all_exist (comparison_paths data_root n) w = (Ok false, w) →
   shp_dataset data_root n w = (Err e, w1)
   ∨ (∃ lists, shp_dataset data_root n w = (Ok lists, w1)
               ∧ comparison_datasets lists = Err e) →
   load_comparison_dataset data_root cfg m w = (Err e, w1)
   ∧ (∀ t, fs w1 !! os_path_join data_root (t ++ lit ".pickle")
           = fs w !! os_path_join data_root (t ++ lit ".pickle"))
   ∧ all_exist (comparison_paths data_root n) w1 = (Ok false, w1))
  ∧ (all_exist (choice_paths data_root n) w = (Ok false, w) →
     shp_dataset data_root n w = (Err e, w1)
     ∨ (∃ lists, shp_dataset data_root n w = (Ok lists, w1)
                 ∧ choice_datasets lists = Err e) →
     load_shp_cmp_dataset_by_choice data_root cfg m w = (Err e, w1)
     ∧ (∀ t, fs w1 !! os_path_join data_root (t ++ lit ".pickle")
             = fs w !! os_path_join data_root (t ++ lit ".pickle"))
     ∧ all_exist (choice_paths data_root n) w1 = (Ok false, w1)).
Proof.
  intros n.
  assert (Hframe : ∀ r, shp_dataset data_root n w = (r, w1) →
            ∀ p, last p = Some 101%N → fs w1 !! p = fs w !! p).
  { intros r Hrun p. by apply (shp_dataset_keeps_pickles data_root n w w1 r). }
  assert (Hkept : ∀ r, shp_dataset data_root n w = (r, w1) →
            ∀ t, fs w1 !! os_path_join data_root (t ++ lit ".pickle")
                 = fs w !! os_path_join data_root (t ++ lit ".pickle")).
  { intros r Hrun t. apply (Hframe r Hrun). by rewrite last_join_app. }
  assert (Hshp : ∀ A (datasets : _ → res A),
            shp_dataset data_root n w = (Err e, w1)
            ∨ (∃ lists, shp_dataset data_root n w = (Ok lists, w1)
                        ∧ datasets lists = Err e) →
            ∃ r, shp_dataset data_root n w = (r, w1)).
  { intros A datasets [H|(lists & H & _)]; by eexists. }
  split; intros Hmiss Hfail; destruct (Hshp _ _ Hfail) as [r Hrun];
    (split; [|split; [by apply (Hkept r)|]]).
  - unfold load_comparison_dataset. fold n.
    unfold mbind at 1. unfold M_bind at 1. rewrite Hmiss.
    unfold mbind, M_bind. by rewrite (build_comparison_Err data_root n w w1 e Hfail).
  - apply (all_exist_false_frame _ w); [done|].
    intros p Hp. apply (Hframe r Hrun), (pickle_paths_last data_root n).
    apply elem_of_app. by left.
  - unfold load_shp_cmp_dataset_by_choice. fold n.
    unfold mbind at 1. unfold M_bind at 1. rewrite Hmiss.
    unfold mbind, M_bind. by rewrite (build_choice_Err data_root n w w1 e Hfail).
  - apply (all_exist_false_frame _ w); [done|].
    intros p Hp. apply (Hframe r Hrun), (pickle_paths_last data_root n).
    apply elem_of_app. by right.
Qed.

(** X7.  When the corpus cannot be fetched and the JSONL files of a loader
    are not all present, the loader raises the exception of the fetch and
    leaves the world as it was: the fetch comes before the first file is
    opened, so no empty file is left that a later call would take for a
    cached one.  The same holds for [shp_dataset] and [load_rlhf_dataset],
    which call the loaders first. *)
Theorem failed_fetch_creates_no_file (data_root : pystr) (num_clients : nat)
    (max_num_test : Z) (w : world) (e : exn) :
  load_dataset = Err e →
  (all_exist (cmpr_paths data_root) w = (Ok false, w) →
   _download_shp_cmpr data_root w = (Err e, w)
   ∧ shp_dataset data_root num_clients w = (Err e, w))
  ∧ (all_exist (rlhf_paths data_root) w = (Ok false, w) →
     _download_shp data_root w = (Err e, w)
     ∧ load_rlhf_dataset data_root max_num_test w = (Err e, w)).
Proof.
  intros Hload. split; intros Hmiss.
  - assert (H1 : _download_shp_cmpr data_root w = (Err e, w)).
    { unfold _download_shp_cmpr. unfold cmpr_paths in *.
      unfold mbind at 1. unfold M_bind at 1. rewrite Hmiss.
      unfold mbind at 1. unfold M_bind at 1. unfold lift. by rewrite Hload. }
    split; [exact H1|]. by rewrite shp_dataset_run, H1.
  - assert (H1 : _download_shp data_root w = (Err e, w)).
    { unfold _download_shp. unfold rlhf_paths in *.
      unfold mbind at 1. unfold M_bind at 1. rewrite Hmiss.
      unfold mbind at 1. unfold M_bind at 1. unfold lift. by rewrite Hload. }
    split; [exact H1|]. unfold load_rlhf_dataset, mbind, M_bind. by rewrite H1.
Qed.

(** ** The cache keys *)

Lemma train_key_ne (n m : nat) :
  lit "_train_" ++ str_nat n ++ lit ".pickle"
  ≠ lit "_train_choice_" ++ str_nat m ++ lit ".pickle".
Proof.
  change (lit "_train_choice_") with (lit "_train_" ++ 99%N :: lit "hoice_").
  rewrite <- (assoc_L (++)). intros H%app_inv_head.
  destruct (str_nat_head n) as (c & rest & Hn & Hd). rewrite Hn in H.
  injection H as -> _. unfold is_digit in Hd. lia.
Qed.

Lemma train_key_inj (t x : pystr) (n m : nat) :
  t ++ x ++ str_nat n ++ lit ".pickle" = t ++ x ++ str_nat m ++ lit ".pickle" → n = m.
Proof.
  intros H. do 2 apply app_inv_head in H. apply app_inv_tail in H.
  by apply str_nat_inj.
Qed.

(** X8.  The cache keys of the two tokenized shapes.  The path of the
    training pickle determines the number of clients, so training caches of
    different client counts never meet; the paths of the validation and the
    test pickle do not mention it and are shared by all client counts.  No
    path of the comparison shape is a path of the letter-choice shape,
    whatever the client counts, so neither loader reads or overwrites a
    pickle of the other. *)
Theorem cache_keys_by_client_count (data_root : pystr) (n m : nat) :
  ((comparison_paths data_root n).1.1 = (comparison_paths data_root m).1.1 ↔ n = m)
  ∧ ((choice_paths data_root n).1.1 = (choice_paths data_root m).1.1 ↔ n = m)
  ∧ (comparison_paths data_root n).1.2 = (comparison_paths data_root m).1.2
  ∧ (comparison_paths data_root n).2 = (comparison_paths data_root m).2
  ∧ (choice_paths data_root n).1.2 = (choice_paths data_root m).1.2
  ∧ (choice_paths data_root n).2 = (choice_paths data_root m).2
  ∧ (∀ p q, p ∈ paths_list (comparison_paths data_root n) →
            q ∈ paths_list (choice_paths data_root m) → p ≠ q).
Proof.
  unfold comparison_paths, choice_paths, paths_list. cbn [fst snd].
  split; [|split; [|split; [|split; [|split; [|split]]]]]; try reflexivity.
  - split; [|by intros ->]. intros H.
    apply os_path_join_inj in H; [|by apply startswith_sep_app].
    by apply train_key_inj in H.
  - split; [|by intros ->]. intros H.
    apply os_path_join_inj in H; [|by apply startswith_sep_app].
    by apply train_key_inj in H.
  - intros p q Hp Hq.
    repeat (apply elem_of_cons in Hp as [->|Hp]); [| | |by apply elem_of_nil in Hp];
      (repeat (apply elem_of_cons in Hq as [->|Hq]); [| | |by apply elem_of_nil in Hq]);
      apply cache_paths_distinct; try done.
    apply train_key_ne.
Qed.

(** ** The letters of the doubled training list *)

Lemma letters_balanced (tr : list (sample Z)) (c : Z) :
  Forall (λ s, choice s = 0 ∨ choice s = 1) tr →
  c = 0 ∨ c = 1 →
  length (filter (λ s' : sample pystr, choice s' = lit " " ++ [Z.to_N (c + ord_A)])
            (with_letter <$> tr ++ (exchange <$> tr))) = length tr.
Proof.
  intros Htr Hc. rewrite fmap_app, filter_app, length_app.
  induction Htr as [|s tr Hs _ IH]; [done|].
  cbn [fmap list_fmap filter list_filter length].
  change (list_fmap _ _ ?f ?l) with (f <$> l) in *.
  destruct Hs as [Hs|Hs], Hc as [-> | ->];
    (destruct (decide (choice (with_letter s) = _)) as [H1|H1];
     destruct (decide (choice (with_letter (exchange s)) = _)) as [H2|H2];
     cbn [choice with_letter exchange] in H1, H2; rewrite Hs in H1, H2;
     try (vm_compute in H1; discriminate H1);
     try (vm_compute in H2; discriminate H2);
     try (exfalso; apply H1; reflexivity);
     try (exfalso; apply H2; reflexivity);
     cbn [length]; rewrite ?Nat.add_succ_l, ?Nat.add_succ_r; f_equal; exact IH).
Qed.

(** X9.  On training records whose choice is 0 or 1, the letter-choice
    shaper returns a training list with as many records of the letter " A"
    as of the letter " B": each is the number of the training records it
    received, because a record and its exchanged copy get different
    letters. *)
Theorem shape_by_choice_balances_letters (tr va te : list (sample Z))
    (tr' va' te' : list (sample pystr)) :
  Forall (λ s, choice s = 0 ∨ choice s = 1) tr →
  shape_by_choice (tr, va, te) = Ok (tr', va', te') →
  length (filter (λ s', choice s' = lit " A") tr') = length tr
  ∧ length (filter (λ s', choice s' = lit " B") tr') = length tr
  ∧ Forall (λ s', choice s' = lit " A" ∨ choice s' = lit " B") tr'.
Proof.
  intros Htr (-> & _ & _)%shape_by_choice_Ok_inv.
  split; [|split].
  - apply (letters_balanced tr 0 Htr). by left.
  - apply (letters_balanced tr 1 Htr). by right.
  - rewrite fmap_app, Forall_app, <- list_fmap_compose, !Forall_fmap.
    split; (eapply Forall_impl; [exact Htr|]); intros s [Hs|Hs];
      unfold compose; cbn [choice with_letter exchange]; rewrite Hs;
      first [by left|by right].
Qed.

(** ** The evaluation records of [load_rlhf_dataset] *)

(** X10.  Whatever [load_rlhf_dataset] returns, every record of its
    validation list and of its test list is also a record of its training
    list: the two are taken from the test records of the loader, which the
    training list ends with.  The validation list is never longer than the
    test list unless [max_num_test] cuts them, and a positive [max_num_test]
    bounds the length of both. *)
Theorem load_rlhf_dataset_evaluates_on_training_records (data_root : pystr)
    (max_num_test : Z) (w w' : world) (tr va te : list inst) :
  load_rlhf_dataset data_root max_num_test w = (Ok (tr, va, te), w') →
  (∀ s, s ∈ va ++ te → s ∈ tr)
  ∧ va `sublist_of` tr ∧ te `sublist_of` tr
  ∧ (max_num_test ≤ 0 → ∃ val, tr = val ++ va ++ te ∧ (length va ≤ length te)%nat)
  ∧ (0 < max_num_test →
     (length va ≤ Z.to_nat max_num_test)%nat ∧ (length te ≤ Z.to_nat max_num_test)%nat).
Proof.
  unfold load_rlhf_dataset, mbind, M_bind.
  destruct (_download_shp data_root w) as [[[[tr0 va0] te0]|e] w1]; [|done].
  set (half := Nat.div (length te0) 2).
  assert (Hhalf : (2 * half ≤ length te0)%nat).
  { subst half. apply Nat.Div0.mul_div_le. }
  assert (Hsub1 : take half te0 `sublist_of` va0 ++ te0).
  { apply sublist_inserts_l. rewrite <- (take_drop half te0) at 2.
    by apply sublist_inserts_r. }
  assert (Hsub2 : drop half te0 `sublist_of` va0 ++ te0).
  { apply sublist_inserts_l. rewrite <- (take_drop half te0) at 2.
    by apply sublist_inserts_l. }
  assert (Hin : ∀ (a b : list inst) s, a `sublist_of` b → s ∈ a → s ∈ b).
  { intros a b s Hab. by apply sublist_subseteq. }
  case_bool_decide as Hm; unfold slice_to; intros [= <- <- <- <-].
  - assert (Hva : take (Z.to_nat max_num_test) (take half te0) `sublist_of` va0 ++ te0).
    { etrans; [apply sublist_take|done]. }
    assert (Hte : take (Z.to_nat max_num_test) (drop half te0) `sublist_of` va0 ++ te0).
    { etrans; [apply sublist_take|done]. }
    split; [|split; [done|split; [done|split; [lia|]]]].
    + intros s [Hs|Hs]%elem_of_app; [exact (Hin _ _ s Hva Hs)|exact (Hin _ _ s Hte Hs)].
    + intros _. rewrite !length_take. lia.
  - split; [|split; [done|split; [done|split; [|lia]]]].
    + intros s [Hs|Hs]%elem_of_app; [exact (Hin _ _ s Hsub1 Hs)|exact (Hin _ _ s Hsub2 Hs)].
    + intros _. exists va0. rewrite take_drop. split; [done|].
      rewrite length_take, length_drop. lia.
Qed.

(** ** The summary that [shp_dataset] prints *)

Lemma count_domains_lookup (client : pystr) (l : list (sample Z)) :
  Forall (λ s, is_Some (domain s)) l →
  ∃ d, count_domains client l = Ok d
       ∧ ∀ x, d !! x = match count_in client x l with
                       | O => None
                       | S k => Some (S k)
                       end.
Proof.
  intros Hl. destruct (count_domains_fold client l ∅ Hl) as (d & Hfold & Hd).
  exists d. split; [exact Hfold|]. intros x. rewrite Hd, lookup_empty.
  by destruct (count_in client x l).
Qed.

(** The lines of the summary for the client ids [ids] with the dictionaries
    [dicts]. *)
Definition summary_lines (ids : list nat) (dicts : list (gmap pystr nat)) : list printed :=
  '(client_id, d) ← zip ids dicts;
  [PrintStr (lit "Client " ++ str_nat client_id ++ lit ":"); PrintDict d].

Lemma for_M_print_client_lines (l : list (sample Z)) (ids : list nat) (w : world) :
  Forall (λ s, is_Some (domain s)) l →
  ∃ dicts,
    for_M ids (print_client l) w =
      (Ok tt, World (fs w) (stdout w ++ summary_lines ids dicts))
    ∧ Forall2 (λ client_id d,
                 count_domains (lit "Client_" ++ str_nat client_id) l = Ok d) ids dicts.
Proof.
  intros Hl. revert w. induction ids as [|i ids IH]; intros w; cbn [for_M].
  - exists []. split; [|constructor]. unfold summary_lines. cbn.
    rewrite app_nil_r. by destruct w.
  - destruct (count_domains_ok (lit "Client_" ++ str_nat i) l Hl) as [d Hd].
    assert (Hone : print_client l i w =
              (Ok tt, World (fs w)
                        (stdout w ++ [PrintStr (lit "Client " ++ str_nat i ++ lit ":");
                                      PrintDict d]))).
    { unfold print_client, mbind, M_bind, print, modify, lift.
      rewrite Hd. cbn [fs stdout]. by rewrite <- app_assoc. }
    unfold mbind, M_bind. rewrite Hone.
    edestruct IH as (dicts & -> & HF).
    exists (d :: dicts). split; [|by constructor].
    cbn [fs stdout]. unfold summary_lines. cbn [zip_with mbind list_bind].
    by rewrite <- !app_assoc.
Qed.

Lemma client_label_inj (i j : nat) :
  lit "Client_" ++ str_nat i = lit "Client_" ++ str_nat j → i = j.
Proof. intros H%app_inv_head. by apply str_nat_inj. Qed.

(** X26.  The diagnostic summary of [shp_dataset].  Whenever the two
    loaders and the merge succeed, the pipeline prints, after what the
    loaders have printed, a header and a dictionary for every client id from
    0 to [num_clients], both included: one id more than there are clients.
    The dictionary of an id holds, for every domain, the number of the kept
    training records with this client label and this domain.  When the
    splitter returns at most [num_clients] sublists, no record carries the
    label of the id [num_clients], and the last dictionary printed is
    empty. *)
Theorem shp_dataset_summary (data_root : pystr) (num_clients : nat) (w w1 w2 : world)
    (tr va te merged : list (sample Z)) (insts v t : list inst) :
  _download_shp_cmpr data_root w = (Ok (tr, va, te), w1) →
  _download_shp data_root w1 = (Ok (insts, v, t), w2) →
  for_each (assign_client (client_map num_clients insts)) tr = Ok merged →
  ∃ dicts,
    shp_dataset data_root num_clients w =
      (Ok (select_by_budget merged, va, te),
       World (fs w2) (stdout w2 ++ summary_lines (seq 0 (num_clients + 1)) dicts))
    ∧ length dicts = (num_clients + 1)%nat
    ∧ (∀ i d, dicts !! i = Some d →
         ∀ x k, d !! x = Some k ↔
                (0 < k)%nat
                ∧ k = count_in (lit "Client_" ++ str_nat i) x (select_by_budget merged))
    ∧ ((length (LDASplitter num_clients (code_categories insts)) ≤ num_clients)%nat →
       dicts !! num_clients = Some ∅).
Proof.
  intros H1 H2 H3.
  assert (Hdom : Forall (λ s, is_Some (domain s)) (select_by_budget merged)).
  { eapply select_by_budget_domain, assign_client_domain, H3. }
  destruct (for_M_print_client_lines (select_by_budget merged) (seq 0 (num_clients + 1))
              w2 Hdom) as (dicts & Hprint & HF).
  assert (Hlen : length dicts = (num_clients + 1)%nat).
  { apply Forall2_length in HF. by rewrite length_seq in HF. }
  assert (Hdict : ∀ i d, dicts !! i = Some d →
            ∀ x, d !! x = match count_in (lit "Client_" ++ str_nat i) x
                                  (select_by_budget merged) with
                          | O => None
                          | S k => Some (S k)
                          end).
  { intros i d Hi x.
    assert (Hseq : seq 0 (num_clients + 1) !! i = Some i).
    { apply lookup_lt_Some in Hi. apply lookup_seq_lt. lia. }
    pose proof (Forall2_lookup_lr _ _ _ _ _ _ HF Hseq Hi) as Hcount.
    destruct (count_domains_lookup (lit "Client_" ++ str_nat i) _ Hdom) as (d' & Hd' & Hx).
    cbv beta in Hcount. rewrite Hd' in Hcount. injection Hcount as <-. apply Hx. }
  exists dicts. split; [|split; [exact Hlen|split]].
  - rewrite shp_dataset_run, H1, H2, H3. unfold print_summary. by rewrite Hprint.
  - intros i d Hi x k. rewrite (Hdict i d Hi x).
    destruct (count_in _ x _) as [|n]; split; try done.
    + intros [? ?]. lia.
    + intros [= <-]. lia.
    + intros [_ ->]. done.
  - intros Hsplit.
    destruct (lookup_lt_is_Some_2 dicts num_clients) as [d Hd]; [lia|].
    rewrite Hd. f_equal. apply map_eq. intros x.
    rewrite (Hdict _ _ Hd x), lookup_empty.
    assert (Hzero : count_in (lit "Client_" ++ str_nat num_clients) x
                      (select_by_budget merged) = 0%nat); [|by rewrite Hzero].
    unfold count_in.
    destruct (filter _ (select_by_budget merged)) as [|s l0] eqn:Hf; [done|]. exfalso.
    assert (Hs : s ∈ filter (λ s, category s = lit "Client_" ++ str_nat num_clients
                                  ∧ domain s = Some x) (select_by_budget merged))
      by (rewrite Hf; by left).
    apply list_elem_of_filter in Hs as [[Hcat _] Hs].
    unfold select_by_budget in Hs. apply list_elem_of_filter in Hs as [_ Hs].
    apply for_each_Ok in H3.
    apply list_elem_of_lookup in Hs as [j Hj].
    destruct (Forall2_lookup_r _ _ _ _ _ H3 Hj) as (s0 & _ & Hassign).
    unfold assign_client in Hassign.
    destruct (client_map num_clients insts !! instruction s0) as [idx|] eqn:Hidx; [|done].
    injection Hassign as <-. cbn [category relabel] in Hcat.
    apply client_label_inj in Hcat. subst idx.
    unfold client_map in Hidx.
    pose proof (build_inst_client_map_lookup
                  (LDASplitter num_clients (code_categories insts)) (instruction s0))
      as Hlook.
    rewrite Hidx in Hlook. destruct Hlook as [(sub & Hsub & _) _].
    apply lookup_lt_Some in Hsub. lia.
Qed.

(** ** A cache built for another number of clients *)

Lemma build_comparison_Ok_inv (data_root : pystr) (n : nat) (w w' : world)
    (ds : pyobj * pyobj * pyobj) :
  build_comparison data_root n w = (Ok ds, w') →
  let fps := comparison_paths data_root n in
  cached_at fps ds w'
  ∧ ∀ p, p ∉ paths_list fps → fs w' !! p = fs (shp_dataset data_root n w).2 !! p.
Proof.
  intros Hrun.
  pose proof (comparison_paths_distinct data_root n) as (H12 & H13 & H23).
  cbv zeta in H12, H13, H23 |- *.
  revert Hrun. unfold build_comparison. unfold comparison_paths in H12, H13, H23 |- *.
  cbn [fst snd] in H12, H13, H23 |- *.
  unfold mbind at 1. unfold M_bind at 1.
  destruct (shp_dataset data_root n w) as [[[[tr va] te]|e] w1]; [|done].
  unfold mbind, M_bind, lift.
  destruct (LLMComparisonDataset tr shp) as [dtr|e]; [|done].
  destruct (LLMComparisonDataset va shp) as [dva|e]; [|done].
  destruct (LLMComparisonDataset te shp) as [dte|e]; [|done].
  cbn [write_file modify mret M_ret fs stdout]. intros [= <- <-]. split.
  - exact (cached_at_dumped (_, _, _)
             (ObjComparison dtr, ObjComparison dva, ObjComparison dte)
             (fs w1) (stdout w1) H12 H13 H23).
  - intros p Hp. cbn [snd fs]. by apply lookup_insert3_ne.
Qed.

(** X27.  The training pickle carries the number of clients in its name and
    the validation and test pickles do not.  So after
    [load_comparison_dataset] has built its cache for one number of
    clients, the cache is complete for this number, but a call for another
    number of clients, whose training pickle has never been written, still
    finds its three files not all present, although the validation and the
    test file are there: it runs the build again and writes these two files
    again. *)
Theorem cache_of_another_client_count (data_root : pystr) (cfg cfg' : config) (m : Z)
    (w w' : world) (ds : pyobj * pyobj * pyobj) :
  federate_client_num cfg ≠ federate_client_num cfg' →
  all_exist (comparison_paths data_root (federate_client_num cfg)) w = (Ok false, w) →
  fs w !! (comparison_paths data_root (federate_client_num cfg')).1.1 = None →
  load_comparison_dataset data_root cfg m w = (Ok ds, w') →
  all_exist (comparison_paths data_root (federate_client_num cfg)) w' = (Ok true, w')
  ∧ all_exist (comparison_paths data_root (federate_client_num cfg')) w' = (Ok false, w')
  ∧ is_Some (fs w' !! (comparison_paths data_root (federate_client_num cfg')).1.2)
  ∧ is_Some (fs w' !! (comparison_paths data_root (federate_client_num cfg')).2).
Proof.
  intros Hne Hmiss Hnone Hrun.
  rewrite load_comparison_dataset_get_or_build, (get_or_build_miss _ _ _ _ _ Hmiss) in Hrun.
  destruct (build_comparison data_root (federate_client_num cfg) w) as [[ds0|e] w0] eqn:Hb;
    [|done].
  injection Hrun as Hshrink <-.
  destruct (build_comparison_Ok_inv _ _ _ _ _ Hb) as [(Hc1 & Hc2 & Hc3) Hframe].
  assert (Htrain : fs w0 !! (comparison_paths data_root (federate_client_num cfg')).1.1
                   = None).
  { rewrite Hframe.
    - rewrite shp_dataset_fs; [done| |];
        apply (jsonl_not_pickle data_root);
        apply (pickle_paths_last data_root (federate_client_num cfg'));
        apply elem_of_app; left; unfold paths_list; by left.
    - unfold paths_list, comparison_paths. cbn [fst snd].
      rewrite !not_elem_of_cons. repeat split; [| | |apply not_elem_of_nil].
      + intros H. apply os_path_join_inj in H; [|by apply startswith_sep_app].
        apply train_key_inj, eq_sym in H. done.
      + by apply cache_paths_distinct.
      + by apply cache_paths_distinct. }
  unfold comparison_paths in Hc1, Hc2, Hc3, Htrain |- *.
  cbn [fst snd] in Hc1, Hc2, Hc3, Htrain |- *.
  split; [|split; [|split]].
  - apply all_exist_true. by rewrite Hc1, Hc2, Hc3.
  - unfold all_exist, os_path_exists, gets, mbind, M_bind, mret, M_ret.
    rewrite Htrain. rewrite (bool_decide_eq_false_2 (is_Some None)) by (by intros [? ?]).
    done.
  - by rewrite Hc2.
  - by rewrite Hc3.
Qed.

(** ** [load_shp_best_dataset] *)

(** [ds.win_dataset] on an unpickled object. *)
Definition get_win_dataset (o : pyobj) : res pyobj :=
  match o with
  | ObjComparison d => Ok (ObjLLM (win_dataset d))
  | ObjLLM _ => Err (AttributeError "win_dataset")
  end.

Definition load_shp_best_dataset (data_root : pystr) (cfg : config) (max_num_test : Z)
  : M world (pyobj * pyobj * pyobj) :=
  '(train_dataset, val_dataset, test_dataset) ←
    load_comparison_dataset data_root cfg max_num_test;
  train_win ← lift (get_win_dataset train_dataset);
  val_win ← lift (get_win_dataset val_dataset);
  test_win ← lift (get_win_dataset test_dataset);
  mret (train_win, val_win, test_win).

Lemma load_shp_best_dataset_hit (data_root : pystr) (cfg : config) (m : Z) (w : world)
    (ds : pyobj * pyobj * pyobj) :
  cached_at (comparison_paths data_root (federate_client_num cfg)) ds w →
  load_shp_best_dataset data_root cfg m w =
  match shrink_val_test shrink_comparison m ds with
  | Ok (o1, o2, o3) =>
      (o1' ← get_win_dataset o1; o2' ← get_win_dataset o2; o3' ← get_win_dataset o3;
       Ok (o1', o2', o3'), w)
  | Err e => (Err e, w)
  end.
Proof.
  intros Hc. unfold load_shp_best_dataset.
  unfold mbind at 1. unfold M_bind at 1.
  rewrite load_comparison_dataset_get_or_build, (get_or_build_hit _ _ _ _ _ _ Hc).
  destruct (shrink_val_test shrink_comparison m ds) as [[[o1 o2] o3]|e]; [|done].
  unfold mbind, M_bind, lift, res_bind, mret, M_ret.
  destruct (get_win_dataset o1); [|done].
  destruct (get_win_dataset o2); [|done].
  by destruct (get_win_dataset o3).
Qed.

(** X11.  [load_shp_best_dataset] returns the winning sub-datasets of what
    [load_comparison_dataset] returns, the validation and the test one cut
    to [max_num_test] entries when that is positive, and shares the cache of
    [load_comparison_dataset]: after a build the three files hold the whole
    comparison datasets, with their losing sub-datasets and not cut, and a
    call that finds them leaves the world as it is.  When one of the three
    files holds a dataset that is no comparison dataset, the call raises the
    [AttributeError] of the missing [win_dataset] and changes nothing. *)
Theorem load_shp_best_dataset_wins_only (data_root : pystr) (cfg : config) (m : Z) :
  let n := federate_client_num cfg in
  let cut (d : llm_dataset) : llm_dataset :=
    if bool_decide (0 < m)
    then {| input_ids := take (Z.to_nat m) (input_ids d); llm_attrs := llm_attrs d |}
    else d in
  (∀ w dtr dva dte,
     cached_at (comparison_paths data_root n)
       (ObjComparison dtr, ObjComparison dva, ObjComparison dte) w →
     load_shp_best_dataset data_root cfg m w =
       (Ok (ObjLLM (win_dataset dtr), ObjLLM (cut (win_dataset dva)),
            ObjLLM (cut (win_dataset dte))), w))
  ∧ (∀ w w1 tr va te dtr dva dte,
     all_exist (comparison_paths data_root n) w = (Ok false, w) →
     shp_dataset data_root n w = (Ok (tr, va, te), w1) →
     LLMComparisonDataset tr shp = Ok dtr →
     LLMComparisonDataset va shp = Ok dva →
     LLMComparisonDataset te shp = Ok dte →
     ∃ w2,
       load_shp_best_dataset data_root cfg m w =
         (Ok (ObjLLM (win_dataset dtr), ObjLLM (cut (win_dataset dva)),
              ObjLLM (cut (win_dataset dte))), w2)
       ∧ cached_at (comparison_paths data_root n)
           (ObjComparison dtr, ObjComparison dva, ObjComparison dte) w2)
  ∧ (∀ w o1 o2 o3 d,
     cached_at (comparison_paths data_root n) (o1, o2, o3) w →
     o1 = ObjLLM d ∨ o2 = ObjLLM d ∨ o3 = ObjLLM d →
     load_shp_best_dataset data_root cfg m w = (Err (AttributeError "win_dataset"), w)).
Proof.
  intros n cut. subst n. split; [|split].
  - intros w dtr dva dte Hc. rewrite (load_shp_best_dataset_hit _ _ _ _ _ Hc).
    unfold shrink_val_test, cut. by case_bool_decide.
  - intros w w1 tr va te dtr dva dte Hmiss Hshp Htr Hva Hte.
    destruct (comparison_paths_distinct data_root (federate_client_num cfg))
      as (H12 & H13 & H23).
    eexists. unfold load_shp_best_dataset.
    unfold mbind at 1. unfold M_bind at 1.
    rewrite load_comparison_dataset_get_or_build, (get_or_build_miss _ _ _ _ _ Hmiss).
    rewrite (build_comparison_run _ _ _ _ _ _ _ _ _ _ Hshp Htr Hva Hte).
    split.
    + unfold shrink_val_test, cut. case_bool_decide; reflexivity.
    + exact (cached_at_dumped (comparison_paths data_root (federate_client_num cfg))
               (ObjComparison dtr, ObjComparison dva, ObjComparison dte)
               (fs w1) (stdout w1) H12 H13 H23).
  - intros w o1 o2 o3 d Hc Hobj. rewrite (load_shp_best_dataset_hit _ _ _ _ _ Hc).
    unfold shrink_val_test.
    destruct Hobj as [->|[->| ->]]; case_bool_decide;
      repeat match goal with o : pyobj |- _ => destruct o end; reflexivity.
Qed.

(** ** [load_alpacafarm_human_for_eval] *)

(** One row of the human-preference split of AlpacaFarm. *)
Record alpaca_row := AlpacaRow {
  a_instruction : pystr;
  a_input : pystr;
  output_1 : pystr;
  output_2 : pystr;
  preference : Z
}.

(** The record made of a row: a [dict] with the keys [instruction],
    [output_A], [output_B] and [choice], and without [category]. *)
Record eval_record := EvalRecord {
  e_instruction : pystr;
  e_output_A : pystr;
  e_output_B : pystr;
  e_choice : pystr
}.

(** [datasets.load_dataset("tatsu-lab/alpaca_farm",
    "alpaca_human_preference")["preference"]], and the constructor
    [LLMDataset] on records of this shape. *)
Variable load_alpaca_farm : res (list alpaca_row).
Variable LLMDataset_eval : list eval_record → prompt_key → res llm_dataset.

(** [{1: 'A', 2: 'B'}[preference]]. *)
Definition preference_letter (p : Z) : res pystr :=
  if bool_decide (p = 1) then Ok (lit "A")
  else if bool_decide (p = 2) then Ok (lit "B")
  else Err (KeyError (str_Z p)).

Definition newline : N := 10.

(** The body of the loop over the rows. *)
Definition alpaca_record (row : alpaca_row) : res eval_record :=
  c ← preference_letter (preference row);
  let record := EvalRecord (a_instruction row) (output_1 row) (output_2 row) c in
  if bool_decide (a_input row ≠ []) then
    Ok (EvalRecord (e_instruction record ++ [newline; newline] ++ a_input row)
                   (e_output_A record) (e_output_B record) (e_choice record))
  else Ok record.

Definition alpaca_path (data_root : pystr) : pystr :=
  os_path_join data_root
    (os_path_basename name_or_path ++ lit "_alpacafarm_human_choice.pickle").

Definition load_alpacafarm_human_for_eval (data_root : pystr) : M world pyobj :=
  let path := alpaca_path data_root in
  cached ← os_path_exists path;
  if (cached : bool) then pickle_load path
  else
    ds ← lift load_alpaca_farm;
    list_data_dict ← lift (for_each alpaca_record ds);
    test_dataset ← lift (LLMDataset_eval list_data_dict shp_cmp);
    _ ← write_file path (Pickle (ObjLLM test_dataset));
    mret (ObjLLM test_dataset).

(** The record of a row whose preference is 1 or 2. *)
Definition eval_record_of (row : alpaca_row) : eval_record :=
  {| e_instruction :=
       match a_input row with
       | [] => a_instruction row
       | _ :: _ => a_instruction row ++ [newline; newline] ++ a_input row
       end;
     e_output_A := output_1 row;
     e_output_B := output_2 row;
     e_choice := if bool_decide (preference row = 1) then lit "A" else lit "B" |}.

Lemma alpaca_record_Ok (row : alpaca_row) :
  preference row = 1 ∨ preference row = 2 →
  alpaca_record row = Ok (eval_record_of row).
Proof.
  intros Hp. unfold alpaca_record, eval_record_of, preference_letter.
  destruct Hp as [-> | ->]; cbn [bool_decide decide_rel mbind res_bind];
    destruct (a_input row); reflexivity.
Qed.

Lemma alpaca_record_Err (row : alpaca_row) :
  preference row ≠ 1 → preference row ≠ 2 →
  alpaca_record row = Err (KeyError (str_Z (preference row))).
Proof.
  intros H1 H2. unfold alpaca_record, preference_letter.
  rewrite (bool_decide_eq_false_2 _ H1), (bool_decide_eq_false_2 _ H2). reflexivity.
Qed.

Lemma alpacafarm_miss (data_root : pystr) (w : world) :
  fs w !! alpaca_path data_root = None →
  load_alpacafarm_human_for_eval data_root w =
  match load_alpaca_farm with
  | Err e => (Err e, w)
  | Ok ds =>
      match for_each alpaca_record ds with
      | Err e => (Err e, w)
      | Ok list_data_dict =>
          match LLMDataset_eval list_data_dict shp_cmp with
          | Err e => (Err e, w)
          | Ok d => (Ok (ObjLLM d),
                     World (<[alpaca_path data_root := Pickle (ObjLLM d)]> (fs w))
                           (stdout w))
          end
      end
  end.
Proof.
  intros Hnone. unfold load_alpacafarm_human_for_eval, os_path_exists, gets.
  unfold mbind at 1. unfold M_bind at 1. rewrite Hnone.
  rewrite bool_decide_eq_false_2 by (by intros [? ?]).
  unfold mbind, M_bind, lift.
  destruct load_alpaca_farm as [ds|e]; [|done].
  destruct (for_each alpaca_record ds) as [l|e]; [|done].
  by destruct (LLMDataset_eval l shp_cmp).
Qed.

(** X12.  [load_alpacafarm_human_for_eval] maps the preference of a row
    through a two-entry dictionary and does not check it first: when the
    pickle is absent, the first row whose preference is neither 1 nor 2
    makes the call fail with the [KeyError] of this lookup, carrying the
    preference, whatever the rows after it.  Nothing has been written by
    then, so the world is as before the call. *)
Theorem alpacafarm_unknown_preference (data_root : pystr) (w : world)
    (pre post : list alpaca_row) (r : alpaca_row) :
  fs w !! alpaca_path data_root = None →
  load_alpaca_farm = Ok (pre ++ r :: post) →
  Forall (λ row, preference row = 1 ∨ preference row = 2) pre →
  preference r ≠ 1 → preference r ≠ 2 →
  load_alpacafarm_human_for_eval data_root w =
    (Err (KeyError (str_Z (preference r))), w).
Proof.
  intros Hnone Hload Hpre H1 H2. rewrite (alpacafarm_miss _ _ Hnone), Hload.
  rewrite (for_each_Err _ pre post r (KeyError (str_Z (preference r)))); [done| |].
  - intros p Hp. exists (eval_record_of p). apply alpaca_record_Ok.
    rewrite Forall_forall in Hpre. by apply Hpre.
  - by apply alpaca_record_Err.
Qed.

(** X13.  When the pickle is absent and every preference is 1 or 2,
    [load_alpacafarm_human_for_eval] makes one record of every row, in
    their order: the instruction followed, if the input of the row is not
    empty, by two newlines and the input; the two outputs; and the letter
    ["A"] for the preference 1, ["B"] for 2, without the leading space that
    [load_shp_cmp_dataset_by_choice] puts before its letters.  The dataset
    built from these records is returned and dumped to the one pickle file,
    and a second call returns it from there and leaves the world as it
    is. *)
Theorem alpacafarm_builds_once (data_root : pystr) (w : world)
    (rows : list alpaca_row) (d : llm_dataset) :
  fs w !! alpaca_path data_root = None →
  load_alpaca_farm = Ok rows →
  Forall (λ row, preference row = 1 ∨ preference row = 2) rows →
  LLMDataset_eval (eval_record_of <$> rows) shp_cmp = Ok d →
  let w' := World (<[alpaca_path data_root := Pickle (ObjLLM d)]> (fs w)) (stdout w) in
  load_alpacafarm_human_for_eval data_root w = (Ok (ObjLLM d), w')
  ∧ load_alpacafarm_human_for_eval data_root w' = (Ok (ObjLLM d), w')
  ∧ Forall2 (λ row record,
       (a_input row = [] → e_instruction record = a_instruction row)
       ∧ (a_input row ≠ [] →
          e_instruction record = a_instruction row ++ [newline; newline] ++ a_input row)
       ∧ e_output_A record = output_1 row
       ∧ e_output_B record = output_2 row
       ∧ (preference row = 1 → e_choice record = lit "A")
       ∧ (preference row = 2 → e_choice record = lit "B")
       ∧ e_choice record ≠ lit " A" ∧ e_choice record ≠ lit " B")
      rows (eval_record_of <$> rows).
Proof.
  intros Hnone Hload Hrows Hd w'. split; [|split].
  - rewrite (alpacafarm_miss _ _ Hnone), Hload.
    rewrite (for_each_fmap _ eval_record_of rows).
    2:{ eapply Forall_impl; [exact Hrows|]. intros row. apply alpaca_record_Ok. }
    by rewrite Hd.
  - unfold load_alpacafarm_human_for_eval, os_path_exists, gets, pickle_load.
    unfold mbind, M_bind. subst w'. cbn [fs]. rewrite lookup_insert_eq.
    rewrite bool_decide_eq_true_2 by (by eexists).
    cbn [fs]. by rewrite lookup_insert_eq.
  - apply Forall2_fmap_r, Forall_Forall2_diag.
    eapply Forall_impl; [exact Hrows|]. intros row Hp.
    unfold eval_record_of. cbn [e_instruction e_output_A e_output_B e_choice].
    split; [by intros ->|]. split; [by destruct (a_input row)|].
    do 2 (split; [reflexivity|]).
    destruct Hp as [Hp|Hp]; rewrite Hp; cbn [bool_decide decide_rel];
      (split; [done|split; [done|split; by vm_compute]]).
Qed.

End Pipeline.

(** ** The letter-choice shaper on dict objects

    [shape_by_choice] works on the values of the records.  The source works
    on [dict] objects that its lists share and that its loops update in
    place: the exchanged list is a [copy.deepcopy] of the training list, and
    the three lists that the letter loop walks hold references.  This part
    models the same lines on a store of objects and shows that, on lists
    that share no object (as the lists of [shp_dataset], whose records are
    all created by the loaders), the store ends with the values that
    [shape_by_choice] computes. *)

(** The value under the key [choice]: an [int] before the letter loop, a
    [str] after it. *)
Inductive value := VInt (z : Z) | VStr (s : pystr).

Definition int_record (s : sample Z) : sample value :=
  Sample (instruction s) (output_A s) (output_B s) (VInt (choice s)) (category s) (domain s).

Definition str_record (s : sample pystr) : sample value :=
  Sample (instruction s) (output_A s) (output_B s) (VStr (choice s)) (category s) (domain s).

(** The store of the dict objects: a reference is a position, and a new
    object is appended. *)
Abbreviation store := (list (sample value)).

(** No reference dangles in Python; the second case makes the function
    total. *)
Definition deref (r : nat) : M store (sample value) := λ h,
  match h !! r with
  | Some o => (Ok o, h)
  | None => (Err (Raise "ReferenceError" []), h)
  end.

Definition assign (r : nat) (o : sample value) : M store unit :=
  modify (λ h, <[r := o]> h).

Definition new_dict (o : sample value) : M store nat := λ h, (Ok (length h), h ++ [o]).

(** [copy.deepcopy] of a list of dicts: every object is copied once, its
    copy being remembered in [memo]; the strings and integers it holds are
    immutable. *)
Fixpoint deepcopy (memo : gmap nat nat) (l : list nat) : M store (list nat) :=
  match l with
  | [] => mret []
  | r :: l' =>
      match memo !! r with
      | Some r' => rs ← deepcopy memo l'; mret (r' :: rs)
      | None =>
          o ← deref r;
          r' ← new_dict o;
          rs ← deepcopy (<[r := r']> memo) l';
          mret (r' :: rs)
      end
  end.

(** The body of the loop over [exchange_list_train_dict]. *)
Definition exchange_object (r : nat) : M store unit :=
  o ← deref r;
  _ ← assign r (Sample (instruction o) (output_B o) (output_A o) (choice o)
                  (category o) (domain o));
  o ← deref r;
  match choice o with
  | VInt z =>
      assign r (Sample (instruction o) (output_A o) (output_B o) (VInt (1 - z))
                  (category o) (domain o))
  | VStr _ => raise TypeError_int_minus_str
  end.

(** The body of the letter loop. *)
Definition letter_object (r : nat) : M store unit :=
  o ← deref r;
  match choice o with
  | VInt z =>
      c ← lift (chr (z + ord_A));
      assign r (Sample (instruction o) (output_A o) (output_B o) (VStr (lit " " ++ [c]))
                  (category o) (domain o))
  | VStr _ => raise TypeError_str_plus_int
  end.

(** Lines 313-325 on references. *)
Definition shape_objects (lists : list nat * list nat * list nat)
  : M store (list nat * list nat * list nat) :=
  let '(list_train_dict, list_val_dict, list_test_dict) := lists in
  exchange_list_train_dict ← deepcopy ∅ list_train_dict;
  _ ← for_M exchange_list_train_dict exchange_object;
  let list_train_dict := list_train_dict ++ exchange_list_train_dict in
  _ ← for_M list_train_dict letter_object;
  _ ← for_M list_test_dict letter_object;
  _ ← for_M list_val_dict letter_object;
  mret (list_train_dict, list_val_dict, list_test_dict).

(** The objects at the references [refs] are [objs]. *)
Definition holds (h : store) (refs : list nat) (objs : list (sample value)) : Prop :=
  Forall2 (λ r o, h !! r = Some o) refs objs.

Lemma holds_frame (h h' : store) (refs : list nat) (objs : list (sample value)) :
  (∀ r, r ∈ refs → h' !! r = h !! r) → holds h refs objs → holds h' refs objs.
Proof.
  intros Hsame H. induction H as [|r o refs objs Hr _ IH]; constructor.
  - rewrite Hsame; [done|by left].
  - apply IH. intros r' Hr'. apply Hsame. by right.
Qed.

Lemma holds_lt (h : store) (refs : list nat) (objs : list (sample value)) (r : nat) :
  holds h refs objs → r ∈ refs → (r < length h)%nat.
Proof.
  intros H Hr. induction H as [|r' o refs objs Hr' _ IH].
  - by apply elem_of_nil in Hr.
  - apply elem_of_cons in Hr as [->|Hr]; [by eapply lookup_lt_Some|by apply IH].
Qed.

Lemma holds_app (h : store) (refs1 refs2 : list nat) (objs1 objs2 : list (sample value)) :
  holds h refs1 objs1 → holds h refs2 objs2 → holds h (refs1 ++ refs2) (objs1 ++ objs2).
Proof. apply Forall2_app. Qed.

Lemma holds_fresh (h : store) (objs : list (sample value)) :
  holds (h ++ objs) (seq (length h) (length objs)) objs.
Proof.
  revert h. induction objs as [|o objs IH]; intros h; [constructor|].
  simpl. constructor.
  - by rewrite list_lookup_middle.
  - specialize (IH (h ++ [o])). rewrite length_app, <- app_assoc in IH. simpl in IH.
    by rewrite Nat.add_1_r in IH.
Qed.

Lemma deepcopy_fresh (l : list nat) :
  ∀ (memo : gmap nat nat) (h : store) (objs : list (sample value)),
    NoDup l → (∀ r, r ∈ l → memo !! r = None) → holds h l objs →
    deepcopy memo l h = (Ok (seq (length h) (length l)), h ++ objs).
Proof.
  induction l as [|r l IH]; intros memo h objs Hnd Hmemo Hh.
  - inversion Hh; subst. simpl. by rewrite app_nil_r.
  - inversion Hh as [|? o ? objs' Hr Hl]; subst.
    apply NoDup_cons in Hnd as [Hrl Hnd].
    simpl. rewrite Hmemo by (by left).
    unfold mbind, M_bind, deref, new_dict, mret, M_ret. rewrite Hr.
    rewrite (IH _ (h ++ [o]) objs').
    + rewrite length_app, <- app_assoc. simpl. by rewrite Nat.add_1_r.
    + done.
    + intros r' Hr'. rewrite lookup_insert_ne; [apply Hmemo; by right|].
      intros ->. done.
    + eapply Forall2_impl; [exact Hl|]. intros r' o' Hr'. simpl in *.
      by apply lookup_app_l_Some.
Qed.

(** A loop whose body replaces the object at its reference by [g] of it
    maps [g] over the objects of a list of distinct references, and leaves
    the other objects alone. *)
Lemma for_M_pointwise (body : nat → M store unit) (g : sample value → res (sample value))
    (l : list nat) :
  (∀ r h o o', h !! r = Some o → g o = Ok o' → body r h = (Ok tt, <[r := o']> h)) →
  ∀ (h : store) (objs objs' : list (sample value)),
    NoDup l → holds h l objs → Forall2 (λ o o', g o = Ok o') objs objs' →
    ∃ h', for_M l body h = (Ok tt, h')
          ∧ length h' = length h
          ∧ holds h' l objs'
          ∧ ∀ r, r ∉ l → h' !! r = h !! r.
Proof.
  intros Hbody. induction l as [|r l IH]; intros h objs objs' Hnd Hh Hg.
  - inversion Hh; subst. inversion Hg; subst. exists h. repeat split; constructor.
  - inversion Hh as [|? o ? objs1 Hr Hl]; subst.
    inversion Hg as [|? o' ? objs1' Ho Hg1]; subst.
    apply NoDup_cons in Hnd as [Hrl Hnd].
    destruct (IH (<[r := o']> h) objs1 objs1' Hnd) as (h' & Hrun & Hlen & Hh' & Hframe).
    { eapply holds_frame; [|exact Hl]. intros r' Hr'.
      apply list_lookup_insert_ne. intros ->. done. }
    { done. }
    exists h'. split; [|split; [|split]].
    + simpl. unfold mbind, M_bind. by rewrite (Hbody r h o o' Hr Ho).
    + by rewrite Hlen, length_insert.
    + constructor; [|done]. rewrite Hframe by done.
      apply list_lookup_insert_eq. by eapply lookup_lt_Some.
    + intros r' Hr'. apply not_elem_of_cons in Hr' as [Hne Hr'].
      rewrite Hframe by done. by apply list_lookup_insert_ne.
Qed.

(** What the two loop bodies make of an object. *)
Definition exchanged (o : sample value) : res (sample value) :=
  match choice o with
  | VInt z =>
      Ok (Sample (instruction o) (output_B o) (output_A o) (VInt (1 - z))
            (category o) (domain o))
  | VStr _ => Err TypeError_int_minus_str
  end.

Definition lettered (o : sample value) : res (sample value) :=
  match choice o with
  | VInt z =>
      c ← chr (z + ord_A);
      Ok (Sample (instruction o) (output_A o) (output_B o) (VStr (lit " " ++ [c]))
            (category o) (domain o))
  | VStr _ => Err TypeError_str_plus_int
  end.

Lemma exchange_object_run (r : nat) (h : store) (o o' : sample value) :
  h !! r = Some o → exchanged o = Ok o' →
  exchange_object r h = (Ok tt, <[r := o']> h).
Proof.
  intros Hr Ho. unfold exchanged in Ho.
  unfold exchange_object, mbind, M_bind, deref, assign, modify. rewrite Hr.
  rewrite list_lookup_insert_eq by (by eapply lookup_lt_Some). cbn [choice].
  destruct (choice o) as [z|?]; [|done]. injection Ho as <-.
  cbn [instruction output_A output_B category domain].
  by rewrite list_insert_insert_eq.
Qed.

Lemma letter_object_run (r : nat) (h : store) (o o' : sample value) :
  h !! r = Some o → lettered o = Ok o' →
  letter_object r h = (Ok tt, <[r := o']> h).
Proof.
  intros Hr Ho. unfold lettered in Ho.
  unfold letter_object, mbind at 1, M_bind at 1, deref. rewrite Hr.
  destruct (choice o) as [z|?]; [|done].
  unfold mbind, M_bind, lift, assign, modify.
  destruct (chr (z + ord_A)) as [c|e]; [|done]. by injection Ho as <-.
Qed.

Lemma for_each_code_point (l : list (sample Z)) (l' : list (sample pystr)) :
  for_each choice_to_letter l = Ok l' →
  l' = with_letter <$> l
  ∧ Forall2 (λ o o', lettered o = Ok o') (int_record <$> l) (str_record <$> l').
Proof.
  intros H%for_each_Ok. induction H as [|s s' l l' Hs _ [-> IH]]; [by split|].
  destruct (choice_to_letter_cases s) as [[H Hcp]|[H _]]; [|congruence].
  assert (s' = with_letter s) as -> by congruence.
  split; [done|]. simpl. constructor; [|done].
  unfold lettered, chr. simpl. by rewrite bool_decide_eq_true_2.
Qed.

(** On lists of references that share no object and hold records with
    integer choices, the lines 313-325 end with a store in which the
    references of the three lists hold the records that [shape_by_choice]
    computes from the values; the exchanged copies are new objects. *)
Lemma shape_objects_refines (h : store) (tr va te : list nat)
    (trv vav tev : list (sample Z)) (trs vas tes : list (sample pystr)) :
  NoDup (tr ++ va ++ te) →
  holds h tr (int_record <$> trv) →
  holds h va (int_record <$> vav) →
  holds h te (int_record <$> tev) →
  shape_by_choice (trv, vav, tev) = Ok (trs, vas, tes) →
  ∃ h',
    shape_objects (tr, va, te) h = (Ok (tr ++ seq (length h) (length tr), va, te), h')
    ∧ holds h' (tr ++ seq (length h) (length tr)) (str_record <$> trs)
    ∧ holds h' va (str_record <$> vas)
    ∧ holds h' te (str_record <$> tes).
Proof.
  intros Hnd Htr Hva Hte Hshape.
  apply NoDup_app in Hnd as (Hnd_tr & Htr_out & Hnd).
  apply NoDup_app in Hnd as (Hnd_va & Hva_te & Hnd_te).
  assert (Hlen : length (int_record <$> trv) = length tr).
  { rewrite <- (Forall2_length _ _ _ Htr). done. }
  set (ex := seq (length h) (length tr)).
  assert (Hex_ge : ∀ r, r ∈ ex → (length h ≤ r)%nat).
  { intros r Hr. apply elem_of_seq in Hr. lia. }
  assert (Hlt : ∀ r, r ∈ tr ++ va ++ te → (r < length h)%nat).
  { intros r. rewrite !elem_of_app.
    intros [Hr|[Hr|Hr]];
      [exact (holds_lt _ _ _ _ Htr Hr) | exact (holds_lt _ _ _ _ Hva Hr)
       | exact (holds_lt _ _ _ _ Hte Hr)]. }
  (* the three loops of the value model *)
  unfold shape_by_choice in Hshape.
  destruct (for_each choice_to_letter (trv ++ _)) as [l1|e] eqn:H1; [|done].
  destruct (for_each choice_to_letter tev) as [l2|e] eqn:H2; [|done].
  destruct (for_each choice_to_letter vav) as [l3|e] eqn:H3; [|done].
  simpl in Hshape. injection Hshape as <- <- <-.
  apply for_each_code_point in H1 as [_ H1], H2 as [_ H2], H3 as [_ H3].
  (* the deep copy *)
  pose proof (deepcopy_fresh tr ∅ h _ Hnd_tr (λ r _, lookup_empty r) Htr) as Hcopy.
  set (h1 := h ++ (int_record <$> trv)) in Hcopy.
  assert (Hsame1 : ∀ r, (r < length h)%nat → h1 !! r = h !! r).
  { intros r Hr. unfold h1. by rewrite lookup_app_l. }
  (* the exchange loop *)
  destruct (for_M_pointwise exchange_object exchanged ex exchange_object_run h1
              (int_record <$> trv) (int_record <$> (exchange <$> trv)))
    as (h2 & Hrun2 & Hlen2 & Hh2 & Hframe2).
  { apply NoDup_seq. }
  { unfold ex. rewrite <- Hlen. apply holds_fresh. }
  { rewrite <- list_fmap_compose. apply Forall2_fmap, Forall_Forall2_diag, Forall_true.
    done. }
  assert (Hsame2 : ∀ r, (r < length h)%nat → h2 !! r = h !! r).
  { intros r Hr. rewrite Hframe2; [by apply Hsame1|]. intros Hin%Hex_ge. lia. }
  (* the letter loop over the training list and its copy *)
  destruct (for_M_pointwise letter_object lettered (tr ++ ex) letter_object_run h2
              (int_record <$> trv ++ (exchange <$> trv)) (str_record <$> l1))
    as (h3 & Hrun3 & Hlen3 & Hh3 & Hframe3).
  { apply NoDup_app. split; [done|]. split; [|apply NoDup_seq].
    intros r Hr Hin%Hex_ge. assert (r < length h)%nat; [|lia].
    apply Hlt, elem_of_app. by left. }
  { rewrite fmap_app. apply holds_app; [|done].
    eapply holds_frame; [|exact Htr]. intros r Hr. apply Hsame2, Hlt, elem_of_app. by left. }
  { done. }
  (* the letter loop over the test list *)
  assert (Hout_te : ∀ r, r ∈ te → r ∉ tr ++ ex).
  { intros r Hr. rewrite elem_of_app. intros [Hin|Hin%Hex_ge].
    - apply (Htr_out r Hin). apply elem_of_app. by right.
    - assert (r < length h)%nat; [|lia]. apply Hlt. rewrite !elem_of_app. auto. }
  assert (Hout_va : ∀ r, r ∈ va → (r ∉ tr ++ ex) ∧ (r ∉ te)).
  { intros r Hr. split; [|by apply Hva_te]. rewrite elem_of_app.
    intros [Hin|Hin%Hex_ge].
    - apply (Htr_out r Hin). apply elem_of_app. by left.
    - assert (r < length h)%nat; [|lia]. apply Hlt. rewrite !elem_of_app. auto. }
  destruct (for_M_pointwise letter_object lettered te letter_object_run h3
              (int_record <$> tev) (str_record <$> l2))
    as (h4 & Hrun4 & Hlen4 & Hh4 & Hframe4); [done| |done|].
  { eapply holds_frame; [|exact Hte]. intros r Hr.
    rewrite Hframe3 by (by apply Hout_te). apply Hsame2, Hlt. rewrite !elem_of_app. auto. }
  (* the letter loop over the validation list *)
  destruct (for_M_pointwise letter_object lettered va letter_object_run h4
              (int_record <$> vav) (str_record <$> l3))
    as (h5 & Hrun5 & Hlen5 & Hh5 & Hframe5); [done| |done|].
  { eapply holds_frame; [|exact Hva]. intros r Hr. destruct (Hout_va r Hr) as [Ho1 Ho2].
    rewrite Hframe4, Hframe3 by done. apply Hsame2, Hlt. rewrite !elem_of_app. auto. }
  exists h5. split; [|split; [|split]].
  - unfold shape_objects. unfold mbind at 1, M_bind at 1. rewrite Hcopy. fold ex.
    unfold mbind at 1, M_bind at 1. rewrite Hrun2.
    unfold mbind at 1, M_bind at 1. rewrite Hrun3.
    unfold mbind at 1, M_bind at 1. rewrite Hrun4.
    unfold mbind at 1, M_bind at 1. rewrite Hrun5. reflexivity.
  - eapply holds_frame; [|exact Hh3]. intros r Hr.
    rewrite Hframe5 by (intros Hin; destruct (Hout_va r Hin) as [Hc _]; by apply Hc).
    rewrite Hframe4 by (intros Hin; by apply (Hout_te r Hin)).
    done.
  - done.
  - eapply holds_frame; [|exact Hh4]. intros r Hr.
    apply Hframe5. intros Hin. destruct (Hout_va r Hin) as [_ Hc]. by apply Hc.
Qed.

(** Sharing matters: a validation and a test list that hold the same object
    make the letter loop meet it twice, and the second visit adds an [int] to
    the [str] that the first visit stored. *)
Example shape_objects_shared_object :
  (shape_objects ([], [0%nat], [0%nat])
     [int_record (Sample (lit "q") (lit "a") (lit "b") 0 (lit "c") None)]).1 =
  Err TypeError_str_plus_int.
Proof. reflexivity. Qed.

Lemma holds_lookup (h : store) (refs : list nat) (objs : list (sample value))
    (i r : nat) (o : sample value) :
  holds h refs objs → refs !! i = Some r → objs !! i = Some o → h !! r = Some o.
Proof. intros H Hr Ho. exact (Forall2_lookup_lr _ _ _ _ _ _ H Hr Ho). Qed.

Lemma holds_bound (h : store) (refs : list nat) (objs : list (sample value)) (r : nat) :
  holds h refs objs → r ∈ refs → (r < length h)%nat.
Proof.
  intros H Hr. apply list_elem_of_lookup in Hr as [i Hi].
  destruct (Forall2_lookup_l _ _ _ _ _ H Hi) as (o & _ & Ho).
  by eapply lookup_lt_Some.
Qed.

(** X14.  Lines 313-325 on the dict objects.  When the three lists share no
    object and hold records with integer choices that the letter mapping
    accepts, the run returns the training list followed by as many new
    references, none of which is a reference of the lists it received.
    After it, the object of a training record is the record itself with
    its choice replaced by its letter, its two outputs in their order: the
    exchange loop, which works on the deep copy, has not touched it.  The
    new object at the same position of the second half holds the two
    outputs in exchanged order and the letter of the flipped choice.  The
    validation and the test objects hold their records with their
    letters. *)
Theorem shape_objects_copies_before_exchange (h : store) (tr va te : list nat)
    (trv vav tev : list (sample Z)) (trs vas tes : list (sample pystr)) :
  NoDup (tr ++ va ++ te) →
  holds h tr (int_record <$> trv) →
  holds h va (int_record <$> vav) →
  holds h te (int_record <$> tev) →
  shape_by_choice (trv, vav, tev) = Ok (trs, vas, tes) →
  ∃ h' copies,
    shape_objects (tr, va, te) h = (Ok (tr ++ copies, va, te), h')
    ∧ length copies = length tr
    ∧ (∀ r, r ∈ copies → r ∉ tr ++ va ++ te)
    ∧ (∀ i r s, tr !! i = Some r → trv !! i = Some s →
         h' !! r = Some (str_record (with_letter s))
         ∧ ∃ r', copies !! i = Some r'
                 ∧ h' !! r' = Some (str_record (with_letter (exchange s))))
    ∧ (∀ i r s, va !! i = Some r → vav !! i = Some s →
         h' !! r = Some (str_record (with_letter s)))
    ∧ (∀ i r s, te !! i = Some r → tev !! i = Some s →
         h' !! r = Some (str_record (with_letter s))).
Proof.
  intros Hnd Htr Hva Hte Hshape.
  destruct (shape_objects_refines h tr va te trv vav tev trs vas tes
              Hnd Htr Hva Hte Hshape) as (h' & Hrun & Htr' & Hva' & Hte').
  apply shape_by_choice_Ok_inv in Hshape as (-> & -> & ->).
  assert (Hlen : length tr = length trv).
  { apply Forall2_length in Htr. by rewrite length_fmap in Htr. }
  exists h', (seq (length h) (length tr)).
  split; [exact Hrun|]. split; [by rewrite length_seq|].
  split; [|split; [|split]].
  - intros r Hr%elem_of_seq Hin.
    assert (r < length h)%nat; [|lia].
    apply elem_of_app in Hin as [Hin|Hin]; [exact (holds_bound _ _ _ _ Htr Hin)|].
    apply elem_of_app in Hin as [Hin|Hin];
      [exact (holds_bound _ _ _ _ Hva Hin)|exact (holds_bound _ _ _ _ Hte Hin)].
  - intros i r s Hr Hs. split.
    + eapply (holds_lookup h' _ _ i); [exact Htr'| |].
      * by apply lookup_app_l_Some.
      * rewrite !list_lookup_fmap, lookup_app_l by (by eapply lookup_lt_Some).
        by rewrite Hs.
    + exists (length h + i)%nat.
      assert (Hi : (i < length tr)%nat) by (by eapply lookup_lt_Some).
      split; [by apply lookup_seq_lt|].
      eapply (holds_lookup h' _ _ (length tr + i)); [exact Htr'| |].
      * rewrite lookup_app_r by lia.
        replace (length tr + i - length tr)%nat with i by lia.
        by apply lookup_seq_lt.
      * rewrite !list_lookup_fmap, lookup_app_r by lia.
        replace (length tr + i - length trv)%nat with i by lia.
        by rewrite list_lookup_fmap, Hs.
  - intros i r s Hr Hs. eapply (holds_lookup h' _ _ i); [exact Hva'|done|].
    by rewrite !list_lookup_fmap, Hs.
  - intros i r s Hr Hs. eapply (holds_lookup h' _ _ i); [exact Hte'|done|].
    by rewrite !list_lookup_fmap, Hs.
Qed.

(** ** A small corpus and collaborators, to run the pipeline on *)

Definition toy_row (h a b : string) (l : Z) (d : string) : shp_row :=
  ShpRow (lit h) (lit a) (lit b) l (lit d).

Definition toy_corpus : corpus := λ tag,
  match tag with
  | train =>
      [toy_row "q1" "a" "bb" 0 "askphysics_train";
       toy_row "q2" "cc" "ddd" 1 "legaladvice_train";
       toy_row "q1" "e" "f" 1 "askphysics_train"]
  | validation =>
      [toy_row "q1" "x" "y" 0 "askphysics_validation";
       toy_row "q3" "xxxx" "y" 0 "askhr_validation"]
  | test =>
      [toy_row "q4" "x" "y" 2 "askhr_test";
       toy_row "q3" "x" "y" 0 "askhr_test";
       toy_row "q5" "x" "y" 1 "askhr_test"]
  end.

(** A tokenizer that makes a hundred tokens of every character. *)
Definition toy_tokenizer (s : pystr) : list Z :=
  c ← s; replicate 100 (Z.of_N c).

(** A splitter that gives every record to client 0. *)
Definition toy_splitter (num_clients : nat) (records : list inst) : list (list inst) :=
  records :: replicate (num_clients - 1) [].

Definition toy_LLMDataset (l : list (sample pystr)) (_ : prompt_key)
  : res (@llm_dataset unit) :=
  Ok {| input_ids := (λ s, Z.of_N <$> instruction s ++ choice s) <$> l;
        llm_attrs := tt |}.

Definition toy_LLMComparisonDataset (l : list (sample Z)) (_ : prompt_key)
  : res (@cmp_dataset unit unit) :=
  Ok {| win_dataset :=
          {| input_ids :=
               (λ s, Z.of_N <$> (if bool_decide (choice s = 0) then output_A s
                                 else output_B s)) <$> l;
             llm_attrs := tt |};
        lose_dataset :=
          {| input_ids :=
               (λ s, Z.of_N <$> (if bool_decide (choice s = 0) then output_B s
                                 else output_A s)) <$> l;
             llm_attrs := tt |};
        cmp_other := tt |}.

Definition empty_world : @world unit unit := World ∅ [].

Definition toy_inst (h c : string) : inst := Inst (lit h) (lit c) None.

(** A world whose instruction files are stale: they exist, and know the
    instruction [q2] only. *)
Definition stale_world : @world unit unit :=
  World (<[(rlhf_paths (lit "data")).2 := InstJsonl []]>
           (<[(rlhf_paths (lit "data")).1.2 := InstJsonl []]>
              (<[(rlhf_paths (lit "data")).1.1 := InstJsonl [toy_inst "q2" "legaladvice"]]> ∅)))
        [].

(** ** The claims on the small corpus *)

Lemma download_shp_first_occurrences_witness :
  (_download_shp (Ok toy_corpus) (lit "data") empty_world).1 =
  Ok ([toy_inst "q1" "askphysics"; toy_inst "q2" "legaladvice"],
      [toy_inst "q3" "askhr"],
      [toy_inst "q4" "askhr"; toy_inst "q5" "askhr"]).
Proof.
  destruct (download_shp_first_occurrences (Ok toy_corpus) (lit "data") empty_world
              toy_corpus eq_refl eq_refl) as [H _].
  rewrite H. reflexivity.
Defined.

(** C5, as stated, fails: the validation split of the small corpus has the
    instructions [q1] and [q3], each once, so a deduplication of the split
    on its own keeps both; the loader drops [q1], which the training split
    has. *)
Lemma download_shp_not_per_split :
  ∃ list_train_dict list_val_dict list_test_dict,
    (_download_shp (Ok toy_corpus) (lit "data") empty_world).1 =
      Ok (list_train_dict, list_val_dict, list_test_dict)
    ∧ dedup_per_split (toy_corpus validation) =
        [toy_inst "q1" "askphysics"; toy_inst "q3" "askhr"]
    ∧ list_val_dict = [toy_inst "q3" "askhr"]
    ∧ list_val_dict ≠ dedup_per_split (toy_corpus validation).
Proof.
  eexists _, _, _. split; [vm_compute; reflexivity|].
  split; [vm_compute; reflexivity|].
  split; [reflexivity|]. vm_compute. discriminate.
Qed.

Definition toy_sample (i a b : string) (c : Z) (cat : string) : sample Z :=
  Sample (lit i) (lit a) (lit b) c (lit cat) None.

Definition toy_shaped (i a b c cat : string) : sample pystr :=
  Sample (lit i) (lit a) (lit b) (lit c) (lit cat) None.

Lemma shp_dataset_token_budget_witness :
  ∃ kept va te w3,
    shp_dataset toy_tokenizer (Ok toy_corpus) toy_splitter (lit "data") 1 empty_world =
      (Ok (kept, va, te), w3)
    ∧ (instruction <$> kept) = [lit "q1"; lit "q1"]
    ∧ (output_B <$> kept) = [lit "bb"; lit "f"]
    ∧ (num_tokens toy_tokenizer <$> va) = [400%nat; 700%nat]
    ∧ length te = 3%nat.
Proof.
  edestruct (shp_dataset_token_budget toy_tokenizer (Ok toy_corpus) toy_splitter
               (lit "data") 1 empty_world) as (kept & w3 & Hrun & Hkept & _ & _).
  - vm_compute. reflexivity.
  - vm_compute. reflexivity.
  - vm_compute. reflexivity.
  - eexists kept, _, _, w3. split; [exact Hrun|].
    rewrite Hkept. vm_compute. repeat split; reflexivity.
Defined.

Lemma shp_dataset_client_merge_witness :
  (shp_dataset toy_tokenizer (Ok toy_corpus) toy_splitter (lit "data") 1 stale_world).1 =
    Err (KeyError (lit "q1"))
  ∧ ∃ merged w3,
      shp_dataset toy_tokenizer (Ok toy_corpus) toy_splitter (lit "data") 1 empty_world =
        (Ok (select_by_budget toy_tokenizer merged,
             cmpr_record <$> toy_corpus validation,
             cmpr_record <$> toy_corpus test), w3)
      ∧ (category <$> merged) = [lit "Client_0"; lit "Client_0"; lit "Client_0"]
      ∧ (domain <$> merged) =
          [Some (lit "askphysics"); Some (lit "legaladvice"); Some (lit "askphysics")].
Proof.
  split.
  - edestruct (shp_dataset_client_merge toy_tokenizer (Ok toy_corpus) toy_splitter
                 (lit "data") 1 stale_world) as [Hfail _].
    + vm_compute. reflexivity.
    + vm_compute. reflexivity.
    + rewrite (Hfail [] (cmpr_record (toy_row "q1" "a" "bb" 0 "askphysics_train"))
                 (cmpr_record <$> [toy_row "q2" "cc" "ddd" 1 "legaladvice_train";
                                   toy_row "q1" "e" "f" 1 "askphysics_train"])).
      * reflexivity.
      * reflexivity.
      * intros p Hp. by apply elem_of_nil in Hp.
      * vm_compute. reflexivity.
  - edestruct (shp_dataset_client_merge toy_tokenizer (Ok toy_corpus) toy_splitter
                 (lit "data") 1 empty_world) as [_ Hok].
    + vm_compute. reflexivity.
    + vm_compute. reflexivity.
    + destruct Hok as (merged & w3 & Hrun & Hmerged).
      * intros s Hs. apply list_elem_of_In in Hs. vm_compute in Hs.
        destruct Hs as [<-|[<-|[<-|[]]]]; vm_compute; eexists; reflexivity.
      * exists merged, w3. split; [exact Hrun|].
        apply Forall2_cons_inv_l in Hmerged as (m1 & l1 & (i1 & Hi1 & Hc1 & Hd1 & _) & Hmerged & ->).
        apply Forall2_cons_inv_l in Hmerged as (m2 & l2 & (i2 & Hi2 & Hc2 & Hd2 & _) & Hmerged & ->).
        apply Forall2_cons_inv_l in Hmerged as (m3 & l3 & (i3 & Hi3 & Hc3 & Hd3 & _) & Hmerged & ->).
        apply Forall2_nil_inv_l in Hmerged as ->.
        vm_compute in Hi1, Hi2, Hi3.
        injection Hi1 as <-. injection Hi2 as <-. injection Hi3 as <-.
        simpl. rewrite Hc1, Hc2, Hc3, Hd1, Hd2, Hd3. split; reflexivity.
Defined.

(** C3, as stated, fails: with instruction files that do not know [q1], the
    merge of the small corpus raises the [KeyError] of the dictionary lookup,
    not an exception of the class [UnassignedInstructionError]. *)
Lemma shp_dataset_raises_KeyError :
  (shp_dataset toy_tokenizer (Ok toy_corpus) toy_splitter (lit "data") 1 stale_world).1 =
    Err (Raise "KeyError" (lit "q1"))
  ∧ ¬ ∃ e, (shp_dataset toy_tokenizer (Ok toy_corpus) toy_splitter (lit "data") 1
              stale_world).1 = Err e
           ∧ exn_class e = "UnassignedInstructionError"%string.
Proof.
  split; [vm_compute; reflexivity|].
  intros (e & He & Hc). vm_compute in He. injection He as <-. discriminate Hc.
Qed.

Lemma shape_by_choice_mirrors_train_witness :
  shape_by_choice ([toy_sample "q1" "a" "bb" 0 "c0"; toy_sample "q2" "c" "d" 1 "c1"],
                   [toy_sample "q3" "x" "y" 1 "c2"], [toy_sample "q4" "z" "w" 0 "c3"]) =
  Ok ([toy_shaped "q1" "a" "bb" " A" "c0"; toy_shaped "q2" "c" "d" " B" "c1";
       toy_shaped "q1" "bb" "a" " B" "c0"; toy_shaped "q2" "d" "c" " A" "c1"],
      [toy_shaped "q3" "x" "y" " B" "c2"], [toy_shaped "q4" "z" "w" " A" "c3"]).
Proof.
  destruct (shape_by_choice_mirrors_train
              [toy_sample "q1" "a" "bb" 0 "c0"; toy_sample "q2" "c" "d" 1 "c1"]
              [toy_sample "q3" "x" "y" 1 "c2"] [toy_sample "q4" "z" "w" 0 "c3"])
    as (_ & Hruns & _).
  destruct Hruns as (tr' & va' & te' & Hrun & _).
  - repeat constructor; simpl; lia.
  - rewrite Hrun. vm_compute in Hrun. injection Hrun as <- <- <-. reflexivity.
Defined.



(** A choice whose code does not fit a C [int] makes [chr] raise an
    [OverflowError], and one that fits but is no code point a [ValueError]. *)
Example shape_by_choice_rejected_choices :
  shape_by_choice ([], [toy_sample "q4" "x" "y" 2147483583 "askhr"], []) =
    Err (OverflowError "Python int too large to convert to C int")
  ∧ shape_by_choice ([], [toy_sample "q4" "x" "y" (-66) "askhr"], []) =
      Err (ValueError "chr() arg not in range(0x110000)").
Proof. split; vm_compute; reflexivity. Qed.

Lemma load_rlhf_dataset_splits_witness :
  (load_rlhf_dataset (Ok toy_corpus) (lit "data") 1 empty_world).1 =
  Ok ([toy_inst "q3" "askhr"; toy_inst "q4" "askhr"; toy_inst "q5" "askhr"],
      [toy_inst "q4" "askhr"], [toy_inst "q5" "askhr"]).
Proof.
  edestruct (load_rlhf_dataset_splits (Ok toy_corpus) (lit "data") 1 empty_world)
    as (Hrun & _).
  - vm_compute. reflexivity.
  - rewrite Hrun. vm_compute. reflexivity.
Defined.

Lemma tokenized_dataset_cache_witness :
  ∃ ds w2,
    load_comparison_dataset toy_tokenizer (lit "models/toy") (Ok toy_corpus) toy_splitter
      toy_LLMComparisonDataset (lit "data") (Config 1) (-1) empty_world = (Ok ds, w2)
    ∧ length (stdout w2) = 4%nat
    ∧ load_comparison_dataset toy_tokenizer (lit "models/toy") (Ok toy_corpus) toy_splitter
        toy_LLMComparisonDataset (lit "data") (Config 1) (-1) w2 = (Ok ds, w2).
Proof.
  destruct (tokenized_dataset_cache toy_tokenizer (lit "models/toy") (Ok toy_corpus)
              toy_splitter toy_LLMComparisonDataset toy_LLMDataset (lit "data")
              (Config 1) (-1)) as (_ & _ & _ & Hmiss & _ & Hoff).
  edestruct (Hmiss empty_world) as (w2 & Hfirst & _ & Hsecond).
  - vm_compute. reflexivity.
  - vm_compute. reflexivity.
  - reflexivity.
  - reflexivity.
  - reflexivity.
  - rewrite Hoff in Hfirst, Hsecond by lia.
    eexists _, w2. split; [exact Hfirst|]. split; [|exact Hsecond].
    vm_compute in Hfirst. injection Hfirst as <-. reflexivity.
Defined.

(** A world whose letter-choice cache is populated. *)
Definition cached_choice_world : @world unit unit :=
  World (<[(choice_paths (lit "models/toy") (lit "data") 1).2 :=
             Pickle (ObjLLM (LLMDatasetObj [[3]; [4]; [5]] tt))]>
           (<[(choice_paths (lit "models/toy") (lit "data") 1).1.2 :=
                Pickle (ObjLLM (LLMDatasetObj [[1]; [2]] tt))]>
              (<[(choice_paths (lit "models/toy") (lit "data") 1).1.1 :=
                   Pickle (ObjLLM (LLMDatasetObj [[0]; [0]] tt))]> ∅)))
        [].

Lemma shrink_leaves_train_and_cache_witness :
  load_shp_cmp_dataset_by_choice toy_tokenizer (lit "models/toy") (Ok toy_corpus)
    toy_splitter toy_LLMDataset (lit "data") (Config 1) 1 cached_choice_world =
  (Ok (ObjLLM (LLMDatasetObj [[0]; [0]] tt),
       ObjLLM (LLMDatasetObj [[1]] tt),
       ObjLLM (LLMDatasetObj [[3]] tt)),
   cached_choice_world).
Proof.
  destruct (shrink_leaves_train_and_cache toy_tokenizer (lit "models/toy") (Ok toy_corpus)
              toy_splitter toy_LLMComparisonDataset toy_LLMDataset (lit "data")
              (Config 1) 1) as (_ & Hhit & _ & _); [lia|].
  rewrite (Hhit cached_choice_world (ObjLLM (LLMDatasetObj [[0]; [0]] tt))
             (LLMDatasetObj [[1]; [2]] tt) (LLMDatasetObj [[3]; [4]; [5]] tt)).
  - reflexivity.
  - vm_compute. repeat split; reflexivity.
Defined.

(** ** The further properties on the small corpus *)

Lemma download_shp_cmpr_keeps_every_row_witness :
  ∃ tr va te,
    (_download_shp_cmpr (Ok toy_corpus) (lit "data") empty_world).1 = Ok (tr, va, te)
    ∧ (instruction <$> tr) = [lit "q1"; lit "q2"; lit "q1"]
    ∧ (category <$> tr) = [lit "askphysics"; lit "legaladvice"; lit "askphysics"].
Proof.
  edestruct (download_shp_cmpr_keeps_every_row (Ok toy_corpus) (lit "data") empty_world
               toy_corpus) as (tr & va & te & Hrun & Htr & _).
  - reflexivity.
  - vm_compute. reflexivity.
  - exists tr, va, te. rewrite Hrun. split; [reflexivity|].
    vm_compute in Hrun. injection Hrun as <- _ _. split; reflexivity.
Defined.

Lemma shp_dataset_fresh_assigns_every_record_witness :
  ∃ merged w',
    shp_dataset toy_tokenizer (Ok toy_corpus) toy_splitter (lit "data") 1 empty_world =
      (Ok (select_by_budget toy_tokenizer merged, cmpr_record <$> toy_corpus validation,
           cmpr_record <$> toy_corpus test), w')
    ∧ length merged = 3%nat.
Proof.
  edestruct (shp_dataset_fresh_assigns_every_record toy_tokenizer (Ok toy_corpus)
               toy_splitter (lit "data") 1 empty_world toy_corpus)
    as (merged & w' & Hrun & HF).
  - reflexivity.
  - vm_compute. reflexivity.
  - vm_compute. reflexivity.
  - intros s Hs. eexists. split; [|exact Hs]. unfold toy_splitter. simpl. by left.
  - exists merged, w'. split; [exact Hrun|].
    apply Forall2_length in HF. rewrite <- HF. reflexivity.
Defined.

Lemma code_categories_first_seen_witness :
  (categories <$> code_categories
     [toy_inst "q1" "askphysics"; toy_inst "q2" "legaladvice"; toy_inst "q3" "askphysics"]) =
  [Some 0%nat; Some 1%nat; Some 0%nat].
Proof.
  destruct (code_categories_first_seen
              [toy_inst "q1" "askphysics"; toy_inst "q2" "legaladvice";
               toy_inst "q3" "askphysics"]) as (m & HF & _).
  apply Forall2_length in HF. vm_compute. reflexivity.
Defined.

Lemma inst_client_map_last_wins_witness :
  build_inst_client_map
    [[toy_inst "q1" "askphysics"]; [toy_inst "q2" "legaladvice"; toy_inst "q1" "askphysics"]]
  !! lit "q1" = Some 1%nat.
Proof.
  destruct (inst_client_map_last_wins
              [[toy_inst "q1" "askphysics"];
               [toy_inst "q2" "legaladvice"; toy_inst "q1" "askphysics"]] (lit "q1"))
    as (Hiff & _ & _).
  apply Hiff. split.
  - eexists. split; [reflexivity|]. vm_compute. right. left.
  - intros j sub' Hj _. apply lookup_lt_Some in Hj. simpl in Hj. lia.
Defined.


(** A constructor that fails, and a fetch that fails. *)
Definition failing_LLMComparisonDataset (l : list (sample Z)) (_ : prompt_key)
  : res (@cmp_dataset unit unit) :=
  Err (Raise "RuntimeError" (lit "out of memory")).

Definition offline : exn := Raise "ConnectionError" (lit "offline").

Lemma failed_load_caches_nothing_witness :
  ∃ w1,
    load_comparison_dataset toy_tokenizer (lit "models/toy") (Ok toy_corpus) toy_splitter
      failing_LLMComparisonDataset (lit "data") (Config 1) (-1) empty_world =
      (Err (Raise "RuntimeError" (lit "out of memory")), w1)
    ∧ size (fs w1) = 6%nat
    ∧ all_exist (comparison_paths (lit "models/toy") (lit "data") 1) w1 = (Ok false, w1).
Proof.
  destruct (shp_dataset toy_tokenizer (Ok toy_corpus) toy_splitter (lit "data") 1
              empty_world) as [r w1] eqn:Hshp.
  assert (Hr : ∃ lists, r = Ok lists).
  { apply (f_equal fst) in Hshp. vm_compute in Hshp. rewrite <- Hshp. by eexists. }
  destruct Hr as [lists ->]. exists w1.
  destruct (failed_load_caches_nothing toy_tokenizer (lit "models/toy") (Ok toy_corpus)
              toy_splitter failing_LLMComparisonDataset toy_LLMDataset (lit "data")
              (Config 1) (-1) empty_world w1 (Raise "RuntimeError" (lit "out of memory")))
    as [Hcmp _].
  destruct Hcmp as (Hrun & _ & Hmiss).
  - vm_compute. reflexivity.
  - right. exists lists. split; [exact Hshp|]. by destruct lists as [[tr va] te].
  - split; [exact Hrun|]. split; [|exact Hmiss].
    apply (f_equal snd) in Hshp. vm_compute in Hshp. rewrite <- Hshp. reflexivity.
Defined.

Lemma failed_fetch_creates_no_file_witness :
  shp_dataset toy_tokenizer (Err offline) toy_splitter (lit "data") 1 empty_world =
    (Err offline, empty_world)
  ∧ load_rlhf_dataset (Err offline) (lit "data") (-1) empty_world =
      (Err offline, empty_world).
Proof.
  destruct (failed_fetch_creates_no_file toy_tokenizer (Err offline) toy_splitter
              (lit "data") 1 (-1) empty_world offline eq_refl) as [Hcmpr Hrlhf].
  split.
  - apply Hcmpr. vm_compute. reflexivity.
  - apply Hrlhf. vm_compute. reflexivity.
Defined.

Lemma shape_by_choice_balances_letters_witness :
  ∃ tr', shape_by_choice
           ([toy_sample "q1" "a" "bb" 0 "c0"; toy_sample "q2" "c" "d" 0 "c1"], [], [])
         = Ok (tr', [], [])
         ∧ length (filter (λ s', choice s' = lit " B") tr') = 2%nat.
Proof.
  edestruct (shape_by_choice_balances_letters
               [toy_sample "q1" "a" "bb" 0 "c0"; toy_sample "q2" "c" "d" 0 "c1"] [] [])
    as (_ & HB & _).
  - repeat constructor; simpl; lia.
  - vm_compute. reflexivity.
  - eexists. split; [vm_compute; reflexivity|]. exact HB.
Defined.

Lemma load_rlhf_dataset_evaluates_on_training_records_witness :
  ∃ tr va te w',
    load_rlhf_dataset (Ok toy_corpus) (lit "data") (-1) empty_world = (Ok (tr, va, te), w')
    ∧ tr = [toy_inst "q3" "askhr"] ++ va ++ te.
Proof.
  destruct (load_rlhf_dataset (Ok toy_corpus) (lit "data") (-1) empty_world)
    as [[[[tr va] te]|e] w'] eqn:Hrun;
    [|apply (f_equal fst) in Hrun; vm_compute in Hrun; discriminate Hrun].
  destruct (load_rlhf_dataset_evaluates_on_training_records (Ok toy_corpus) (lit "data")
              (-1) empty_world w' tr va te Hrun) as (_ & _ & _ & Hoff & _).
  exists tr, va, te, w'. split; [reflexivity|].
  apply (f_equal fst) in Hrun. vm_compute in Hrun. injection Hrun as <- <- <-.
  reflexivity.
Defined.

Lemma load_shp_best_dataset_wins_only_witness :
  ∃ tr va te w2,
    load_shp_best_dataset toy_tokenizer (lit "models/toy") (Ok toy_corpus) toy_splitter
      toy_LLMComparisonDataset (lit "data") (Config 1) 1 empty_world =
      (Ok (ObjLLM tr, ObjLLM va, ObjLLM te), w2)
    ∧ length (input_ids tr) = 2%nat
    ∧ length (input_ids va) = 1%nat
    ∧ length (input_ids te) = 1%nat.
Proof.
  destruct (load_shp_best_dataset_wins_only toy_tokenizer (lit "models/toy")
              (Ok toy_corpus) toy_splitter toy_LLMComparisonDataset (lit "data")
              (Config 1) 1) as (_ & Hmiss & _).
  edestruct (Hmiss empty_world) as (w2 & Hrun & _).
  - vm_compute. reflexivity.
  - vm_compute. reflexivity.
  - reflexivity.
  - reflexivity.
  - reflexivity.
  - eexists _, _, _, w2. split; [exact Hrun|]. vm_compute. repeat split; reflexivity.
Defined.

Definition toy_alpaca_row (i inp o1 o2 : string) (p : Z) : alpaca_row :=
  AlpacaRow (lit i) (lit inp) (lit o1) (lit o2) p.

Definition toy_LLMDataset_eval (l : list eval_record) (_ : prompt_key)
  : res (@llm_dataset unit) :=
  Ok {| input_ids := (λ r, Z.of_N <$> e_instruction r ++ e_choice r) <$> l;
        llm_attrs := tt |}.

Lemma alpacafarm_unknown_preference_witness :
  load_alpacafarm_human_for_eval (cmp_attrs:=unit) (lit "models/toy")
    (Ok [toy_alpaca_row "i1" "" "a" "b" 1; toy_alpaca_row "i2" "ctx" "c" "d" 0;
         toy_alpaca_row "i3" "" "e" "f" 2])
    toy_LLMDataset_eval (lit "data") empty_world =
  (Err (Raise "KeyError" (lit "0")), empty_world).
Proof.
  rewrite (alpacafarm_unknown_preference (lit "models/toy") _ toy_LLMDataset_eval
             (lit "data") empty_world [toy_alpaca_row "i1" "" "a" "b" 1]
             [toy_alpaca_row "i3" "" "e" "f" 2] (toy_alpaca_row "i2" "ctx" "c" "d" 0)).
  - reflexivity.
  - reflexivity.
  - reflexivity.
  - repeat constructor.
  - simpl. lia.
  - simpl. lia.
Defined.

Lemma alpacafarm_builds_once_witness :
  ∃ d w',
    load_alpacafarm_human_for_eval (cmp_attrs:=unit) (lit "models/toy")
      (Ok [toy_alpaca_row "i1" "" "a" "b" 1; toy_alpaca_row "i2" "ctx" "c" "d" 2])
      toy_LLMDataset_eval (lit "data") empty_world = (Ok (ObjLLM d), w')
    ∧ input_ids d = [Z.of_N <$> lit "i1A";
                     Z.of_N <$> lit "i2" ++ [10; 10]%N ++ lit "ctxB"]
    ∧ load_alpacafarm_human_for_eval (lit "models/toy")
        (Ok [toy_alpaca_row "i1" "" "a" "b" 1; toy_alpaca_row "i2" "ctx" "c" "d" 2])
        toy_LLMDataset_eval (lit "data") w' = (Ok (ObjLLM d), w').
Proof.
  edestruct (alpacafarm_builds_once (cmp_attrs:=unit) (lit "models/toy")
               (Ok [toy_alpaca_row "i1" "" "a" "b" 1; toy_alpaca_row "i2" "ctx" "c" "d" 2])
               toy_LLMDataset_eval (lit "data") empty_world)
    as (Hfirst & Hsecond & _).
  - reflexivity.
  - reflexivity.
  - repeat constructor; simpl; lia.
  - reflexivity.
  - eexists _, _. split; [exact Hfirst|]. split; [|exact Hsecond].
    vm_compute. reflexivity.
Defined.

Lemma shape_objects_copies_before_exchange_witness :
  ∃ h',
    shape_objects ([0%nat], [1%nat], [])
      [int_record (toy_sample "q1" "a" "bb" 0 "c0");
       int_record (toy_sample "q3" "x" "y" 1 "c2")] = (Ok ([0%nat; 2%nat], [1%nat], []), h')
    ∧ h' !! 0%nat = Some (str_record (toy_shaped "q1" "a" "bb" " A" "c0"))
    ∧ h' !! 2%nat = Some (str_record (toy_shaped "q1" "bb" "a" " B" "c0")).
Proof.
  edestruct (shape_objects_copies_before_exchange
               [int_record (toy_sample "q1" "a" "bb" 0 "c0");
                int_record (toy_sample "q3" "x" "y" 1 "c2")]
               [0%nat] [1%nat] []
               [toy_sample "q1" "a" "bb" 0 "c0"] [toy_sample "q3" "x" "y" 1 "c2"] [])
    as (h' & copies & Hrun & _ & _ & Htr & _).
  - apply (bool_decide_unpack _). vm_compute. exact I.
  - repeat constructor.
  - repeat constructor.
  - constructor.
  - vm_compute. reflexivity.
  - destruct (Htr 0%nat 0%nat (toy_sample "q1" "a" "bb" 0 "c0") eq_refl eq_refl)
      as (H0 & r' & Hr' & Hcopy).
    assert (Hcopies : copies = [2%nat]).
    { apply (f_equal fst) in Hrun. vm_compute in Hrun. by injection Hrun. }
    subst copies. injection Hr' as <-.
    exists h'. split; [exact Hrun|]. split; [exact H0|exact Hcopy].
Defined.

Lemma shp_dataset_summary_witness :
  ∃ dicts,
    stdout (shp_dataset toy_tokenizer (Ok toy_corpus) toy_splitter (lit "data") 1
              empty_world).2 = summary_lines [0%nat; 1%nat] dicts
    ∧ length dicts = 2%nat
    ∧ dicts !! 1%nat = Some ∅.
Proof.
  edestruct (shp_dataset_summary toy_tokenizer (Ok toy_corpus) toy_splitter
               (lit "data") 1 empty_world) as (dicts & Hrun & Hlen & _ & Hlast).
  - vm_compute. reflexivity.
  - vm_compute. reflexivity.
  - vm_compute. reflexivity.
  - exists dicts. split; [by rewrite Hrun|]. split; [exact Hlen|].
    apply Hlast. vm_compute. lia.
Defined.

Lemma cache_of_another_client_count_witness :
  ∃ ds w',
    load_comparison_dataset toy_tokenizer (lit "models/toy") (Ok toy_corpus) toy_splitter
      toy_LLMComparisonDataset (lit "data") (Config 1) (-1) empty_world = (Ok ds, w')
    ∧ all_exist (comparison_paths (lit "models/toy") (lit "data") 2) w' = (Ok false, w').
Proof.
  destruct (load_comparison_dataset toy_tokenizer (lit "models/toy") (Ok toy_corpus)
              toy_splitter toy_LLMComparisonDataset (lit "data") (Config 1) (-1)
              empty_world) as [[ds|e] w'] eqn:Hrun;
    [|apply (f_equal fst) in Hrun; vm_compute in Hrun; discriminate Hrun].
  destruct (cache_of_another_client_count toy_tokenizer (lit "models/toy") (Ok toy_corpus)
              toy_splitter toy_LLMComparisonDataset (lit "data") (Config 1) (Config 2)
              (-1) empty_world w' ds) as (_ & Hother & _).
  - simpl. lia.
  - vm_compute. reflexivity.
  - reflexivity.
  - exact Hrun.
  - by exists ds, w'.
Defined.

End Shp.

(** * The chat wrapper ([misc/fschat.py]) *)

Module FSChat.

(** The fields of the configuration that [FSChatBot] reads to find its
    checkpoint and to name its model. *)
Record config := Config {
  federate_total_round_num : Z;
  federate_save_freq : Z;
  federate_save_to : pystr;
  llm_offsite_tuning_use : bool;
  model_type : pystr
}.

(** What [self.model] holds. *)
Inductive model :=
  | RawModel                                  (* [get_llm(config)] *)
  | StateDictFrom (ckpt_path : pystr)         (* [load_state_dict] of [torch.load(ckpt_path)] *)
  | OffsiteTuning (ckpt_path : option pystr). (* [wrap_offsite_tuning_for_eval] *)

Record FSChatBot := Bot {
  prefix : list pystr;
  dirname : pystr;
  filename : pystr;
  curpfx : option pystr;
  bot_model : model
}.

(** [range(n, -1, -1)]. *)
Definition range_down_to_0 (n : Z) : list Z := reverse (seqZ 0 (n + 1)).

(** [xs.index(x)]. *)
Fixpoint list_index (x : pystr) (xs : list pystr) : res nat :=
  match xs with
  | [] => Err (ValueError "x is not in list")
  | y :: ys => if bool_decide (y = x) then Ok 0%nat else S <$> list_index x ys
  end.

(** [s.split(c)] for a separator [c] of one character: the pieces of [s]
    between the occurrences of [c]. *)
Fixpoint split_on (c : N) (s : pystr) : list pystr :=
  match s with
  | [] => [[]]
  | x :: s' =>
      if bool_decide (x = c) then [] :: split_on c s'
      else match split_on c s' with
           | [] => [[x]]
           | piece :: pieces => (x :: piece) :: pieces
           end
  end.

Definition at_sign : N := 64.

(** [model_name, _ = self.config.model.type.split('@')]: the assignment
    unpacks exactly two pieces. *)
Definition unpack_model_type (type : pystr) : res pystr :=
  match split_on at_sign type with
  | [model_name; _] => Ok model_name
  | [] | [_] => Err (ValueError "not enough values to unpack (expected 2, got 1)")
  | _ :: _ :: _ :: _ => Err (ValueError "too many values to unpack (expected 2)")
  end.

Section Bot.

(** What [torch.load] returns. *)
Context {checkpoint : Type}.

(** [os.path.exists]; the wrapper writes no file. *)
Variable os_path_exists : pystr → bool.

(** The collaborators of the wrapper, each of which returns or raises:
    [get_tokenizer(model_name, config.data.root, config.llm.tok_len)],
    [get_llm(config, device_map='auto')],
    [GenerationConfig.from_pretrained(model_name)],
    [torch.load(ckpt_path, map_location='cpu')], ['cur_round' in ckpt]
    (the condition ['model' and 'cur_round' in ckpt] is this test, since
    ['model'] is a true value), [ckpt['model']], [self.model.load_state_dict],
    [wrap_offsite_tuning_for_eval(self.model, config, ckpt_path)] with or
    without its last argument, and the end of [next_model]: [self.model.eval()],
    [torch.compile] and [pipeline('text-generation', ...)].  The objects they
    build are kept abstract; [bot_model] records where the weights of
    [self.model] come from. *)
Variable get_tokenizer : config → pystr → res unit.
Variable get_llm : config → res unit.
Variable GenerationConfig_from_pretrained : pystr → res unit.
Variable torch_load : pystr → res checkpoint.
Variable cur_round_in : checkpoint → res bool.
Variable getitem_model : checkpoint → res checkpoint.
Variable load_state_dict : checkpoint → res unit.
Variable wrap_offsite_tuning_for_eval : config → option pystr → res unit.
Variable generation_pipeline : config → res unit.

(** The loop [for pre in self.prefix: if os.path.exists(...): ...; break]. *)
Fixpoint probe (dirname filename : pystr) (prefix : list pystr) : option pystr :=
  match prefix with
  | [] => None
  | pre :: prefix' =>
      if os_path_exists (os_path_join dirname (pre ++ filename)) then Some pre
      else probe dirname filename prefix'
  end.

(** The branch [if self.curpfx is not None] of [next_model] up to the
    trimming of the candidates: the model is wrapped for offsite tuning, or
    it takes the state dict of the checkpoint. *)
Definition load_checkpoint (cfg : config) (ckpt_path : pystr) : res model :=
  if llm_offsite_tuning_use cfg then
    _ ← wrap_offsite_tuning_for_eval cfg (Some ckpt_path);
    Ok (OffsiteTuning (Some ckpt_path))
  else
    ckpt ← torch_load ckpt_path;
    has_round ← cur_round_in ckpt;
    _ ← (if has_round : bool then state ← getitem_model ckpt; load_state_dict state
         else load_state_dict ckpt);
    Ok (StateDictFrom ckpt_path).

(** The branch [elif len(self.prefix) > 1] of [next_model]. *)
Definition load_raw (cfg : config) : res model :=
  if llm_offsite_tuning_use cfg then
    _ ← wrap_offsite_tuning_for_eval cfg None;
    Ok (OffsiteTuning None)
  else Ok RawModel.

(** The probing loop of [next_model] and the three branches after it. *)
Definition load_next (cfg : config) (self : FSChatBot) : res FSChatBot :=
  match probe (dirname self) (filename self) (prefix self) with
  | Some pre =>
      let ckpt_path := os_path_join (dirname self) (pre ++ filename self) in
      model ← load_checkpoint cfg ckpt_path;
      idx ← list_index pre (prefix self);
      Ok {| prefix := drop (idx + 1) (prefix self);
            dirname := dirname self;
            filename := filename self;
            curpfx := Some pre;
            bot_model := model |}
  | None =>
      if bool_decide (1 < length (prefix self))%nat then
        model ← load_raw cfg;
        Ok {| prefix := [];
              dirname := dirname self;
              filename := filename self;
              curpfx := None;
              bot_model := model |}
      else Err (ValueError "No more model is able to us")
  end.

(** [next_model]: the bot it returns, or the exception it raises.  The
    attributes that a raising call has already written are not followed. *)
Definition next_model (cfg : config) (self : FSChatBot) : res FSChatBot :=
  model_name ← unpack_model_type (model_type cfg);
  _ ← get_tokenizer cfg model_name;
  _ ← get_llm cfg;
  _ ← GenerationConfig_from_pretrained model_name;
  self' ← load_next cfg self;
  _ ← generation_pipeline cfg;
  Ok self'.

(** [use_raw_model]: after the tokenizer and the model it evaluates
    [self.device + 1], the sum of the [str] [f'cuda:{config.device}'] and an
    [int], before it can move the model. *)
Definition use_raw_model (cfg : config) (self : FSChatBot) : res FSChatBot :=
  model_name ← unpack_model_type (model_type cfg);
  _ ← get_tokenizer cfg model_name;
  _ ← get_llm cfg;
  Err TypeError_str_plus_int.

(** The candidate prefixes that [__init__] stores in [self.prefix]. *)
Definition init_prefix (cfg : config) : list pystr :=
  let num_ckpt := federate_total_round_num cfg `div` federate_save_freq cfg in
  [lit "final_"]
  ++ ((λ i, str_Z (i * federate_save_freq cfg) ++ lit "_") <$> range_down_to_0 num_ckpt)
  ++ [[]].

Definition __init__ (cfg : config) (use_raw : bool) : res FSChatBot :=
  if bool_decide (federate_save_freq cfg = 0) then Err ZeroDivisionError
  else
    let '(dirname, filename) := os_path_split (federate_save_to cfg) in
    let self := {| prefix := init_prefix cfg;
                   dirname := dirname;
                   filename := filename;
                   curpfx := None;
                   bot_model := RawModel |} in
    if use_raw then use_raw_model cfg self else next_model cfg self.

(** The tokenizer, the model and the generation configuration load. *)
Definition loaders_return (cfg : config) : Prop :=
  ∃ model_name,
    unpack_model_type (model_type cfg) = Ok model_name
    ∧ get_tokenizer cfg model_name = Ok tt
    ∧ get_llm cfg = Ok tt
    ∧ GenerationConfig_from_pretrained model_name = Ok tt.

(** Every checkpoint file that exists loads. *)
Definition checkpoints_load (cfg : config) : Prop :=
  ∀ ckpt_path, os_path_exists ckpt_path = true → ∃ m, load_checkpoint cfg ckpt_path = Ok m.

(** The raw model can be used as it is, or wrapped for offsite tuning. *)
Definition raw_model_loads (cfg : config) : Prop := ∃ m, load_raw cfg = Ok m.

(** ** The model type *)

Lemma split_on_cons (c : N) (s : pystr) : ∃ piece pieces, split_on c s = piece :: pieces.
Proof.
  destruct s as [|x s]; cbn [split_on]; [by eexists _, _|].
  case_bool_decide; [by eexists _, _|].
  destruct (split_on c s); by eexists _, _.
Qed.

Lemma unpack_model_type_Err (type : pystr) (e : exn) :
  unpack_model_type type = Err e →
  e = ValueError "not enough values to unpack (expected 2, got 1)"
  ∨ e = ValueError "too many values to unpack (expected 2)".
Proof.
  unfold unpack_model_type.
  destruct (split_on at_sign type) as [|a [|b [|c l]]]; intros [= <-]; auto.
Qed.

(** ** The probing loop *)

Lemma range_down_to_0_lookup (n : Z) (i : nat) (x : Z) :
  range_down_to_0 n !! i = Some x ↔ x = n - Z.of_nat i ∧ Z.of_nat i ≤ n.
Proof.
  unfold range_down_to_0. rewrite reverse_lookup_Some, length_seqZ, lookup_seqZ.
  split.
  - intros [[-> H1] H2]. lia.
  - intros [-> H]. lia.
Qed.

Lemma probe_Some (d f : pystr) (before after : list pystr) (pre : pystr) :
  (∀ p, p ∈ before → os_path_exists (os_path_join d (p ++ f)) = false) →
  os_path_exists (os_path_join d (pre ++ f)) = true →
  probe d f (before ++ pre :: after) = Some pre.
Proof.
  intros Hb Hp. induction before as [|p before IH]; simpl.
  - by rewrite Hp.
  - rewrite Hb by (by left). apply IH. intros q Hq. apply Hb. by right.
Qed.

Lemma probe_None (d f : pystr) (prefix : list pystr) :
  (∀ p, p ∈ prefix → os_path_exists (os_path_join d (p ++ f)) = false) →
  probe d f prefix = None.
Proof.
  induction prefix as [|p prefix IH]; intros H; simpl; [done|].
  rewrite H by (by left). apply IH. intros q Hq. apply H. by right.
Qed.

(** What the probing loop has seen when it ends. *)
Lemma probe_inv (d f : pystr) (l : list pystr) :
  match probe d f l with
  | Some pre =>
      ∃ before after,
        l = before ++ pre :: after
        ∧ (∀ p, p ∈ before → os_path_exists (os_path_join d (p ++ f)) = false)
        ∧ os_path_exists (os_path_join d (pre ++ f)) = true
  | None => ∀ p, p ∈ l → os_path_exists (os_path_join d (p ++ f)) = false
  end.
Proof.
  induction l as [|x l IH]; cbn [probe].
  - intros p Hp. by apply elem_of_nil in Hp.
  - destruct (os_path_exists (os_path_join d (x ++ f))) eqn:Hx.
    + exists [], l. split; [done|]. split; [|done].
      intros p Hp. by apply elem_of_nil in Hp.
    + destruct (probe d f l) as [pre|].
      * destruct IH as (before & after & -> & Hb & Hp).
        exists (x :: before), after. split; [done|]. split; [|done].
        intros p [->|Hin]%elem_of_cons; [done|by apply Hb].
      * intros p [->|Hin]%elem_of_cons; [done|by apply IH].
Qed.

Lemma list_index_app (x : pystr) (before after : list pystr) :
  x ∉ before → list_index x (before ++ x :: after) = Ok (length before).
Proof.
  induction before as [|y before IH]; intros Hx; simpl.
  - by rewrite bool_decide_eq_true_2.
  - rewrite bool_decide_eq_false_2.
    + rewrite IH; [done|]. intros Hin. apply Hx. by right.
    + intros ->. apply Hx. by left.
Qed.

(** ** The branches of [next_model] *)

Lemma load_checkpoint_Ok (cfg : config) (ckpt_path : pystr) (m : model) :
  load_checkpoint cfg ckpt_path = Ok m →
  m = if llm_offsite_tuning_use cfg then OffsiteTuning (Some ckpt_path)
      else StateDictFrom ckpt_path.
Proof.
  unfold load_checkpoint. destruct (llm_offsite_tuning_use cfg).
  - destruct (wrap_offsite_tuning_for_eval cfg (Some ckpt_path)); by intros [= <-].
  - destruct (torch_load ckpt_path) as [ckpt|]; [|done]. cbn [mbind res_bind].
    destruct (cur_round_in ckpt) as [has_round|]; [|done]. cbn [mbind res_bind].
    destruct has_round.
    + destruct (getitem_model ckpt) as [state|]; [|done]. cbn [mbind res_bind].
      destruct (load_state_dict state); by intros [= <-].
    + destruct (load_state_dict ckpt); by intros [= <-].
Qed.

Lemma load_raw_Ok (cfg : config) (m : model) :
  load_raw cfg = Ok m →
  m = if llm_offsite_tuning_use cfg then OffsiteTuning None else RawModel.
Proof.
  unfold load_raw. destruct (llm_offsite_tuning_use cfg).
  - destruct (wrap_offsite_tuning_for_eval cfg None); by intros [= <-].
  - by intros [= <-].
Qed.

Lemma load_next_found (cfg : config) (self : FSChatBot)
    (before after : list pystr) (pre : pystr) :
  prefix self = before ++ pre :: after →
  (∀ p, p ∈ before →
        os_path_exists (os_path_join (dirname self) (p ++ filename self)) = false) →
  os_path_exists (os_path_join (dirname self) (pre ++ filename self)) = true →
  load_next cfg self =
    (m ← load_checkpoint cfg (os_path_join (dirname self) (pre ++ filename self));
     Ok {| prefix := after;
           dirname := dirname self;
           filename := filename self;
           curpfx := Some pre;
           bot_model := m |}).
Proof.
  intros Hpre Hb Hp. unfold load_next. rewrite Hpre.
  rewrite (probe_Some _ _ _ _ _ Hb Hp). cbv zeta.
  destruct (load_checkpoint cfg _) as [m|e]; [|done]. cbn [mbind res_bind].
  rewrite list_index_app.
  - cbn [mbind res_bind]. rewrite drop_app_ge by lia.
    replace (length before + 1 - length before)%nat with 1%nat by lia. done.
  - intros Hin. specialize (Hb _ Hin). congruence.
Qed.

Lemma load_next_none (cfg : config) (self : FSChatBot) :
  (∀ p, p ∈ prefix self →
        os_path_exists (os_path_join (dirname self) (p ++ filename self)) = false) →
  load_next cfg self =
    if bool_decide (1 < length (prefix self))%nat then
      m ← load_raw cfg;
      Ok {| prefix := [];
            dirname := dirname self;
            filename := filename self;
            curpfx := None;
            bot_model := m |}
    else Err (ValueError "No more model is able to us").
Proof. intros H. unfold load_next. by rewrite probe_None. Qed.

(** What a call of [next_model] that returns has done. *)
Lemma load_next_Ok (cfg : config) (self self' : FSChatBot) :
  load_next cfg self = Ok self' →
  (∃ before pre,
     prefix self = before ++ pre :: prefix self'
     ∧ (∀ p, p ∈ before →
             os_path_exists (os_path_join (dirname self) (p ++ filename self)) = false)
     ∧ os_path_exists (os_path_join (dirname self) (pre ++ filename self)) = true
     ∧ self' =
         {| prefix := prefix self'; dirname := dirname self; filename := filename self;
            curpfx := Some pre;
            bot_model :=
              if llm_offsite_tuning_use cfg
              then OffsiteTuning
                     (Some (os_path_join (dirname self) (pre ++ filename self)))
              else StateDictFrom
                     (os_path_join (dirname self) (pre ++ filename self)) |})
  ∨ ((∀ p, p ∈ prefix self →
           os_path_exists (os_path_join (dirname self) (p ++ filename self)) = false)
     ∧ (1 < length (prefix self))%nat
     ∧ self' =
         {| prefix := []; dirname := dirname self; filename := filename self;
            curpfx := None;
            bot_model :=
              if llm_offsite_tuning_use cfg then OffsiteTuning None else RawModel |}).
Proof.
  intros Hrun.
  pose proof (probe_inv (dirname self) (filename self) (prefix self)) as Hprobe.
  destruct (probe (dirname self) (filename self) (prefix self)) as [pre|] eqn:Hp.
  - destruct Hprobe as (before & after & Hpre & Hb & Hex).
    rewrite (load_next_found cfg self before after pre Hpre Hb Hex) in Hrun.
    destruct (load_checkpoint cfg _) as [m|e] eqn:Hm; [|done].
    apply load_checkpoint_Ok in Hm as ->. injection Hrun as <-.
    left. exists before, pre. by cbn [prefix].
  - rewrite (load_next_none cfg self Hprobe) in Hrun.
    case_bool_decide; [|done].
    destruct (load_raw cfg) as [m|e] eqn:Hm; [|done].
    apply load_raw_Ok in Hm as ->. injection Hrun as <-.
    right. done.
Qed.

Lemma next_model_Ok (cfg : config) (self self' : FSChatBot) :
  next_model cfg self = Ok self' → load_next cfg self = Ok self'.
Proof.
  unfold next_model.
  destruct (unpack_model_type (model_type cfg)) as [model_name|]; [|done].
  cbn [mbind res_bind].
  destruct (get_tokenizer cfg model_name); [|done]. cbn [mbind res_bind].
  destruct (get_llm cfg); [|done]. cbn [mbind res_bind].
  destruct (GenerationConfig_from_pretrained model_name); [|done]. cbn [mbind res_bind].
  destruct (load_next cfg self) as [bot|]; [|done]. cbn [mbind res_bind].
  destruct (generation_pipeline cfg); [|done]. by intros [= <-].
Qed.

Lemma next_model_Ok_shrinks (cfg : config) (self self' : FSChatBot) :
  next_model cfg self = Ok self' → (length (prefix self') < length (prefix self))%nat.
Proof.
  intros Hrun%next_model_Ok.
  destruct (load_next_Ok cfg self self' Hrun)
    as [(before & pre & Hpre & _)|(_ & Hlen & ->)].
  - rewrite Hpre, length_app. cbn [length]. lia.
  - cbn [prefix length]. lia.
Qed.

Lemma next_model_loaded (cfg : config) (self : FSChatBot) :
  loaders_return cfg →
  next_model cfg self = (self' ← load_next cfg self; _ ← generation_pipeline cfg; Ok self').
Proof.
  intros (model_name & Hname & Htok & Hllm & Hgen). unfold next_model.
  rewrite Hname. cbn [mbind res_bind]. rewrite Htok. cbn [mbind res_bind].
  rewrite Hllm. cbn [mbind res_bind]. by rewrite Hgen.
Qed.

Lemma next_model_unpack_Err (cfg : config) (self : FSChatBot) (e : exn) :
  unpack_model_type (model_type cfg) = Err e → next_model cfg self = Err e.
Proof. intros He. unfold next_model. by rewrite He. Qed.

(** With loaders that return, [next_model] returns or raises its
    [ValueError]. *)
Lemma next_model_cases (cfg : config) (self : FSChatBot) :
  loaders_return cfg → generation_pipeline cfg = Ok tt →
  checkpoints_load cfg → raw_model_loads cfg →
  (∃ self', next_model cfg self = Ok self')
  ∨ ((length (prefix self) ≤ 1)%nat
     ∧ next_model cfg self = Err (ValueError "No more model is able to us")).
Proof.
  intros Hload Hpipe Hckpt Hraw. rewrite (next_model_loaded cfg self Hload).
  pose proof (probe_inv (dirname self) (filename self) (prefix self)) as Hprobe.
  destruct (probe (dirname self) (filename self) (prefix self)) as [pre|] eqn:Hp.
  - destruct Hprobe as (before & after & Hpre & Hb & Hex).
    rewrite (load_next_found cfg self before after pre Hpre Hb Hex).
    destruct (Hckpt _ Hex) as [m ->]. cbn [mbind res_bind]. rewrite Hpipe.
    left. by eexists.
  - rewrite (load_next_none cfg self Hprobe). case_bool_decide.
    + destruct Hraw as [m ->]. cbn [mbind res_bind]. rewrite Hpipe. left. by eexists.
    + right. split; [lia|done].
Qed.

Lemma init_prefix_length (cfg : config) : (1 < length (init_prefix cfg))%nat.
Proof. unfold init_prefix. rewrite !length_app. simpl. lia. Qed.

Lemma init_run (cfg : config) (use_raw : bool) :
  federate_save_freq cfg ≠ 0 →
  __init__ cfg use_raw =
  let self := Bot (init_prefix cfg) (os_path_split (federate_save_to cfg)).1
                  (os_path_split (federate_save_to cfg)).2 None RawModel in
  if use_raw then use_raw_model cfg self else next_model cfg self.
Proof.
  intros Hsf. unfold __init__. rewrite bool_decide_eq_false_2 by done.
  by destruct (os_path_split (federate_save_to cfg)).
Qed.

(** C7 (amended).  [FSChatBot(config)] stores the candidate prefixes
    ["final_"], then [str(i * save_freq) + "_"] for [i] from
    [total_round_num // save_freq] down to 0 (rounds in descending order when
    [save_freq] is positive), then the empty prefix, and tries the paths
    [dirname/{prefix}{basename}] in this order, once the model type has been
    unpacked and the tokenizer, the model and the generation configuration
    have loaded.  The first candidate whose file exists is the one loaded,
    and the candidates after it are kept for later calls; when loading it
    raises, the initialization raises the same exception and no later
    candidate is tried.  When no candidate exists, the initialization raises
    nothing of its own: the wrapper keeps the raw model, with no current
    prefix and an empty list of candidates.  Only a later [next_model] that
    finds no file while at most one candidate is left raises the
    [ValueError] of the probing.  A model type that does not split at ['@']
    into exactly two pieces makes the initialization raise the [ValueError]
    of the unpacking, whatever files there are. *)
Theorem init_probes_checkpoints (cfg : config) :
  federate_save_freq cfg ≠ 0 →
  let num_ckpt := federate_total_round_num cfg `div` federate_save_freq cfg in
  let rounds := (λ i, i * federate_save_freq cfg) <$> range_down_to_0 num_ckpt in
  let d := (os_path_split (federate_save_to cfg)).1 in
  let f := (os_path_split (federate_save_to cfg)).2 in
  let path (pre : pystr) := os_path_join d (pre ++ f) in
  init_prefix cfg = [lit "final_"] ++ ((λ r, str_Z r ++ lit "_") <$> rounds) ++ [[]]
  ∧ (∀ i r, rounds !! i = Some r ↔
            r = (num_ckpt - Z.of_nat i) * federate_save_freq cfg ∧ Z.of_nat i ≤ num_ckpt)
  ∧ (0 < federate_save_freq cfg →
     ∀ i j r r', (i < j)%nat → rounds !! i = Some r → rounds !! j = Some r' → r' < r)
  ∧ (loaders_return cfg →
     ∀ before pre after,
       init_prefix cfg = before ++ pre :: after →
       (∀ p, p ∈ before → os_path_exists (path p) = false) →
       os_path_exists (path pre) = true →
       (∀ m, load_checkpoint cfg (path pre) = Ok m →
             generation_pipeline cfg = Ok tt →
             __init__ cfg false =
               Ok {| prefix := after; dirname := d; filename := f; curpfx := Some pre;
                     bot_model :=
                       if llm_offsite_tuning_use cfg then OffsiteTuning (Some (path pre))
                       else StateDictFrom (path pre) |})
       ∧ (∀ e, load_checkpoint cfg (path pre) = Err e → __init__ cfg false = Err e))
  ∧ (loaders_return cfg → raw_model_loads cfg → generation_pipeline cfg = Ok tt →
     (∀ p, p ∈ init_prefix cfg → os_path_exists (path p) = false) →
     __init__ cfg false =
       Ok {| prefix := []; dirname := d; filename := f; curpfx := None;
             bot_model :=
               if llm_offsite_tuning_use cfg then OffsiteTuning None else RawModel |})
  ∧ (loaders_return cfg →
     ∀ self,
       (length (prefix self) ≤ 1)%nat →
       (∀ p, p ∈ prefix self →
             os_path_exists (os_path_join (dirname self) (p ++ filename self)) = false) →
       next_model cfg self = Err (ValueError "No more model is able to us"))
  ∧ (∀ e, unpack_model_type (model_type cfg) = Err e →
          (e = ValueError "not enough values to unpack (expected 2, got 1)"
           ∨ e = ValueError "too many values to unpack (expected 2)")
          ∧ __init__ cfg false = Err e).
Proof.
  intros Hsf num_ckpt rounds d f path.
  assert (Hrounds : ∀ i r, rounds !! i = Some r ↔
            r = (num_ckpt - Z.of_nat i) * federate_save_freq cfg
            ∧ Z.of_nat i ≤ num_ckpt).
  { intros i r. unfold rounds. rewrite list_lookup_fmap.
    destruct (range_down_to_0 num_ckpt !! i) as [x|] eqn:Hx; simpl.
    - apply range_down_to_0_lookup in Hx as [-> Hi]. split.
      + intros [= <-]. done.
      + intros [-> _]. done.
    - split; [done|]. intros [_ Hi].
      assert (range_down_to_0 num_ckpt !! i = Some (num_ckpt - Z.of_nat i)) as Hx'
        by (by apply range_down_to_0_lookup).
      congruence. }
  pose proof (init_run cfg false Hsf) as Hinit. cbv beta zeta iota in Hinit.
  fold d f in Hinit. set (self0 := Bot (init_prefix cfg) d f None RawModel) in Hinit.
  split; [|split; [|split; [|split; [|split; [|split]]]]].
  - unfold init_prefix, rounds. by rewrite <- list_fmap_compose.
  - exact Hrounds.
  - intros Hpos i j r r' Hij [-> Hi]%Hrounds [-> Hj]%Hrounds. nia.
  - intros Hload before pre after Hpre Hb Hp.
    rewrite Hinit, (next_model_loaded cfg _ Hload).
    rewrite (load_next_found cfg self0 before after pre Hpre Hb Hp).
    cbn [self0 dirname filename]. fold (path pre). split.
    + intros m Hm Hpipe. rewrite Hm. cbn [mbind res_bind]. rewrite Hpipe.
      by rewrite (load_checkpoint_Ok cfg _ m Hm).
    + intros e He. by rewrite He.
  - intros Hload [m Hraw] Hpipe Hnone.
    rewrite Hinit, (next_model_loaded cfg _ Hload), load_next_none by done.
    cbn [self0 prefix dirname filename]. rewrite bool_decide_eq_true_2 by apply init_prefix_length.
    rewrite Hraw. cbn [mbind res_bind]. rewrite Hpipe.
    by rewrite (load_raw_Ok cfg m Hraw).
  - intros Hload self Hlen Hnone.
    rewrite (next_model_loaded cfg _ Hload), load_next_none by done.
    rewrite bool_decide_eq_false_2 by lia. done.
  - intros e He. split; [by apply (unpack_model_type_Err (model_type cfg))|].
    rewrite Hinit. by apply next_model_unpack_Err.
Qed.

(** * Further properties of the wrapper *)

(** X15.  Whatever [next_model] returns, it has found it by probing: when
    the bot it returns has a current prefix, the file of this prefix exists,
    the files of all the candidates before it do not, the model is loaded
    from exactly this file, and the candidates left are those after it; when
    it has none, no candidate has a file, the model is the raw one and no
    candidate is left.  The directory and the file name are kept, and every
    call that returns leaves strictly fewer candidates than it found. *)
Theorem next_model_returns_first_existing (cfg : config) (self self' : FSChatBot) :
  next_model cfg self = Ok self' →
  let path (pre : pystr) := os_path_join (dirname self) (pre ++ filename self) in
  dirname self' = dirname self ∧ filename self' = filename self
  ∧ (length (prefix self') < length (prefix self))%nat
  ∧ match curpfx self' with
    | Some pre =>
        ∃ before,
          prefix self = before ++ pre :: prefix self'
          ∧ (∀ p, p ∈ before → os_path_exists (path p) = false)
          ∧ os_path_exists (path pre) = true
          ∧ bot_model self' = (if llm_offsite_tuning_use cfg
                               then OffsiteTuning (Some (path pre))
                               else StateDictFrom (path pre))
    | None =>
        prefix self' = []
        ∧ (∀ p, p ∈ prefix self → os_path_exists (path p) = false)
        ∧ bot_model self' = (if llm_offsite_tuning_use cfg
                             then OffsiteTuning None else RawModel)
    end.
Proof.
  intros Hrun path. pose proof (next_model_Ok_shrinks cfg self self' Hrun) as Hlen.
  apply next_model_Ok in Hrun.
  destruct (load_next_Ok cfg self self' Hrun)
    as [(before & pre & Hpre & Hb & Hex & Hself)|(Hnone & _ & Hself)];
    rewrite Hself in Hlen |- *; cbn [prefix dirname filename curpfx bot_model] in Hlen |- *.
  - do 2 (split; [done|]). split; [exact Hlen|]. by exists before.
  - do 2 (split; [done|]). split; [exact Hlen|done].
Qed.

(** [n] calls of [next_model] in a row. *)
Fixpoint next_models (cfg : config) (n : nat) (self : FSChatBot) : res FSChatBot :=
  match n with
  | O => Ok self
  | S n' => self' ← next_model cfg self; next_models cfg n' self'
  end.

(** X16.  [next_model] cannot be called for ever: every call that returns
    uses up at least one candidate, so with [k] candidates at most [k] calls
    in a row return and any longer run of calls ends in an exception.  When
    the model type unpacks, the tokenizer, the model, the generation
    configuration and the pipeline load, every checkpoint file that exists
    loads and the raw model can be used, this exception is the [ValueError]
    of [next_model]: the lookup of the current prefix in the candidates
    never fails.  When the model type does not unpack, it is the
    [ValueError] of the unpacking, raised by the first call. *)
Theorem next_model_runs_out (cfg : config) (n : nat) (self : FSChatBot) :
  (length (prefix self) < n)%nat →
  (∃ e, next_models cfg n self = Err e)
  ∧ (loaders_return cfg → generation_pipeline cfg = Ok tt →
     checkpoints_load cfg → raw_model_loads cfg →
     next_models cfg n self = Err (ValueError "No more model is able to us"))
  ∧ (∀ e, unpack_model_type (model_type cfg) = Err e → next_models cfg n self = Err e).
Proof.
  intros Hlen. split; [|split].
  - revert self Hlen. induction n as [|n IH]; intros self Hlen; [lia|].
    cbn [next_models].
    destruct (next_model cfg self) as [self'|e] eqn:Hrun; [|by exists e].
    cbn [mbind res_bind]. apply IH.
    apply next_model_Ok_shrinks in Hrun. lia.
  - intros Hload Hpipe Hckpt Hraw.
    revert self Hlen. induction n as [|n IH]; intros self Hlen; [lia|].
    cbn [next_models].
    destruct (next_model_cases cfg self Hload Hpipe Hckpt Hraw)
      as [[self' Hrun]|[_ Hrun]]; rewrite Hrun; [|done].
    cbn [mbind res_bind]. apply IH.
    apply next_model_Ok_shrinks in Hrun. lia.
  - intros e He. destruct n as [|n]; [lia|].
    cbn [next_models]. by rewrite (next_model_unpack_Err cfg self e He).
Qed.

(** ** The candidates *)

Lemma range_down_to_0_NoDup (n : Z) : NoDup (range_down_to_0 n).
Proof. unfold range_down_to_0. rewrite reverse_Permutation. apply NoDup_seqZ. Qed.

Lemma round_prefix_head (r : Z) :
  ∃ c rest, str_Z r ++ lit "_" = c :: rest ∧ (is_digit c ∨ c = minus_sign).
Proof.
  destruct (str_Z_head r) as (c & rest & -> & Hc). by exists c, (rest ++ lit "_").
Qed.

(** X17.  For a save frequency other than 0 the candidate prefixes of
    [__init__] are pairwise distinct, so that the position at which
    [next_model] looks up the current prefix is the position at which the
    probing loop found it.  There are [total_round_num // save_freq + 3] of
    them when the quotient is not negative and just ["final_"] and the
    empty prefix otherwise; ["final_"] comes first and the empty prefix
    last. *)
Theorem init_prefix_distinct (cfg : config) :
  federate_save_freq cfg ≠ 0 →
  let num_ckpt := federate_total_round_num cfg `div` federate_save_freq cfg in
  NoDup (init_prefix cfg)
  ∧ length (init_prefix cfg) = (Z.to_nat (num_ckpt + 1) + 2)%nat
  ∧ head (init_prefix cfg) = Some (lit "final_")
  ∧ last (init_prefix cfg) = Some []
  ∧ (num_ckpt < 0 → init_prefix cfg = [lit "final_"; []]).
Proof.
  intros Hsf num_ckpt. unfold init_prefix. fold num_ckpt.
  set (mid := (λ i, str_Z (i * federate_save_freq cfg) ++ lit "_") <$>
              range_down_to_0 num_ckpt).
  assert (Hmid : ∀ x, x ∈ mid → x ≠ lit "final_" ∧ x ≠ []).
  { intros x (i & -> & _)%list_elem_of_fmap.
    destruct (round_prefix_head (i * federate_save_freq cfg)) as (c & rest & -> & Hc).
    split; [|done]. intros [= -> _]. unfold is_digit, minus_sign in Hc. lia. }
  split; [|split; [|split; [|split]]].
  - apply NoDup_app. split; [apply NoDup_singleton|]. split.
    + intros x ->%list_elem_of_singleton [Hin|Hin]%elem_of_app.
      * by destruct (Hmid _ Hin).
      * by apply list_elem_of_singleton in Hin.
    + apply NoDup_app. split; [|split; [|apply NoDup_singleton]].
      * apply NoDup_fmap_2_strong; [|apply range_down_to_0_NoDup].
        intros i j _ _ Hij. apply app_inv_tail, str_Z_inj in Hij. nia.
      * intros x Hin ->%list_elem_of_singleton. by destruct (Hmid _ Hin).
  - rewrite !length_app. subst mid. unfold range_down_to_0.
    rewrite length_fmap, length_reverse, length_seqZ. cbn. lia.
  - done.
  - by rewrite !last_app.
  - intros Hneg. subst mid. unfold range_down_to_0.
    assert (Hempty : seqZ 0 (num_ckpt + 1) = []).
    { unfold seqZ. replace (Z.to_nat (num_ckpt + 1)) with 0%nat by lia. done. }
    by rewrite Hempty.
Qed.

(** X18.  The two ways of constructing the bot, for a save frequency other
    than 0.  When the model type unpacks, the tokenizer, the model, the
    generation configuration and the pipeline load, every checkpoint file
    that exists loads and the raw model can be used, [FSChatBot(config)]
    returns: there are at least two candidates, so the [ValueError] of
    [next_model], which needs at most one, cannot be raised; the bot is left
    with fewer candidates than [__init__] stored, and a bot without current
    prefix holds the raw model and has no candidate left.
    [FSChatBot(config, use_raw=True)] never returns, whatever files there
    are: [use_raw_model] raises in the unpacking, in the tokenizer or in the
    model, and otherwise adds 1 to the device string, which is a
    [TypeError].  A model type that does not unpack makes both
    constructions raise the [ValueError] of the unpacking. *)
Theorem init_outcomes (cfg : config) :
  federate_save_freq cfg ≠ 0 →
  (loaders_return cfg → generation_pipeline cfg = Ok tt →
   checkpoints_load cfg → raw_model_loads cfg →
   ∃ bot, __init__ cfg false = Ok bot
          ∧ dirname bot = (os_path_split (federate_save_to cfg)).1
          ∧ filename bot = (os_path_split (federate_save_to cfg)).2
          ∧ (length (prefix bot) < length (init_prefix cfg))%nat
          ∧ (curpfx bot = None →
             prefix bot = []
             ∧ bot_model bot = (if llm_offsite_tuning_use cfg
                                then OffsiteTuning None else RawModel)))
  ∧ (∃ e, __init__ cfg true = Err e)
  ∧ (∀ model_name,
       unpack_model_type (model_type cfg) = Ok model_name →
       get_tokenizer cfg model_name = Ok tt →
       get_llm cfg = Ok tt →
       __init__ cfg true = Err TypeError_str_plus_int)
  ∧ (∀ e, unpack_model_type (model_type cfg) = Err e →
          __init__ cfg false = Err e ∧ __init__ cfg true = Err e).
Proof.
  intros Hsf. rewrite !init_run by done. cbv zeta.
  set (self := Bot (init_prefix cfg) _ _ None RawModel).
  split; [|split; [|split]].
  - intros Hload Hpipe Hckpt Hraw.
    pose proof (init_prefix_length cfg) as Hlen.
    destruct (next_model_cases cfg self Hload Hpipe Hckpt Hraw)
      as [[bot Hrun]|[Hle _]]; [|cbn [self prefix] in Hle; lia].
    exists bot. split; [done|].
    pose proof (next_model_Ok_shrinks cfg self bot Hrun) as Hshrink.
    apply next_model_Ok in Hrun.
    destruct (load_next_Ok cfg self bot Hrun)
      as [(before & pre & _ & _ & _ & Hbot)|(_ & _ & Hbot)];
      rewrite Hbot in Hshrink |- *;
      cbn [self prefix dirname filename curpfx bot_model] in Hshrink |- *.
    + do 2 (split; [done|]). split; [exact Hshrink|done].
    + do 2 (split; [done|]). split; [exact Hshrink|done].
  - unfold use_raw_model.
    destruct (unpack_model_type (model_type cfg)) as [model_name|e]; [|by exists e].
    cbn [mbind res_bind].
    destruct (get_tokenizer cfg model_name) as [|e]; [|by exists e].
    cbn [mbind res_bind].
    destruct (get_llm cfg) as [|e]; [|by exists e].
    by eexists.
  - intros model_name Hname Htok Hllm. unfold use_raw_model.
    rewrite Hname. cbn [mbind res_bind]. rewrite Htok. cbn [mbind res_bind].
    by rewrite Hllm.
  - intros e He. split; [by apply next_model_unpack_Err|].
    unfold use_raw_model. by rewrite He.
Qed.

(** * The chat ([predict], [clear] and [main]) *)

(** The attributes of the bot that [predict] and [clear] read and write. *)
Record chat := Chat {
  history : list (list Z);
  max_history_len : Z;
  max_len : Z
}.

(** [xs[-n:]] for a Python [int] [n]: the last [n] entries for a positive [n],
    the whole list for 0 (the slice [xs[-0:]] is [xs[0:]]), and the list
    without its first [-n] entries for a negative [n]. *)
Definition slice_last {A} (n : Z) (xs : list A) : list A :=
  if bool_decide (0 < n) then drop (length xs - Z.to_nat n) xs
  else drop (Z.to_nat (- n)) xs.

(** The characters that [str.strip()] removes. *)
Definition is_space (c : N) : bool :=
  ((9 <=? c) && (c <=? 13) || (28 <=? c) && (c <=? 32) || (c =? 133) || (c =? 160)
   || (c =? 5760) || (8192 <=? c) && (c <=? 8202) || (c =? 8232) || (c =? 8233)
   || (c =? 8239) || (c =? 8287) || (c =? 12288))%N.

Fixpoint lstrip (s : pystr) : pystr :=
  match s with
  | [] => []
  | c :: s' => if is_space c then lstrip s' else s
  end.

Definition strip (s : pystr) : pystr := reverse (lstrip (reverse (lstrip s))).

(** What the chat writes to the terminal: the welcome line, the prompt of
    [input("\nUser:")], and the line of a reply. *)
Inductive event :=
  | PrintWelcome
  | AskUser
  | PrintReply (response : pystr).

Record session := Session {
  bot : chat;
  terminal : list event
}.

(** What [input] raises at the end of the input. *)
Definition EOFError : exn := Raise "EOFError" (lit "EOF when reading a line").

Section Chat.

Set Default Proof Using "Type".

(** [tokenizer.encode(text, add_special_tokens=False)],
    [tokenizer.decode(ids, skip_special_tokens=True)], the first sequence of
    [model.generate(input_ids=..., max_new_tokens=max_len, ...)] as a list, or
    the exception it raises, and
    [PROMPT_DICT['prompt_no_input'].format_map({'instruction': text})]. *)
Variable tokenizer_encode : pystr → list Z.
Variable tokenizer_decode : list Z → pystr.
Variable model_generate : list Z → Z → res (list Z).
Variable prompt_no_input : pystr → pystr.

(** [config.llm.chat.max_history_len] and [config.llm.chat.max_len]. *)
Variable llm_chat_max_history_len : Z.
Variable llm_chat_max_len : Z.

Definition _build_prompt (input_text : pystr) : pystr := prompt_no_input input_text.

Definition predict (input_text : pystr) (use_history use_prompt : bool) : M chat pystr :=
  let input_text := if use_prompt then _build_prompt input_text else input_text in
  let text_ids := tokenizer_encode input_text in
  _ ← modify (λ self, Chat (history self ++ [text_ids]) (max_history_len self)
                           (max_len self));
  self ← gets id;
  let input_ids :=
    if use_history then concat (slice_last (max_history_len self) (history self))
    else text_ids in
  response ← lift (model_generate input_ids (max_len self));
  _ ← modify (λ self, Chat (history self ++ [response]) (max_history_len self)
                           (max_len self));
  mret (tokenizer_decode (drop (length input_ids) response)).

Definition clear : M chat unit :=
  modify (λ self, Chat [] (max_history_len self) (max_len self)).

(** A method of the bot, called from [main]. *)
Definition on_bot {A} (m : M chat A) : M session A := λ s,
  let '(r, b) := m (bot s) in (r, Session b (terminal s)).

Definition emit (e : event) : M session unit :=
  modify (λ s, Session (bot s) (terminal s ++ [e])).

(** The loop [while True] of [main] on the lines that the user will type;
    [input] raises [EOFError] when there is none left.  The loop returns
    the lines that it has not read. *)
Fixpoint chat_loop (lines : list pystr) : M session (list pystr) :=
  match lines with
  | [] => _ ← emit AskUser; raise EOFError
  | input_text :: rest =>
      _ ← emit AskUser;
      if bool_decide (strip input_text = lit "quit") then mret rest
      else if bool_decide (strip input_text = lit "clear") then
        _ ← on_bot clear;
        _ ← emit PrintWelcome;
        chat_loop rest
      else
        response ← on_bot (predict input_text true true);
        _ ← emit (PrintReply response);
        chat_loop rest
  end.

(** [main]: the bot is constructed, which ends with [next_model] setting
    the chat attributes, then the welcome line is printed and the loop
    runs.  The statements before the construction (the parsing of the
    configuration, the logger, the seed) are outside this development and
    are taken to return. *)
Definition main (cfg : config) (lines : list pystr) : M session (list pystr) :=
  _ ← lift (__init__ cfg false);
  _ ← modify (λ s, Session (Chat [] llm_chat_max_history_len llm_chat_max_len)
                           (terminal s));
  _ ← emit PrintWelcome;
  chat_loop lines.

(** ** One turn *)

Lemma predict_run (input_text : pystr) (use_history use_prompt : bool) (self : chat) :
  let text_ids :=
    tokenizer_encode (if use_prompt then prompt_no_input input_text else input_text) in
  let input_ids :=
    if use_history
    then concat (slice_last (max_history_len self) (history self ++ [text_ids]))
    else text_ids in
  predict input_text use_history use_prompt self =
  match model_generate input_ids (max_len self) with
  | Ok response =>
      (Ok (tokenizer_decode (drop (length input_ids) response)),
       Chat (history self ++ [text_ids; response]) (max_history_len self) (max_len self))
  | Err e => (Err e, Chat (history self ++ [text_ids]) (max_history_len self) (max_len self))
  end.
Proof.
  intros text_ids input_ids.
  unfold predict, _build_prompt, mbind, M_bind, modify, gets, lift, mret, M_ret.
  cbn [history max_history_len max_len id]. fold text_ids. fold input_ids.
  destruct (model_generate input_ids (max_len self)); [|done].
  by rewrite <- app_assoc.
Qed.

Lemma slice_last_snoc {A} (n : Z) (xs : list A) (x : A) :
  0 ≤ n → ∃ older, slice_last n (xs ++ [x]) = older ++ [x]
                   ∧ (n = 0 → older = xs)
                   ∧ (n = 1 → older = [])
                   ∧ (Z.of_nat (length xs) < n → older = xs).
Proof.
  intros Hn. unfold slice_last. rewrite length_app. cbn [length].
  case_bool_decide as Hpos.
  - exists (drop (length xs + 1 - Z.to_nat n) xs). split; [|split; [|split]].
    + rewrite drop_app_le by lia. done.
    + lia.
    + intros ->. replace (length xs + 1 - Z.to_nat 1)%nat with (length xs) by lia.
      by rewrite drop_all.
    + intros Hlt. replace (length xs + 1 - Z.to_nat n)%nat with 0%nat by lia. done.
  - assert (n = 0) as -> by lia. exists xs. cbn. repeat split; try done; lia.
Qed.

(** X19.  One call of [predict].  The tokens of the prompt are appended to
    the history before the model is called and the tokens of the response
    after it; nothing is ever removed, so the history grows by two entries
    with every answered turn, by one when the model raises, and the limit
    [max_history_len] bounds what is fed to the model, not what is stored.
    Without history the model is fed the tokens of the prompt alone, and the
    turn is recorded all the same.  With history and a limit that is not
    negative, the input ends with the tokens of the prompt; the limit 1
    feeds the prompt alone, a limit above the length of the history feeds
    all of it, and so does the limit 0, for which the slice [[-0:]] is the
    whole list. *)
Theorem predict_feeds_and_records (input_text : pystr) (use_history use_prompt : bool)
    (self : chat) :
  let text_ids :=
    tokenizer_encode (if use_prompt then prompt_no_input input_text else input_text) in
  ∃ input_ids,
    (∀ response,
       model_generate input_ids (max_len self) = Ok response →
       predict input_text use_history use_prompt self =
         (Ok (tokenizer_decode (drop (length input_ids) response)),
          Chat (history self ++ [text_ids; response]) (max_history_len self)
               (max_len self)))
    ∧ (∀ e,
       model_generate input_ids (max_len self) = Err e →
       predict input_text use_history use_prompt self =
         (Err e, Chat (history self ++ [text_ids]) (max_history_len self) (max_len self)))
    ∧ (use_history = false → input_ids = text_ids)
    ∧ (use_history = true → 0 ≤ max_history_len self →
       ∃ older, input_ids = older ++ text_ids)
    ∧ (use_history = true → max_history_len self = 1 → input_ids = text_ids)
    ∧ (use_history = true →
       max_history_len self = 0 ∨ Z.of_nat (length (history self)) < max_history_len self →
       input_ids = concat (history self) ++ text_ids).
Proof.
  intros text_ids.
  pose proof (predict_run input_text use_history use_prompt self) as Hrun.
  cbv zeta in Hrun. fold text_ids in Hrun.
  set (input_ids := if use_history then _ else text_ids) in Hrun.
  exists input_ids. split; [|split; [|split; [|split; [|split]]]].
  - intros response Hr. by rewrite Hrun, Hr.
  - intros e He. by rewrite Hrun, He.
  - by intros ->.
  - intros -> Hk. subst input_ids.
    destruct (slice_last_snoc (max_history_len self) (history self) text_ids Hk)
      as (older & -> & _).
    exists (concat older). rewrite concat_app. cbn [concat].
    by rewrite (right_id_L [] (++)).
  - intros -> Hk. subst input_ids.
    destruct (slice_last_snoc (max_history_len self) (history self) text_ids)
      as (older & -> & _ & H1 & _); [lia|].
    rewrite (H1 Hk). cbn [app concat]. by rewrite (right_id_L [] (++)).
  - intros -> Hk. subst input_ids.
    destruct (slice_last_snoc (max_history_len self) (history self) text_ids)
      as (older & -> & H0 & _ & Hbig); [lia|].
    assert (older = history self) as -> by (destruct Hk; auto).
    rewrite concat_app. cbn [concat]. by rewrite (right_id_L [] (++)).
Qed.

(** ** The loop *)

Lemma chat_loop_cons (input_text : pystr) (rest : list pystr) (s : session) :
  chat_loop (input_text :: rest) s =
  if bool_decide (strip input_text = lit "quit")
  then (Ok rest, Session (bot s) (terminal s ++ [AskUser]))
  else if bool_decide (strip input_text = lit "clear")
  then chat_loop rest
         (Session (Chat [] (max_history_len (bot s)) (max_len (bot s)))
                  (terminal s ++ [AskUser; PrintWelcome]))
  else match predict input_text true true (bot s) with
       | (Ok response, b) =>
           chat_loop rest (Session b (terminal s ++ [AskUser; PrintReply response]))
       | (Err e, b) => (Err e, Session b (terminal s ++ [AskUser]))
       end.
Proof.
  cbn [chat_loop]. unfold mbind at 1. unfold M_bind at 1. unfold emit at 1, modify at 1.
  case_bool_decide; [done|]. case_bool_decide.
  - unfold mbind, M_bind, on_bot, clear, emit, modify. cbn [bot terminal].
    by rewrite <- app_assoc.
  - unfold mbind at 1. unfold M_bind at 1. unfold on_bot at 1. cbn [bot terminal].
    destruct (predict input_text true true (bot s)) as [[response|e] b]; [|done].
    unfold mbind, M_bind, emit, modify. cbn [bot terminal].
    by rewrite <- app_assoc.
Qed.

(** The loop on lines none of which is [quit]: what it does to the session,
    and whether it is still running after the last of them. *)
Lemma chat_loop_app (pre rest : list pystr) (s : session) :
  Forall (λ l, strip l ≠ lit "quit") pre →
  (∃ s1, ∀ rest', chat_loop (pre ++ rest') s = chat_loop rest' s1)
  ∨ (∃ e s1, ∀ rest', chat_loop (pre ++ rest') s = (Err e, s1)).
Proof.
  intros Hpre. revert s. induction Hpre as [|l pre Hl _ IH]; intros s.
  - left. by exists s.
  - assert (∀ rest', chat_loop ((l :: pre) ++ rest') s =
              if bool_decide (strip l = lit "clear")
              then chat_loop (pre ++ rest')
                     (Session (Chat [] (max_history_len (bot s)) (max_len (bot s)))
                              (terminal s ++ [AskUser; PrintWelcome]))
              else match predict l true true (bot s) with
                   | (Ok response, b) =>
                       chat_loop (pre ++ rest')
                         (Session b (terminal s ++ [AskUser; PrintReply response]))
                   | (Err e, b) => (Err e, Session b (terminal s ++ [AskUser]))
                   end) as Hstep.
    { intros rest'. rewrite <- app_comm_cons, chat_loop_cons.
      by rewrite bool_decide_eq_false_2. }
    case_bool_decide.
    + destruct (IH (Session (Chat [] (max_history_len (bot s)) (max_len (bot s)))
                            (terminal s ++ [AskUser; PrintWelcome])))
        as [[s1 H1]|(e & s1 & H1)].
      * left. exists s1. intros rest'. by rewrite Hstep, H1.
      * right. exists e, s1. intros rest'. by rewrite Hstep, H1.
    + destruct (predict l true true (bot s)) as [[response|e] b].
      * destruct (IH (Session b (terminal s ++ [AskUser; PrintReply response])))
          as [[s1 H1]|(e & s1 & H1)].
        -- left. exists s1. intros rest'. by rewrite Hstep, H1.
        -- right. exists e, s1. intros rest'. by rewrite Hstep, H1.
      * right. exists e, (Session b (terminal s ++ [AskUser])). intros rest'.
        by rewrite Hstep.
Qed.

Lemma chat_main_run (cfg : config) (lines : list pystr) (s : session) :
  main cfg lines s =
  match __init__ cfg false with
  | Ok _ =>
      chat_loop lines (Session (Chat [] llm_chat_max_history_len llm_chat_max_len)
                               (terminal s ++ [PrintWelcome]))
  | Err e => (Err e, s)
  end.
Proof.
  unfold main, mbind, M_bind, lift, modify, emit.
  by destruct (__init__ cfg false).
Qed.

(** X20.  The chat ends at the first line that is [quit] once the white
    space around it is stripped.  What the user would type after it is not
    read: [main] returns these lines, and the session (the history of the
    bot and what is on the terminal) is the one that the lines up to this
    [quit] produce, whatever follows.  If the bot cannot be constructed or
    the model raises before that line, the exception comes out of [main]
    with the same session, again whatever follows. *)
Theorem main_stops_at_quit (cfg : config) (pre post : list pystr) (q : pystr)
    (s : session) :
  Forall (λ l, strip l ≠ lit "quit") pre →
  strip q = lit "quit" →
  ∃ s',
    (main cfg (pre ++ q :: post) s = (Ok post, s')
     ∧ main cfg (pre ++ [q]) s = (Ok [], s'))
    ∨ (∃ e, main cfg (pre ++ q :: post) s = (Err e, s')
            ∧ main cfg (pre ++ [q]) s = (Err e, s')).
Proof.
  intros Hpre Hq. rewrite !chat_main_run.
  destruct (__init__ cfg false) as [b|e]; [|exists s; right; by exists e].
  destruct (chat_loop_app pre [] (Session (Chat [] llm_chat_max_history_len llm_chat_max_len)
                                         (terminal s ++ [PrintWelcome])) Hpre)
    as [[s1 H1]|(e & s1 & H1)].
  - exists (Session (bot s1) (terminal s1 ++ [AskUser])). left.
    rewrite !H1, !chat_loop_cons, !bool_decide_eq_true_2 by done. done.
  - exists s1. right. exists e. by rewrite !H1.
Qed.

(** X21.  Without a line that strips to [quit] the loop of [main] never
    ends normally: it ends with an exception, and when the model answers
    every prompt, with the [EOFError] of [input], raised after the last
    line has been handled and the user has been prompted once more. *)
Theorem chat_loop_without_quit (lines : list pystr) (s : session) :
  Forall (λ l, strip l ≠ lit "quit") lines →
  ∃ e s',
    chat_loop lines s = (Err e, s')
    ∧ ((∀ ids n, ∃ response, model_generate ids n = Ok response) →
       e = EOFError ∧ last (terminal s') = Some AskUser).
Proof.
  intros Hlines. revert s. induction Hlines as [|l lines Hl _ IH]; intros s.
  - exists EOFError, (Session (bot s) (terminal s ++ [AskUser])).
    split; [done|]. intros _. split; [done|]. cbn [terminal]. by rewrite last_snoc.
  - rewrite chat_loop_cons, bool_decide_eq_false_2 by done.
    case_bool_decide; [apply IH|].
    rewrite predict_run.
    destruct (model_generate _ (max_len (bot s))) as [response|e] eqn:Hgen.
    + apply IH.
    + eexists _, _. split; [reflexivity|]. intros Hmodel.
      destruct (Hmodel (concat (slice_last (max_history_len (bot s))
                          (history (bot s) ++ [tokenizer_encode (prompt_no_input l)])))
                  (max_len (bot s))) as [response Hr].
      congruence.
Qed.

End Chat.

End Bot.

(** ** The claim on a small configuration *)

Definition toy_config : config :=
  Config 5 2 (lit "exp/model.ckpt") false (lit "gpt2@huggingface_llm").

(** The same configuration with a model type that has no ['@']. *)
Definition lr_config : config := Config 5 2 (lit "exp/model.ckpt") false (lit "lr").

Definition no_checkpoint (p : pystr) : bool := false.

Definition only_round_2 (p : pystr) : bool := bool_decide (p = lit "exp/2_model.ckpt").

(** Collaborators that return; a checkpoint is its path, a state dict with
    the keys [model] and [cur_round]. *)
Definition toy_get_tokenizer (_ : config) (_ : pystr) : res unit := Ok tt.
Definition toy_get_llm (_ : config) : res unit := Ok tt.
Definition toy_from_pretrained (_ : pystr) : res unit := Ok tt.
Definition toy_torch_load (ckpt_path : pystr) : res pystr := Ok ckpt_path.
Definition toy_cur_round_in (_ : pystr) : res bool := Ok true.
Definition toy_getitem_model (ckpt : pystr) : res pystr := Ok ckpt.
Definition toy_load_state_dict (_ : pystr) : res unit := Ok tt.
Definition toy_wrap (_ : config) (_ : option pystr) : res unit := Ok tt.
Definition toy_pipeline (_ : config) : res unit := Ok tt.

Definition toy_next_model (exists_ : pystr → bool) : config → FSChatBot → res FSChatBot :=
  next_model exists_ toy_get_tokenizer toy_get_llm toy_from_pretrained toy_torch_load
    toy_cur_round_in toy_getitem_model toy_load_state_dict toy_wrap toy_pipeline.

Definition toy_init (exists_ : pystr → bool) : config → bool → res FSChatBot :=
  __init__ exists_ toy_get_tokenizer toy_get_llm toy_from_pretrained toy_torch_load
    toy_cur_round_in toy_getitem_model toy_load_state_dict toy_wrap toy_pipeline.

Lemma toy_loaders_return :
  loaders_return toy_get_tokenizer toy_get_llm toy_from_pretrained toy_config.
Proof. exists (lit "gpt2"). by vm_compute. Qed.

Lemma toy_checkpoints_load (exists_ : pystr → bool) :
  checkpoints_load exists_ toy_torch_load toy_cur_round_in toy_getitem_model
    toy_load_state_dict toy_wrap toy_config.
Proof. intros ckpt_path _. by eexists. Qed.

Lemma toy_raw_model_loads : raw_model_loads toy_wrap toy_config.
Proof. by eexists. Qed.

Lemma init_probes_checkpoints_witness :
  init_prefix toy_config = [lit "final_"; lit "4_"; lit "2_"; lit "0_"; lit ""]
  ∧ toy_init only_round_2 toy_config false =
      Ok (Bot [lit "0_"; lit ""] (lit "exp") (lit "model.ckpt") (Some (lit "2_"))
            (StateDictFrom (lit "exp/2_model.ckpt")))
  ∧ toy_next_model no_checkpoint toy_config
      (Bot [lit ""] (lit "exp") (lit "model.ckpt") (Some (lit "0_"))
         (StateDictFrom (lit "exp/0_model.ckpt")))
    = Err (ValueError "No more model is able to us")
  ∧ toy_init only_round_2 lr_config false =
      Err (ValueError "not enough values to unpack (expected 2, got 1)").
Proof.
  split; [reflexivity|]. split; [|split].
  - destruct (init_probes_checkpoints only_round_2 toy_get_tokenizer toy_get_llm
                toy_from_pretrained toy_torch_load toy_cur_round_in toy_getitem_model
                toy_load_state_dict toy_wrap toy_pipeline toy_config)
      as (_ & _ & _ & Hfound & _); [vm_compute; discriminate|].
    destruct (Hfound toy_loaders_return
                [lit "final_"; lit "4_"] (lit "2_") [lit "0_"; lit ""]) as [Hok _].
    + reflexivity.
    + intros p Hp. apply list_elem_of_In in Hp.
      destruct Hp as [<-|[<-|[]]]; reflexivity.
    + reflexivity.
    + unfold toy_init. rewrite (Hok (StateDictFrom (lit "exp/2_model.ckpt"))); reflexivity.
  - destruct (init_probes_checkpoints no_checkpoint toy_get_tokenizer toy_get_llm
                toy_from_pretrained toy_torch_load toy_cur_round_in toy_getitem_model
                toy_load_state_dict toy_wrap toy_pipeline toy_config)
      as (_ & _ & _ & _ & _ & Hlast & _); [vm_compute; discriminate|].
    apply (Hlast toy_loaders_return); [simpl; lia|]. intros p _. reflexivity.
  - destruct (init_probes_checkpoints only_round_2 toy_get_tokenizer toy_get_llm
                toy_from_pretrained toy_torch_load toy_cur_round_in toy_getitem_model
                toy_load_state_dict toy_wrap toy_pipeline lr_config)
      as (_ & _ & _ & _ & _ & _ & Hunpack); [vm_compute; discriminate|].
    apply Hunpack. reflexivity.
Defined.

(** C7, as stated, fails: with no checkpoint file at all, and with a model
    type, a tokenizer, a model and a pipeline that load, the initialization
    raises nothing and the wrapper holds the raw model. *)
Lemma init_without_checkpoint_keeps_raw_model :
  (∀ p, p ∈ init_prefix toy_config →
        no_checkpoint (os_path_join (lit "exp") (p ++ lit "model.ckpt")) = false)
  ∧ toy_init no_checkpoint toy_config false =
      Ok (Bot [] (lit "exp") (lit "model.ckpt") None RawModel)
  ∧ ¬ ∃ e, toy_init no_checkpoint toy_config false = Err e.
Proof.
  split; [done|]. split; [vm_compute; reflexivity|].
  intros [e He]. vm_compute in He. discriminate He.
Qed.

(** ** The further properties on the small configuration *)

Definition toy_bot : FSChatBot :=
  Bot (init_prefix toy_config) (lit "exp") (lit "model.ckpt") None RawModel.

Lemma next_model_returns_first_existing_witness :
  ∃ self',
    toy_next_model only_round_2 toy_config toy_bot = Ok self'
    ∧ curpfx self' = Some (lit "2_")
    ∧ (length (prefix self') < length (prefix toy_bot))%nat.
Proof.
  destruct (toy_next_model only_round_2 toy_config toy_bot) as [self'|e] eqn:Hrun;
    [|vm_compute in Hrun; discriminate Hrun].
  destruct (next_model_returns_first_existing only_round_2 toy_get_tokenizer toy_get_llm
              toy_from_pretrained toy_torch_load toy_cur_round_in toy_getitem_model
              toy_load_state_dict toy_wrap toy_pipeline toy_config toy_bot self' Hrun)
    as (_ & _ & Hlen & _).
  exists self'. split; [reflexivity|]. split; [|exact Hlen].
  vm_compute in Hrun. injection Hrun as <-. reflexivity.
Defined.

(** [n] calls of [next_model] with the collaborators that return. *)
Definition toy_next_models (exists_ : pystr → bool)
  : config → nat → FSChatBot → res FSChatBot :=
  next_models exists_ toy_get_tokenizer toy_get_llm toy_from_pretrained toy_torch_load
    toy_cur_round_in toy_getitem_model toy_load_state_dict toy_wrap toy_pipeline.

Lemma next_model_runs_out_witness :
  toy_next_models only_round_2 toy_config 6 toy_bot =
    Err (ValueError "No more model is able to us")
  ∧ toy_next_models only_round_2 lr_config 6 toy_bot =
      Err (ValueError "not enough values to unpack (expected 2, got 1)").
Proof.
  split.
  - destruct (next_model_runs_out only_round_2 toy_get_tokenizer toy_get_llm
                toy_from_pretrained toy_torch_load toy_cur_round_in toy_getitem_model
                toy_load_state_dict toy_wrap toy_pipeline toy_config 6 toy_bot)
      as (_ & Hlast & _); [vm_compute; lia|].
    apply Hlast.
    + exact toy_loaders_return.
    + reflexivity.
    + apply toy_checkpoints_load.
    + exact toy_raw_model_loads.
  - destruct (next_model_runs_out only_round_2 toy_get_tokenizer toy_get_llm
                toy_from_pretrained toy_torch_load toy_cur_round_in toy_getitem_model
                toy_load_state_dict toy_wrap toy_pipeline lr_config 6 toy_bot)
      as (_ & _ & Hunpack); [vm_compute; lia|].
    apply Hunpack. reflexivity.
Defined.

Lemma init_prefix_distinct_witness :
  NoDup (init_prefix toy_config) ∧ length (init_prefix toy_config) = 5%nat.
Proof.
  destruct (init_prefix_distinct toy_config) as (Hnd & Hlen & _).
  - vm_compute. discriminate.
  - split; [exact Hnd|]. rewrite Hlen. reflexivity.
Defined.

Lemma init_outcomes_witness :
  (∃ bot, toy_init no_checkpoint toy_config false = Ok bot)
  ∧ toy_init only_round_2 toy_config true = Err TypeError_str_plus_int
  ∧ toy_init only_round_2 lr_config true =
      Err (ValueError "not enough values to unpack (expected 2, got 1)").
Proof.
  split; [|split].
  - destruct (init_outcomes no_checkpoint toy_get_tokenizer toy_get_llm
                toy_from_pretrained toy_torch_load toy_cur_round_in toy_getitem_model
                toy_load_state_dict toy_wrap toy_pipeline toy_config) as [Hinit _].
    + vm_compute. discriminate.
    + destruct Hinit as (bot & Hbot & _).
      * exact toy_loaders_return.
      * reflexivity.
      * apply toy_checkpoints_load.
      * exact toy_raw_model_loads.
      * by exists bot.
  - destruct (init_outcomes only_round_2 toy_get_tokenizer toy_get_llm
                toy_from_pretrained toy_torch_load toy_cur_round_in toy_getitem_model
                toy_load_state_dict toy_wrap toy_pipeline toy_config)
      as (_ & _ & Hraw & _).
    + vm_compute. discriminate.
    + apply (Hraw (lit "gpt2")); reflexivity.
  - destruct (init_outcomes only_round_2 toy_get_tokenizer toy_get_llm
                toy_from_pretrained toy_torch_load toy_cur_round_in toy_getitem_model
                toy_load_state_dict toy_wrap toy_pipeline lr_config)
      as (_ & _ & _ & Hunpack).
    + vm_compute. discriminate.
    + apply Hunpack. reflexivity.
Defined.

(** A model that answers every prompt by repeating it with an exclamation
    mark. *)
Definition toy_encode (s : pystr) : list Z := Z.of_N <$> s.
Definition toy_decode (ids : list Z) : pystr := Z.to_N <$> ids.
Definition toy_chat_generate (ids : list Z) (_ : Z) : res (list Z) := Ok (ids ++ [33]).
Definition toy_chat_prompt (t : pystr) : pystr := lit "Q:" ++ t.

Definition toy_session : session := Session (Chat [] 0 0) [].

Definition toy_main : config → list pystr → M session (list pystr) :=
  main only_round_2 toy_get_tokenizer toy_get_llm toy_from_pretrained toy_torch_load
    toy_cur_round_in toy_getitem_model toy_load_state_dict toy_wrap toy_pipeline
    toy_encode toy_decode toy_chat_generate toy_chat_prompt 1 16.

Lemma main_stops_at_quit_witness :
  ∃ s',
    toy_main toy_config [lit "hi"; lit " quit "; lit "more"] toy_session
      = (Ok [lit "more"], s')
    ∧ terminal s' = [PrintWelcome; AskUser; PrintReply (lit "!"); AskUser]
    ∧ length (history (bot s')) = 2%nat.
Proof.
  destruct (main_stops_at_quit only_round_2 toy_get_tokenizer toy_get_llm
              toy_from_pretrained toy_torch_load toy_cur_round_in toy_getitem_model
              toy_load_state_dict toy_wrap toy_pipeline
              toy_encode toy_decode toy_chat_generate toy_chat_prompt 1 16
              toy_config [lit "hi"] [lit "more"] (lit " quit ") toy_session)
    as (s' & [[Hrun _]|(e & Hrun & _)]).
  - repeat constructor. vm_compute. discriminate.
  - vm_compute. reflexivity.
  - exists s'. split; [exact Hrun|].
    apply (f_equal snd) in Hrun. vm_compute in Hrun. rewrite <- Hrun.
    split; reflexivity.
  - apply (f_equal fst) in Hrun. vm_compute in Hrun. discriminate Hrun.
Defined.

Lemma chat_loop_without_quit_witness :
  ∃ s',
    chat_loop toy_encode toy_decode toy_chat_generate toy_chat_prompt
      [lit "hi"; lit "clear"] toy_session = (Err EOFError, s')
    ∧ last (terminal s') = Some AskUser.
Proof.
  destruct (chat_loop_without_quit toy_encode toy_decode toy_chat_generate toy_chat_prompt
              [lit "hi"; lit "clear"] toy_session) as (e & s' & Hrun & Heof).
  - repeat constructor; vm_compute; discriminate.
  - destruct Heof as [-> Hlast].
    + intros ids n. by eexists.
    + by exists s'.
Defined.

End FSChat.

(** * The summarization evaluation ([eval_for_tldr/eval_summarization.py]) *)

Module EvalSummarization.

Section Eval.

Set Default Proof Using "Type".

(** The value of [scorer.score] and of [aggregator.aggregate] (the ROUGE
    library is outside this development), and the state of what [main]
    works on besides its own data and output files: the configuration, the
    model, the files of the data directory, the terminal of the
    collaborators. *)
Context {score_t report_t O : Type}.

(** A test item: a [dict] with the keys [subreddit], [title], [post],
    [summary] and, once the loop has handled it, [completion] and [score]. *)
Record sample := Sample {
  subreddit : pystr;
  title : pystr;
  post : pystr;
  summary : pystr;
  completion : option pystr;
  score : option score_t
}.

(** What is written to [results_display]: the report of an item (an
    f-string of the six fields of the item), the separator line, the
    aggregate report. *)
Inductive chunk :=
  | ItemReport (s : sample)
  | Separator
  | AggregateReport (result : report_t).

(** The items of [list_data_dict] by position (the batches that
    [get_input_data] yields are slices of this list and share its items),
    the content of the results file and of [summarization.json] ([None]: the
    file does not exist), the exceptions that
    [print(f'{err}, so finished all evaluations....')] has reported, and the
    state that the statements before the [try] work on. *)
Record world := World {
  list_data_dict : list sample;
  results_display : option (list chunk);
  summarization_json : option (list sample);
  stdout : list exn;
  outside : O
}.

(** ** External collaborators *)

(** [prompt.format_map(data)]. *)
Variable prompt_format_map : sample → res pystr.

(** [fschatbot.generate(input_texts, generate_kwargs)], where
    [generate_kwargs] is fixed but for [max_new_tokens]. *)
Variable fschatbot_generate : list pystr → Z → res (list (list pystr)).
Variable llm_max_new_token : Z.

(** [scorer.score(target, prediction)]. *)
Variable scorer_score : pystr → pystr → res score_t.

(** [aggregator.aggregate()] after the [add_scores] of the given scores. *)
Variable aggregator_aggregate : list score_t → res report_t.

(** [open(results_display, 'w')]: whether the results file can be created. *)
Variable open_results_display : res unit.

(** The statements of [main] before its [try], each of which changes the
    state outside and returns or raises: the configuration (the clone of
    the global configuration, the parsing and merging of the arguments, the
    logger, the seed, the freeze), [FSChatBot(init_cfg)],
    [os.path.exists(path)], [download_url(url, root)], [os.rename(src, dst)]
    and [load_jsonl(path, subreddit=..., title=..., post=..., summary=...)];
    [data_root] is [init_cfg.data.root]. *)
Variable data_root : pystr.
Variable configure : M O unit.
Variable new_FSChatBot : M O unit.
Variable os_path_exists : pystr → O → bool.
Variable download_url : pystr → pystr → M O unit.
Variable os_rename : pystr → pystr → M O unit.
Variable load_jsonl : pystr → M O (list sample).

(** [isinstance(err, Exception)]: the classes that [except Exception]
    catches.  [KeyboardInterrupt], [SystemExit] and [GeneratorExit] are not
    among them. *)
Variable is_Exception : exn → bool.

(** ** The statements before the [try] *)

(** A collaborator at work on the state outside. *)
Definition on_outside {A} (m : M O A) : M world A := λ st,
  let '(r, o) := m (outside st) in
  (r, World (list_data_dict st) (results_display st) (summarization_json st)
        (stdout st) o).

Definition test_url : pystr :=
  lit "https://openaipublic.blob.core.windows.net/"
  ++ lit "summarize-from-feedback/datasets/"
  ++ lit "tldr_3_filtered/test.jsonl".

(** [os.path.join(init_cfg.data.root, 'reddit-tldr_test.jsonl')]. *)
Definition test_file : pystr := os_path_join data_root (lit "reddit-tldr_test.jsonl").

(** The statements of [main] before its [try]: the configuration, the
    construction of the bot, the download of the test file when it is not
    there, and the [load_jsonl] that assigns [list_data_dict]. *)
Definition setup : M world unit :=
  _ ← on_outside configure;
  _ ← on_outside new_FSChatBot;
  present ← gets (λ st, os_path_exists test_file (outside st));
  _ ← (if present : bool then mret tt
       else
         _ ← on_outside (download_url test_url data_root);
         on_outside (os_rename (os_path_join data_root (lit "test.jsonl")) test_file));
  data ← on_outside (load_jsonl test_file);
  modify (λ st, World data (results_display st) (summarization_json st) (stdout st)
                  (outside st)).

(** ** The loop *)

(** [range(0, stop, step)] for [step >= 1]. *)
Definition range_step (stop step : nat) : list nat :=
  (λ k, k * step)%nat <$> seq 0 (Nat.div (stop + step - 1) step).

(** [get_input_data(list_data_dict, w)] yields
    [list_data_dict[left:left + w]] for these values of [left]. *)
Definition get_input_data (len w : nat) : list nat := range_step len w.

(** [model_completions[i][0]]. *)
Definition first_completion (model_completions : list (list pystr)) (i : nat)
  : res pystr :=
  match model_completions !! i with
  | None => Err (IndexError "list index out of range")
  | Some c =>
      match c !! 0%nat with
      | None => Err (IndexError "list index out of range")
      | Some text => Ok text
      end
  end.

Definition read_sample (idx : nat) : M world sample := λ st,
  match list_data_dict st !! idx with
  | Some s => (Ok s, st)
  | None => (Err (IndexError "list index out of range"), st)
  end.

Definition update_sample (idx : nat) (f : sample → sample) : M world unit :=
  modify (λ st, World (alter f idx (list_data_dict st)) (results_display st)
                  (summarization_json st) (stdout st) (outside st)).

(** [results_display.write(...)], made durable by the [flush] that follows
    each item. *)
Definition write_display (c : chunk) : M world unit :=
  modify (λ st, World (list_data_dict st) ((λ cs, cs ++ [c]) <$> results_display st)
                  (summarization_json st) (stdout st) (outside st)).

Definition set_completion (text : pystr) (s : sample) : sample :=
  Sample (subreddit s) (title s) (post s) (summary s) (Some text) (score s).

Definition set_score (sc : score_t) (s : sample) : sample :=
  Sample (subreddit s) (title s) (post s) (summary s) (completion s) (Some sc).

(** The body of the inner loop, for the item at position [idx] of
    [list_data_dict], which is the item [i] of its batch; [scores] is the list
    of the scores so far, which the aggregator has received too. *)
Definition process_sample (model_completions : list (list pystr)) (left : nat)
    (scores : list score_t) (i : nat) : M world (list score_t) :=
  let idx := (left + i)%nat in
  text ← lift (first_completion model_completions i);
  _ ← update_sample idx (set_completion text);
  s ← read_sample idx;
  sc ← lift (scorer_score (summary s) text);
  _ ← update_sample idx (set_score sc);
  s ← read_sample idx;
  _ ← write_display (ItemReport s);
  _ ← write_display Separator;
  mret (scores ++ [sc]).

(** The body of the outer loop, for the batch that starts at [left]. *)
Definition process_batch (w : nat) (scores : list score_t) (left : nat)
  : M world (list score_t) :=
  input_data ← gets (λ st, take w (drop left (list_data_dict st)));
  input_texts ← lift (for_each prompt_format_map input_data);
  model_completions ← lift (fschatbot_generate input_texts llm_max_new_token);
  fold_M (process_sample model_completions left) scores (seq 0 (length input_data)).

(** The body of the [try] statement of [main]. *)
Definition evaluation : M world unit :=
  _ ← lift open_results_display;
  _ ← modify (λ st, World (list_data_dict st) (Some []) (summarization_json st) (stdout st) (outside st));
  len ← gets (λ st, length (list_data_dict st));
  scores ← fold_M (process_batch 1) [] (get_input_data len 1);
  _ ← modify (λ st, World (list_data_dict st) (results_display st)
                     (Some (list_data_dict st)) (stdout st) (outside st));
  result ← lift (aggregator_aggregate scores);
  write_display (AggregateReport result).

(** [main]: the statements before the [try], then the [try] statement with
    its clause [except Exception as err]. *)
Definition main : M world unit :=
  _ ← setup;
  try_except is_Exception evaluation
    (λ err, modify (λ st, World (list_data_dict st) (results_display st)
                            (summarization_json st) (stdout st ++ [err]) (outside st))).

(** ** One item *)

(** What the two loops compute for the item [s] when it is a batch of its
    own: its completion and its score, or the exception of the first step
    that raises. *)
Definition item_run (s : sample) : res (pystr * score_t) :=
  input_texts ← for_each prompt_format_map [s];
  model_completions ← fschatbot_generate input_texts llm_max_new_token;
  text ← first_completion model_completions 0;
  sc ← scorer_score (summary s) text;
  Ok (text, sc).

(** The item once it is handled. *)
Definition item_done (s : sample) : sample :=
  match item_run s with
  | Ok (text, sc) => set_score sc (set_completion text s)
  | Err _ => s
  end.

Definition item_scores (items : list sample) : list score_t :=
  s ← items; match item_run s with Ok (_, sc) => [sc] | Err _ => [] end.

(** What the loop writes to the results file for [items]. *)
Definition item_reports (items : list sample) : list chunk :=
  s ← items; [ItemReport (item_done s); Separator].

Lemma range_step_1 (n : nat) : range_step n 1 = seq 0 n.
Proof.
  unfold range_step. replace (n + 1 - 1)%nat with n by lia.
  rewrite Nat.div_1_r. rewrite <- (list_fmap_id (seq 0 n)) at 2.
  apply list_fmap_ext. intros _ k _. simpl. lia.
Qed.

Lemma fold_M_app {A S} (body : S → A → M world S) (acc : S) (xs ys : list A) (st : world) :
  fold_M body acc (xs ++ ys) st =
  match fold_M body acc xs st with
  | (Ok acc', st') => fold_M body acc' ys st'
  | (Err e, st') => (Err e, st')
  end.
Proof.
  revert acc st. induction xs as [|x xs IH]; intros acc st; simpl; [done|].
  unfold mbind, M_bind. destruct (body acc x st) as [[acc'|e] st']; [|done].
  apply IH.
Qed.

Lemma alter_middle {A} (f : A → A) (pre post : list A) (x : A) :
  alter f (length pre) (pre ++ x :: post) = pre ++ f x :: post.
Proof. induction pre as [|y pre IH]; simpl; [done|]. by f_equal. Qed.

Lemma batch_of_one (pre post : list sample) (s : sample) :
  take 1 (drop (length pre) (pre ++ s :: post)) = [s].
Proof. by rewrite drop_app_length. Qed.

Lemma process_batch_Ok (pre post : list sample) (s : sample) (cs : list chunk)
    (scores : list score_t) (text : pystr) (sc : score_t) (st : world) :
  list_data_dict st = pre ++ s :: post →
  results_display st = Some cs →
  item_run s = Ok (text, sc) →
  process_batch 1 scores (length pre) st =
    (Ok (scores ++ [sc]),
     World (pre ++ set_score sc (set_completion text s) :: post)
       (Some (cs ++ [ItemReport (set_score sc (set_completion text s)); Separator]))
       (summarization_json st) (stdout st) (outside st)).
Proof.
  intros Hdata Hdisp Hrun. unfold item_run in Hrun.
  unfold process_batch, mbind at 1, M_bind at 1, gets.
  rewrite Hdata, batch_of_one.
  unfold mbind at 1, M_bind at 1, lift.
  destruct (for_each prompt_format_map [s]) as [texts|e]; [|done].
  unfold mbind at 1, M_bind at 1. simpl in Hrun.
  destruct (fschatbot_generate texts llm_max_new_token) as [comps|e]; [|done].
  simpl in Hrun. cbn [length seq fold_M].
  unfold process_sample, mbind, M_bind, lift, mret, M_ret.
  destruct (first_completion comps 0) as [text'|e]; [|done]. simpl in Hrun.
  unfold update_sample, read_sample, write_display, modify. cbn [list_data_dict].
  rewrite Hdata. rewrite Nat.add_0_r.
  rewrite alter_middle, list_lookup_middle by done. cbn [summary set_completion].
  destruct (scorer_score (summary s) text') as [sc'|e]; [|done].
  injection Hrun as -> ->.
  cbn [list_data_dict results_display summarization_json stdout outside].
  rewrite alter_middle, list_lookup_middle by done.
  rewrite Hdisp. simpl. by rewrite <- app_assoc.
Qed.

Lemma process_batch_Err (pre post : list sample) (s : sample)
    (scores : list score_t) (e : exn) (st : world) :
  list_data_dict st = pre ++ s :: post →
  item_run s = Err e →
  ∃ s', process_batch 1 scores (length pre) st =
          (Err e, World (pre ++ s' :: post) (results_display st)
                    (summarization_json st) (stdout st) (outside st)).
Proof.
  intros Hdata Hrun. unfold item_run in Hrun.
  unfold process_batch, mbind at 1, M_bind at 1, gets.
  rewrite Hdata, batch_of_one.
  unfold mbind at 1, M_bind at 1, lift.
  destruct (for_each prompt_format_map [s]) as [texts|e'].
  2:{ injection Hrun as ->. exists s. by rewrite <- Hdata; destruct st. }
  unfold mbind at 1, M_bind at 1. simpl in Hrun.
  destruct (fschatbot_generate texts llm_max_new_token) as [comps|e'].
  2:{ injection Hrun as ->. exists s. by rewrite <- Hdata; destruct st. }
  simpl in Hrun. cbn [length seq fold_M].
  unfold process_sample, mbind, M_bind, lift, mret, M_ret.
  destruct (first_completion comps 0) as [text'|e'].
  2:{ injection Hrun as ->. exists s. by rewrite <- Hdata; destruct st. }
  simpl in Hrun.
  unfold update_sample, read_sample, write_display, modify. cbn [list_data_dict].
  rewrite Hdata. rewrite Nat.add_0_r.
  rewrite alter_middle, list_lookup_middle by done. cbn [summary set_completion].
  destruct (scorer_score (summary s) text') as [sc'|e']; [done|].
  injection Hrun as ->. by eexists.
Qed.

(** ** The loop over the items *)

Lemma item_reports_cons (s : sample) (items : list sample) :
  item_reports (s :: items) = ItemReport (item_done s) :: Separator :: item_reports items.
Proof. reflexivity. Qed.

Lemma item_reports_length (items : list sample) :
  length (item_reports items) = (2 * length items)%nat.
Proof.
  induction items as [|s items IH]; [done|].
  rewrite item_reports_cons. cbn [length]. lia.
Qed.

Lemma loop_Ok (items : list sample) :
  ∀ (pre post : list sample) (cs : list chunk) (scores : list score_t) (st : world),
    list_data_dict st = pre ++ items ++ post →
    results_display st = Some cs →
    Forall (λ s, ∃ r, item_run s = Ok r) items →
    fold_M (process_batch 1) scores (seq (length pre) (length items)) st =
      (Ok (scores ++ item_scores items),
       World (pre ++ (item_done <$> items) ++ post) (Some (cs ++ item_reports items))
         (summarization_json st) (stdout st) (outside st)).
Proof.
  induction items as [|s items IH]; intros pre post cs scores st Hdata Hdisp Hok.
  - simpl. rewrite !app_nil_r. destruct st; simpl in *. by subst.
  - inversion Hok as [|? ? [[text sc] Hs] Hok']; subst.
    cbn [length seq fold_M]. unfold mbind, M_bind.
    rewrite (process_batch_Ok pre (items ++ post) s cs scores text sc st Hdata Hdisp Hs).
    specialize (IH (pre ++ [set_score sc (set_completion text s)]) post
                  (cs ++ [ItemReport (set_score sc (set_completion text s)); Separator])
                  (scores ++ [sc])).
    rewrite length_app in IH. simpl in IH. rewrite Nat.add_1_r in IH.
    rewrite IH; [|by rewrite <- app_assoc|done|done].
    unfold item_scores, item_reports, item_done. simpl. rewrite Hs.
    cbn [summarization_json stdout outside]. by rewrite <- !app_assoc.
Qed.

(** ** The item that fails *)

(** The completion that the loop stores for the item [s] when it is a batch
    of its own, or the exception of the formatting, the generation or the
    indexing. *)
Definition item_completion (s : sample) : res pystr :=
  input_texts ← for_each prompt_format_map [s];
  model_completions ← fschatbot_generate input_texts llm_max_new_token;
  first_completion model_completions 0.

Lemma item_run_completion (s : sample) :
  item_run s =
  match item_completion s with
  | Ok text => sc ← scorer_score (summary s) text; Ok (text, sc)
  | Err e => Err e
  end.
Proof.
  unfold item_run, item_completion.
  destruct (for_each prompt_format_map [s]) as [texts|e]; [|done]. cbn [mbind res_bind].
  destruct (fschatbot_generate texts llm_max_new_token) as [comps|e]; [|done].
  cbn [mbind res_bind]. by destruct (first_completion comps 0).
Qed.

Lemma process_batch_Err_item (pre post : list sample) (s : sample)
    (scores : list score_t) (e : exn) (st : world) :
  list_data_dict st = pre ++ s :: post →
  item_run s = Err e →
  process_batch 1 scores (length pre) st =
    (Err e,
     World (pre ++ match item_completion s with
                   | Ok text => set_completion text s
                   | Err _ => s
                   end :: post)
       (results_display st) (summarization_json st) (stdout st) (outside st)).
Proof.
  intros Hdata Hrun. rewrite item_run_completion in Hrun. unfold item_completion in *.
  unfold process_batch, mbind at 1, M_bind at 1, gets.
  rewrite Hdata, batch_of_one.
  unfold mbind at 1, M_bind at 1, lift.
  destruct (for_each prompt_format_map [s]) as [texts|e'].
  2:{ injection Hrun as ->. cbn [mbind res_bind]. by rewrite <- Hdata; destruct st. }
  unfold mbind at 1, M_bind at 1. cbn [mbind res_bind] in Hrun |- *.
  destruct (fschatbot_generate texts llm_max_new_token) as [comps|e'].
  2:{ injection Hrun as ->. cbn [mbind res_bind]. by rewrite <- Hdata; destruct st. }
  cbn [mbind res_bind] in Hrun |- *. cbn [length seq fold_M].
  unfold process_sample, mbind, M_bind, lift, mret, M_ret.
  destruct (first_completion comps 0) as [text'|e'].
  2:{ injection Hrun as ->. cbn [mbind res_bind]. by rewrite <- Hdata; destruct st. }
  unfold update_sample, read_sample, write_display, modify. cbn [list_data_dict].
  rewrite Hdata. rewrite Nat.add_0_r.
  rewrite alter_middle, list_lookup_middle by done. cbn [summary set_completion].
  unfold res_bind in Hrun.
  destruct (scorer_score (summary s) text') as [sc'|e']; [done|].
  by injection Hrun as ->.
Qed.

(** ** The runs of [main] *)

(** The statements before the [try] touch neither the results file nor
    [summarization.json], print nothing of the report of [main], and assign
    [list_data_dict] only when they all return. *)
Lemma setup_frame (st st1 : world) (r : res unit) :
  setup st = (r, st1) →
  results_display st1 = results_display st
  ∧ summarization_json st1 = summarization_json st
  ∧ stdout st1 = stdout st
  ∧ (∀ e, r = Err e → list_data_dict st1 = list_data_dict st).
Proof.
  unfold setup, mbind, M_bind, on_outside, gets, modify, mret, M_ret.
  cbn [list_data_dict results_display summarization_json stdout outside].
  destruct (configure (outside st)) as [[[]|e1] o1];
    [|intros [= <- <-]; by cbn].
  cbn [list_data_dict results_display summarization_json stdout outside].
  destruct (new_FSChatBot o1) as [[[]|e2] o2];
    [|intros [= <- <-]; by cbn].
  cbn [list_data_dict results_display summarization_json stdout outside].
  destruct (os_path_exists test_file o2).
  - cbn [list_data_dict results_display summarization_json stdout outside].
    destruct (load_jsonl test_file o2) as [[data|e5] o5]; intros [= <- <-]; by cbn.
  - cbn [list_data_dict results_display summarization_json stdout outside].
    destruct (download_url test_url data_root o2) as [[[]|e3] o3];
      [|intros [= <- <-]; by cbn].
    cbn [list_data_dict results_display summarization_json stdout outside].
    destruct (os_rename _ test_file o3) as [[[]|e4] o4];
      [|intros [= <- <-]; by cbn].
    cbn [list_data_dict results_display summarization_json stdout outside].
    destruct (load_jsonl test_file o4) as [[data|e5] o5]; intros [= <- <-]; by cbn.
Qed.

Lemma main_setup_Err (st st1 : world) (e : exn) :
  setup st = (Err e, st1) → main st = (Err e, st1).
Proof. intros Hsetup. unfold main, mbind, M_bind. by rewrite Hsetup. Qed.

Lemma main_run (st st0 : world) :
  setup st = (Ok tt, st0) →
  main st =
  match evaluation st0 with
  | (Ok a, st') => (Ok a, st')
  | (Err e, st') =>
      if is_Exception e
      then (Ok tt, World (list_data_dict st') (results_display st') (summarization_json st')
                     (stdout st' ++ [e]) (outside st'))
      else (Err e, st')
  end.
Proof.
  intros Hsetup. unfold main, mbind, M_bind. rewrite Hsetup.
  unfold try_except, modify. destruct (evaluation st0) as [[a|e] st']; [done|].
  by destruct (is_Exception e).
Qed.

(** An exception with which the body of the [try] ends in the world [st']:
    the clause catches and reports it, or lets it out of [main]. *)
Lemma main_run_Err (st st0 st' : world) (e : exn) :
  setup st = (Ok tt, st0) →
  evaluation st0 = (Err e, st') →
  main st =
    (if is_Exception e then Ok tt else Err e,
     World (list_data_dict st') (results_display st') (summarization_json st')
       (if is_Exception e then stdout st' ++ [e] else stdout st') (outside st')).
Proof.
  intros Hsetup Hrun. rewrite (main_run st st0 Hsetup), Hrun.
  destruct (is_Exception e); [done|]. by destruct st'.
Qed.

Lemma evaluation_run (st : world) :
  open_results_display = Ok tt →
  evaluation st =
  match fold_M (process_batch 1) [] (seq 0 (length (list_data_dict st)))
          (World (list_data_dict st) (Some []) (summarization_json st) (stdout st)
             (outside st)) with
  | (Err e, st1) => (Err e, st1)
  | (Ok scores, st1) =>
      match aggregator_aggregate scores with
      | Err e =>
          (Err e, World (list_data_dict st1) (results_display st1)
                    (Some (list_data_dict st1)) (stdout st1) (outside st1))
      | Ok result =>
          (Ok tt, World (list_data_dict st1)
                    ((λ cs, cs ++ [AggregateReport result]) <$> results_display st1)
                    (Some (list_data_dict st1)) (stdout st1) (outside st1))
      end
  end.
Proof.
  intros Hopen. unfold evaluation.
  unfold mbind at 1, M_bind at 1, lift. rewrite Hopen.
  unfold mbind at 1, M_bind at 1, modify at 1.
  unfold mbind at 1, M_bind at 1, gets at 1.
  unfold mbind at 1, M_bind at 1.
  unfold get_input_data. rewrite range_step_1. cbn [list_data_dict].
  destruct (fold_M _ _ _ _) as [[scores|e] st1]; [|done].
  unfold mbind, M_bind, modify, lift, write_display, modify.
  cbn [list_data_dict results_display summarization_json stdout outside].
  by destruct (aggregator_aggregate scores).
Qed.

Lemma evaluation_open_Err (st : world) (e : exn) :
  open_results_display = Err e → evaluation st = (Err e, st).
Proof.
  intros Hopen. unfold evaluation. unfold mbind at 1, M_bind at 1, lift.
  by rewrite Hopen.
Qed.

(** The body of the [try] when an item raises. *)
Lemma evaluation_item_Err (st : world) (handled rest : list sample) (failing : sample)
    (e : exn) :
  open_results_display = Ok tt →
  list_data_dict st = handled ++ failing :: rest →
  Forall (λ s, ∃ r, item_run s = Ok r) handled →
  item_run failing = Err e →
  evaluation st =
    (Err e,
     World ((item_done <$> handled)
            ++ match item_completion failing with
               | Ok text => set_completion text failing
               | Err _ => failing
               end :: rest)
       (Some (item_reports handled)) (summarization_json st) (stdout st) (outside st)).
Proof.
  intros Hopen Hdata Hok Hfail. rewrite (evaluation_run st Hopen).
  pose proof (loop_Ok handled [] (failing :: rest) [] []
                (World (list_data_dict st) (Some []) (summarization_json st) (stdout st)
                   (outside st))
                Hdata eq_refl Hok) as Hloop.
  cbn [length app list_data_dict results_display summarization_json stdout outside]
    in Hloop.
  rewrite Hdata in Hloop |- *. rewrite length_app. cbn [length].
  rewrite seq_app, fold_M_app, Hloop.
  cbn [seq fold_M]. unfold mbind at 1, M_bind at 1. rewrite Nat.add_0_l.
  pose proof (process_batch_Err_item (item_done <$> handled) rest failing
                (item_scores handled) e
                (World ((item_done <$> handled) ++ failing :: rest)
                   (Some (item_reports handled)) (summarization_json st) (stdout st)
                   (outside st))
                eq_refl Hfail) as Hbatch.
  rewrite length_fmap in Hbatch. by rewrite Hbatch.
Qed.

(** The body of the [try] when no item raises. *)
Lemma evaluation_items_Ok (st : world) :
  open_results_display = Ok tt →
  Forall (λ s, ∃ r, item_run s = Ok r) (list_data_dict st) →
  evaluation st =
    match aggregator_aggregate (item_scores (list_data_dict st)) with
    | Ok result =>
        (Ok tt,
         World (item_done <$> list_data_dict st)
           (Some (item_reports (list_data_dict st) ++ [AggregateReport result]))
           (Some (item_done <$> list_data_dict st)) (stdout st) (outside st))
    | Err e =>
        (Err e,
         World (item_done <$> list_data_dict st)
           (Some (item_reports (list_data_dict st)))
           (Some (item_done <$> list_data_dict st)) (stdout st) (outside st))
    end.
Proof.
  intros Hopen Hok. rewrite (evaluation_run st Hopen).
  pose proof (loop_Ok (list_data_dict st) [] [] [] []
                (World (list_data_dict st) (Some []) (summarization_json st) (stdout st)
                   (outside st)))
    as Hloop.
  cbn [length app list_data_dict results_display summarization_json stdout outside]
    in Hloop.
  rewrite app_nil_r in Hloop. rewrite (Hloop eq_refl eq_refl Hok).
  rewrite app_nil_r. by destruct (aggregator_aggregate _).
Qed.

Lemma item_reports_no_aggregate (items : list sample) (result : report_t) :
  AggregateReport result ∉ item_reports items.
Proof.
  intros Hin. unfold item_reports in Hin.
  apply list_elem_of_bind in Hin as (s & Hin & _).
  apply list_elem_of_In in Hin. simpl in Hin.
  destruct Hin as [Hin|[Hin|[]]]; discriminate Hin.
Qed.

(** C8 (amended).  Once the statements before it have returned, the [try]
    statement that ends [main] lets out only what is not an instance of
    [Exception]: [main] returns normally, or it raises an exception that
    its clause [except Exception] does not catch.  When the results file
    can be opened and an item raises in the scoring loop (in the formatting
    of its prompt, the generation, the indexing of the completions or the
    scoring) after the items before it were handled, the exception is caught
    and reported on the standard output if it is an instance of
    [Exception], and [main] returns normally; otherwise it leaves [main]
    and nothing is reported.  In both cases the results file holds the
    reports of the items handled before, written and flushed as the loop
    went, and nothing else: the aggregate report is not written, and
    [summarization.json] is not written either.  Only when no item raises
    and the aggregation succeeds are the JSON file and the aggregate report
    written. *)
Theorem main_catches_and_keeps_flushed_reports (st st0 : world) :
  setup st = (Ok tt, st0) →
  ((∃ st', main st = (Ok tt, st'))
   ∨ (∃ e st', main st = (Err e, st') ∧ is_Exception e = false))
  ∧ (∀ handled failing rest e,
       open_results_display = Ok tt →
       list_data_dict st0 = handled ++ failing :: rest →
       Forall (λ s, ∃ r, item_run s = Ok r) handled →
       item_run failing = Err e →
       ∃ failing',
         main st =
           (if is_Exception e then Ok tt else Err e,
            World ((item_done <$> handled) ++ failing' :: rest)
              (Some (item_reports handled))
              (summarization_json st0)
              (if is_Exception e then stdout st0 ++ [e] else stdout st0)
              (outside st0))
         ∧ (∀ result, AggregateReport result ∉ item_reports handled)
         ∧ length (item_reports handled) = (2 * length handled)%nat)
  ∧ (∀ result,
       open_results_display = Ok tt →
       Forall (λ s, ∃ r, item_run s = Ok r) (list_data_dict st0) →
       aggregator_aggregate (item_scores (list_data_dict st0)) = Ok result →
       main st =
         (Ok tt,
          World (item_done <$> list_data_dict st0)
            (Some (item_reports (list_data_dict st0) ++ [AggregateReport result]))
            (Some (item_done <$> list_data_dict st0))
            (stdout st0) (outside st0))).
Proof.
  intros Hsetup. split; [|split].
  - rewrite (main_run st st0 Hsetup).
    destruct (evaluation st0) as [[[]|e] st']; [left; by eexists|].
    destruct (is_Exception e) eqn:He; [left; by eexists|].
    right. by exists e, st'.
  - intros handled failing rest e Hopen Hdata Hok Hfail.
    eexists. split; [|split].
    + rewrite (main_run_Err st st0 _ e Hsetup
                 (evaluation_item_Err st0 handled rest failing e Hopen Hdata Hok Hfail)).
      reflexivity.
    + intros result. apply item_reports_no_aggregate.
    + apply item_reports_length.
  - intros result Hopen Hok Hagg.
    rewrite (main_run st st0 Hsetup), (evaluation_items_Ok st0 Hopen Hok).
    by rewrite Hagg.
Qed.

(** * Further properties of the evaluation *)

(** ** The batches of [get_input_data] *)

Lemma chunks_concat (w m : nat) (l : list sample) :
  (length l ≤ m * w)%nat →
  concat ((λ left, take w (drop left l)) <$> ((λ k, k * w)%nat <$> seq 0 m)) = l.
Proof.
  revert l. induction m as [|m IH]; intros l Hlen.
  - destruct l; [done|]. cbn in Hlen. lia.
  - cbn [seq fmap list_fmap concat]. rewrite <- fmap_S_seq.
    change (list_fmap _ _ ?f ?l) with (f <$> l).
    rewrite <- !list_fmap_compose. cbn [Nat.mul drop].
    transitivity (take w l ++ drop w l); [|apply take_drop]. f_equal.
    transitivity (concat ((λ left, take w (drop left (drop w l))) <$>
                          ((λ k, k * w)%nat <$> seq 0 m))).
    + rewrite <- list_fmap_compose. f_equal. apply list_fmap_ext.
      intros _ k _. unfold compose. cbn [Nat.mul]. by rewrite drop_drop.
    + apply IH. rewrite length_drop. lia.
Qed.

Lemma range_step_bounds (n w : nat) :
  (1 ≤ w)%nat →
  (n ≤ Nat.div (n + w - 1) w * w)%nat
  ∧ ∀ k, (k < Nat.div (n + w - 1) w)%nat → (k * w < n)%nat.
Proof.
  intros Hw.
  pose proof (Nat.div_mod_eq (n + w - 1) w) as Hdm.
  pose proof (Nat.mod_upper_bound (n + w - 1) w) as Hmod.
  split; [nia|]. intros k Hk. nia.
Qed.

(** X22.  [get_input_data(list_data_dict, w)] for a batch size [w] of at
    least 1 cuts the list into consecutive batches: put end to end, the
    batches give the list back, in its order and with nothing repeated or
    left out; every batch holds at least one and at most [w] items; and
    there are [ceil(len / w)] of them, none for the empty list.  For the
    default [w = 1], which is how [main] calls it, every item is a batch of
    its own. *)
Theorem get_input_data_partitions (l : list sample) (w : nat) :
  (1 ≤ w)%nat →
  let batches := (λ left, take w (drop left l)) <$> get_input_data (length l) w in
  concat batches = l
  ∧ Forall (λ b, (1 ≤ length b ≤ w)%nat) batches
  ∧ length batches = Nat.div (length l + w - 1) w
  ∧ (w = 1%nat → batches = (λ s, [s]) <$> l).
Proof.
  intros Hw batches. subst batches. unfold get_input_data, range_step.
  destruct (range_step_bounds (length l) w Hw) as [Hcover Hstart].
  split; [|split; [|split]].
  - by apply chunks_concat.
  - rewrite <- list_fmap_compose. apply Forall_fmap, Forall_forall.
    intros k Hk%elem_of_seq. unfold compose.
    rewrite length_take, length_drop.
    assert (k * w < length l)%nat by (apply Hstart; lia). lia.
  - by rewrite !length_fmap, length_seq.
  - intros ->. replace (length l + 1 - 1)%nat with (length l) by lia.
    rewrite Nat.div_1_r. rewrite <- list_fmap_compose.
    clear. induction l as [|s l IH]; [done|].
    cbn [length seq fmap list_fmap]. rewrite <- fmap_S_seq.
    change (list_fmap _ _ ?f ?l) with (f <$> l).
    f_equal.
    rewrite <- list_fmap_compose, <- IH. apply list_fmap_ext.
    intros _ k _. unfold compose.
    by replace (S k * 1)%nat with (S (k * 1)) by lia.
Qed.

(** X23.  When every item is handled and it is the aggregation of the
    scores that raises, [main] returns normally and the exception is
    reported on the standard output if it is an instance of [Exception];
    otherwise it leaves [main].  By then the loop has written the reports of
    all the items to the results file, and [summarization.json] has been
    written too, with the completion and the score of every item: the dump
    comes before the aggregation.  Only the aggregate line is missing from
    the results file. *)
Theorem main_aggregation_failure (st st0 : world) (e : exn) :
  setup st = (Ok tt, st0) →
  open_results_display = Ok tt →
  Forall (λ s, ∃ r, item_run s = Ok r) (list_data_dict st0) →
  aggregator_aggregate (item_scores (list_data_dict st0)) = Err e →
  main st =
    (if is_Exception e then Ok tt else Err e,
     World (item_done <$> list_data_dict st0)
       (Some (item_reports (list_data_dict st0)))
       (Some (item_done <$> list_data_dict st0))
       (if is_Exception e then stdout st0 ++ [e] else stdout st0)
       (outside st0))
  ∧ (∀ result, AggregateReport result ∉ item_reports (list_data_dict st0)).
Proof.
  intros Hsetup Hopen Hok Hagg. split.
  - pose proof (evaluation_items_Ok st0 Hopen Hok) as Hrun. rewrite Hagg in Hrun.
    by rewrite (main_run_Err st st0 _ e Hsetup Hrun).
  - intros result. apply item_reports_no_aggregate.
Qed.

(** X24.  What fails before the loop.  The statements before the [try] are
    not protected: an exception of the configuration, the construction of
    the bot, the download, the renaming or the loading of the test file
    leaves [main] whatever its class, also when it is an instance of
    [Exception]; [main] reports nothing, the results file and
    [summarization.json] are as they were and [list_data_dict] is not
    assigned, but what the statements up to the failing one did outside
    stays done.  The test file is downloaded and renamed only when it is
    not there, and it is loaded only once the download and the renaming
    have returned: when the download raises, nothing is renamed or loaded.
    An exception of the opening of the results file is inside the [try]: an
    instance of [Exception] is caught and reported and [main] returns
    normally, any other leaves [main]; in both cases no item is generated
    for and no file is written. *)
Theorem main_failures_before_the_loop (st : world) :
  (∀ e st1,
     setup st = (Err e, st1) →
     main st = (Err e, st1)
     ∧ list_data_dict st1 = list_data_dict st
     ∧ results_display st1 = results_display st
     ∧ summarization_json st1 = summarization_json st
     ∧ stdout st1 = stdout st)
  ∧ (∀ o1 o2,
       configure (outside st) = (Ok tt, o1) →
       new_FSChatBot o1 = (Ok tt, o2) →
       (os_path_exists test_file o2 = true →
        setup st =
          match load_jsonl test_file o2 with
          | (Ok data, o3) =>
              (Ok tt, World data (results_display st) (summarization_json st)
                        (stdout st) o3)
          | (Err e, o3) =>
              (Err e, World (list_data_dict st) (results_display st)
                        (summarization_json st) (stdout st) o3)
          end)
       ∧ (os_path_exists test_file o2 = false →
          ∀ e o3,
            download_url test_url data_root o2 = (Err e, o3) →
            setup st =
              (Err e, World (list_data_dict st) (results_display st)
                        (summarization_json st) (stdout st) o3)))
  ∧ (∀ e st0,
       setup st = (Ok tt, st0) →
       open_results_display = Err e →
       main st =
         (if is_Exception e then Ok tt else Err e,
          World (list_data_dict st0) (results_display st0) (summarization_json st0)
            (if is_Exception e then stdout st0 ++ [e] else stdout st0) (outside st0))
       ∧ results_display st0 = results_display st
       ∧ summarization_json st0 = summarization_json st).
Proof.
  split; [|split].
  - intros e st1 Hsetup. split; [by apply main_setup_Err|].
    destruct (setup_frame st st1 (Err e) Hsetup) as (Hd & Hj & Ho & Hl).
    by rewrite Hd, Hj, Ho, (Hl e).
  - intros o1 o2 Hcfg Hbot.
    assert (Hstart : setup st =
              (present ← gets (λ st, os_path_exists test_file (outside st));
               _ ← (if present : bool then mret tt
                    else
                      _ ← on_outside (download_url test_url data_root);
                      on_outside (os_rename (os_path_join data_root (lit "test.jsonl"))
                                    test_file));
               data ← on_outside (load_jsonl test_file);
               modify (λ st, World data (results_display st) (summarization_json st)
                               (stdout st) (outside st)))
                (World (list_data_dict st) (results_display st) (summarization_json st)
                   (stdout st) o2)).
    { unfold setup. unfold mbind at 1, M_bind at 1, on_outside at 1. rewrite Hcfg.
      unfold mbind at 1, M_bind at 1, on_outside at 1.
      cbn [list_data_dict results_display summarization_json stdout outside].
      by rewrite Hbot. }
    rewrite Hstart. split.
    + intros Hthere. unfold mbind, M_bind, gets, on_outside, modify, mret, M_ret.
      cbn [list_data_dict results_display summarization_json stdout outside].
      rewrite Hthere.
      cbn [list_data_dict results_display summarization_json stdout outside].
      by destruct (load_jsonl test_file o2) as [[data|e] o3].
    + intros Hmissing e o3 Hdl. unfold mbind, M_bind, gets, on_outside.
      cbn [list_data_dict results_display summarization_json stdout outside].
      rewrite Hmissing.
      cbn [list_data_dict results_display summarization_json stdout outside].
      by rewrite Hdl.
  - intros e st0 Hsetup Hopen.
    rewrite (main_run_Err st st0 st0 e Hsetup (evaluation_open_Err st0 e Hopen)).
    split; [done|].
    by destruct (setup_frame st st0 (Ok tt) Hsetup) as (-> & -> & _).
Qed.

(** X25.  The item on which the loop fails.  The loop stores the completion
    in the item before it scores it, so the item is left half handled when
    it is the scoring that raises: it has its completion and no new score.
    When the formatting of the prompt, the generation or the indexing of
    the completions raises, the item is as it was.  In both cases the items
    before it are handled, the items after it are untouched, and no report
    of the failing item is written; this is so whether the clause
    [except Exception] catches the exception and [main] returns, or the
    exception leaves [main]. *)
Theorem main_leaves_failing_item_half_handled (st st0 : world)
    (handled rest : list sample) (failing : sample) (e : exn) :
  setup st = (Ok tt, st0) →
  open_results_display = Ok tt →
  list_data_dict st0 = handled ++ failing :: rest →
  Forall (λ s, ∃ r, item_run s = Ok r) handled →
  item_run failing = Err e →
  ∃ failing',
    main st =
      (if is_Exception e then Ok tt else Err e,
       World ((item_done <$> handled) ++ failing' :: rest)
         (Some (item_reports handled)) (summarization_json st0)
         (if is_Exception e then stdout st0 ++ [e] else stdout st0) (outside st0))
    ∧ score failing' = score failing
    ∧ match item_completion failing with
      | Ok text =>
          scorer_score (summary failing) text = Err e
          ∧ failing' = set_completion text failing
      | Err e' => e' = e ∧ failing' = failing
      end.
Proof.
  intros Hsetup Hopen Hdata Hok Hfail.
  exists (match item_completion failing with
          | Ok text => set_completion text failing
          | Err _ => failing
          end).
  split; [|split].
  - by rewrite (main_run_Err st st0 _ e Hsetup
                  (evaluation_item_Err st0 handled rest failing e Hopen Hdata Hok Hfail)).
  - by destruct (item_completion failing).
  - rewrite item_run_completion in Hfail.
    destruct (item_completion failing) as [text|e'].
    + split; [|done]. cbn [mbind res_bind] in Hfail. unfold res_bind in Hfail.
      by destruct (scorer_score (summary failing) text) as [sc|e'']; [|injection Hfail as ->].
    + by injection Hfail as ->.
Qed.

End Eval.

(** ** The claim on three items *)

Definition toy_item (p : string) : @sample nat :=
  Sample (lit "tifu") (lit "title") (lit p) (lit "summary") None None.

Definition toy_items : list (@sample nat) :=
  [toy_item "fine"; toy_item "crash"; toy_item "later"].

Definition toy_prompt (s : @sample nat) : res pystr := Ok (lit "Summarize: " ++ post s).

(** A generator that fails on the post [crash]. *)
Definition toy_generate (input_texts : list pystr) (max_new_tokens : Z)
  : res (list (list pystr)) :=
  if bool_decide (lit "Summarize: crash" ∈ input_texts)
  then Err (Raise "RuntimeError" (lit "CUDA out of memory"))
  else Ok ((λ t, [take (Z.to_nat max_new_tokens) t]) <$> input_texts).

(** A generator that the user interrupts on the post [crash]. *)
Definition interrupted_generate (input_texts : list pystr) (max_new_tokens : Z)
  : res (list (list pystr)) :=
  if bool_decide (lit "Summarize: crash" ∈ input_texts)
  then Err (Raise "KeyboardInterrupt" [])
  else Ok ((λ t, [take (Z.to_nat max_new_tokens) t]) <$> input_texts).

Definition toy_score (target prediction : pystr) : res nat := Ok (length prediction).

Definition toy_aggregate (scores : list nat) : res nat := Ok (sum_list scores).

(** The state outside: the paths of the files of the data directory. *)
Definition FileNotFoundError : exn :=
  Raise "FileNotFoundError" (lit "No such file or directory").

Definition toy_configure : M (list pystr) unit := λ files, (Ok tt, files).

Definition toy_new_FSChatBot : M (list pystr) unit := λ files, (Ok tt, files).

Definition toy_exists (path : pystr) (files : list pystr) : bool :=
  bool_decide (path ∈ files).

Definition toy_download_url (url root : pystr) : M (list pystr) unit := λ files,
  (Ok tt, files ++ [os_path_join root (os_path_basename url)]).

Definition toy_rename (src dst : pystr) : M (list pystr) unit := λ files,
  if bool_decide (src ∈ files)
  then (Ok tt, (λ p, if bool_decide (p = src) then dst else p) <$> files)
  else (Err FileNotFoundError, files).

Definition toy_load_jsonl (items : list (@sample nat)) (path : pystr)
  : M (list pystr) (list (@sample nat)) := λ files,
  if bool_decide (path ∈ files) then (Ok items, files) else (Err FileNotFoundError, files).

(** The builtin classes that are not instances of [Exception]. *)
Definition toy_is_Exception (e : exn) : bool :=
  bool_decide (exn_class e ∉ ["BaseException"; "KeyboardInterrupt"; "SystemExit";
                              "GeneratorExit"]).

(** An empty data directory, and the directory once the test file is
    there. *)
Definition toy_world : @world nat nat (list pystr) := World [] None None [] [].

Definition test_file_there : list pystr := [lit "data/reddit-tldr_test.jsonl"].

Definition toy_world_there : @world nat nat (list pystr) :=
  World [] None None [] test_file_there.

Definition toy_main : M (@world nat nat (list pystr)) unit :=
  main toy_prompt toy_generate 4 toy_score toy_aggregate (Ok tt) (lit "data")
    toy_configure toy_new_FSChatBot toy_exists toy_download_url toy_rename
    (toy_load_jsonl toy_items) toy_is_Exception.

Definition fine_done : @sample nat :=
  Sample (lit "tifu") (lit "title") (lit "fine") (lit "summary") (Some (lit "Summ")) (Some 4%nat).

Lemma main_catches_and_keeps_flushed_reports_witness :
  (∃ failing',
     toy_main toy_world =
       (Ok tt,
        World [fine_done; failing'; toy_item "later"]
          (Some [ItemReport fine_done; Separator]) None
          [Raise "RuntimeError" (lit "CUDA out of memory")] test_file_there))
  ∧ (∃ failing',
       main toy_prompt interrupted_generate 4 toy_score toy_aggregate (Ok tt) (lit "data")
         toy_configure toy_new_FSChatBot toy_exists toy_download_url toy_rename
         (toy_load_jsonl toy_items) toy_is_Exception toy_world =
       (Err (Raise "KeyboardInterrupt" []),
        World [fine_done; failing'; toy_item "later"]
          (Some [ItemReport fine_done; Separator]) None [] test_file_there)).
Proof.
  split.
  - destruct (main_catches_and_keeps_flushed_reports toy_prompt toy_generate 4 toy_score
                toy_aggregate (Ok tt) (lit "data") toy_configure toy_new_FSChatBot
                toy_exists toy_download_url toy_rename (toy_load_jsonl toy_items)
                toy_is_Exception toy_world (World toy_items None None [] test_file_there))
      as (_ & Hfail & _); [vm_compute; reflexivity|].
    destruct (Hfail [toy_item "fine"] (toy_item "crash") [toy_item "later"]
                (Raise "RuntimeError" (lit "CUDA out of memory")))
      as (failing' & Hrun & _).
    + reflexivity.
    + reflexivity.
    + constructor; [|constructor]. eexists. vm_compute. reflexivity.
    + vm_compute. reflexivity.
    + exists failing'. unfold toy_main. rewrite Hrun. reflexivity.
  - destruct (main_catches_and_keeps_flushed_reports toy_prompt interrupted_generate 4
                toy_score toy_aggregate (Ok tt) (lit "data") toy_configure
                toy_new_FSChatBot toy_exists toy_download_url toy_rename
                (toy_load_jsonl toy_items) toy_is_Exception toy_world
                (World toy_items None None [] test_file_there))
      as (_ & Hfail & _); [vm_compute; reflexivity|].
    destruct (Hfail [toy_item "fine"] (toy_item "crash") [toy_item "later"]
                (Raise "KeyboardInterrupt" []))
      as (failing' & Hrun & _).
    + reflexivity.
    + reflexivity.
    + constructor; [|constructor]. eexists. vm_compute. reflexivity.
    + vm_compute. reflexivity.
    + exists failing'. rewrite Hrun. reflexivity.
Defined.

(** C8, as stated, fails: when the generation raises on the second of three
    items, [main] returns normally and the results file holds the report of
    the first item, but no aggregate report is written to it and
    [summarization.json] is not created. *)
Lemma main_writes_no_aggregate_after_exception :
  toy_main toy_world =
    (Ok tt,
     World [fine_done; toy_item "crash"; toy_item "later"]
       (Some [ItemReport fine_done; Separator]) None
       [Raise "RuntimeError" (lit "CUDA out of memory")] test_file_there)
  ∧ (∀ result : nat,
       AggregateReport result ∉ [ItemReport fine_done; @Separator nat nat])
  ∧ summarization_json (toy_main toy_world).2 = None.
Proof.
  split; [vm_compute; reflexivity|]. split; [|vm_compute; reflexivity].
  intros result Hin. apply list_elem_of_In in Hin.
  destruct Hin as [Hin|[Hin|[]]]; discriminate Hin.
Qed.

(** ** The further properties on the three items *)

Lemma get_input_data_partitions_witness :
  (λ left, take 2 (drop left [toy_item "fine"; toy_item "crash"; toy_item "later"]))
    <$> get_input_data 3 2 =
  [[toy_item "fine"; toy_item "crash"]; [toy_item "later"]]
  ∧ concat ((λ left, take 2 (drop left [toy_item "fine"; toy_item "crash"; toy_item "later"]))
              <$> get_input_data 3 2) =
    [toy_item "fine"; toy_item "crash"; toy_item "later"].
Proof.
  destruct (get_input_data_partitions
              [toy_item "fine"; toy_item "crash"; toy_item "later"] 2) as (Hcat & _).
  - lia.
  - split; [reflexivity|exact Hcat].
Defined.

Definition failing_aggregate (scores : list nat) : res nat :=
  Err (Raise "ValueError" (lit "no scores")).

Definition later_done : @sample nat :=
  Sample (lit "tifu") (lit "title") (lit "later") (lit "summary") (Some (lit "Summ"))
    (Some 4%nat).

Lemma main_aggregation_failure_witness :
  main toy_prompt toy_generate 4 toy_score failing_aggregate (Ok tt) (lit "data")
    toy_configure toy_new_FSChatBot toy_exists toy_download_url toy_rename
    (toy_load_jsonl [toy_item "fine"; toy_item "later"]) toy_is_Exception toy_world =
  (Ok tt,
   World [fine_done; later_done]
     (Some [ItemReport fine_done; Separator; ItemReport later_done; Separator])
     (Some [fine_done; later_done])
     [Raise "ValueError" (lit "no scores")] test_file_there).
Proof.
  destruct (main_aggregation_failure toy_prompt toy_generate 4 toy_score failing_aggregate
              (Ok tt) (lit "data") toy_configure toy_new_FSChatBot toy_exists
              toy_download_url toy_rename
              (toy_load_jsonl [toy_item "fine"; toy_item "later"]) toy_is_Exception
              toy_world
              (World [toy_item "fine"; toy_item "later"] None None [] test_file_there)
              (Raise "ValueError" (lit "no scores"))) as [Hrun _].
  - vm_compute. reflexivity.
  - reflexivity.
  - repeat constructor; eexists; vm_compute; reflexivity.
  - reflexivity.
  - rewrite Hrun. vm_compute. reflexivity.
Defined.

Definition no_disk_space : exn := Raise "OSError" (lit "No space left on device").

(** A construction of the bot that fails on the model type. *)
Definition failing_new_FSChatBot : M (list pystr) unit := λ files,
  (Err (ValueError "not enough values to unpack (expected 2, got 1)"), files).

Lemma main_failures_before_the_loop_witness :
  main toy_prompt toy_generate 4 toy_score toy_aggregate (Err no_disk_space) (lit "data")
    toy_configure toy_new_FSChatBot toy_exists toy_download_url toy_rename
    (toy_load_jsonl toy_items) toy_is_Exception toy_world =
    (Ok tt, World toy_items None None [no_disk_space] test_file_there)
  ∧ main toy_prompt toy_generate 4 toy_score toy_aggregate (Ok tt) (lit "data")
      toy_configure failing_new_FSChatBot toy_exists toy_download_url toy_rename
      (toy_load_jsonl toy_items) toy_is_Exception toy_world =
    (Err (ValueError "not enough values to unpack (expected 2, got 1)"), toy_world)
  ∧ setup (lit "data") toy_configure toy_new_FSChatBot toy_exists toy_download_url
      toy_rename (toy_load_jsonl toy_items) toy_world_there =
    (Ok tt, World toy_items None None [] test_file_there).
Proof.
  split; [|split].
  - destruct (main_failures_before_the_loop toy_prompt toy_generate 4 toy_score
                toy_aggregate (Err no_disk_space) (lit "data") toy_configure
                toy_new_FSChatBot toy_exists toy_download_url toy_rename
                (toy_load_jsonl toy_items) toy_is_Exception toy_world)
      as (_ & _ & Hopen).
    destruct (Hopen no_disk_space (World toy_items None None [] test_file_there))
      as [Hrun _].
    + vm_compute. reflexivity.
    + reflexivity.
    + rewrite Hrun. reflexivity.
  - destruct (main_failures_before_the_loop toy_prompt toy_generate 4 toy_score
                toy_aggregate (Ok tt) (lit "data") toy_configure
                failing_new_FSChatBot toy_exists toy_download_url toy_rename
                (toy_load_jsonl toy_items) toy_is_Exception toy_world)
      as (Hsetup & _).
    apply Hsetup. vm_compute. reflexivity.
  - destruct (main_failures_before_the_loop toy_prompt toy_generate 4 toy_score
                toy_aggregate (Ok tt) (lit "data") toy_configure
                toy_new_FSChatBot toy_exists toy_download_url toy_rename
                (toy_load_jsonl toy_items) toy_is_Exception toy_world_there)
      as (_ & Hthere & _).
    destruct (Hthere test_file_there test_file_there) as [Hload _];
      [reflexivity|reflexivity|].
    rewrite Hload; [|vm_compute; reflexivity]. vm_compute. reflexivity.
Defined.

(** A scorer that rejects every prediction. *)
Definition failing_score (target prediction : pystr) : res nat :=
  Err (Raise "ValueError" (lit "empty reference")).

Lemma main_leaves_failing_item_half_handled_witness :
  main toy_prompt toy_generate 4 failing_score toy_aggregate (Ok tt) (lit "data")
    toy_configure toy_new_FSChatBot toy_exists toy_download_url toy_rename
    (toy_load_jsonl toy_items) toy_is_Exception toy_world =
  (Ok tt,
   World [Sample (lit "tifu") (lit "title") (lit "fine") (lit "summary")
            (Some (lit "Summ")) None;
          toy_item "crash"; toy_item "later"]
     (Some []) None [Raise "ValueError" (lit "empty reference")] test_file_there).
Proof.
  destruct (main_leaves_failing_item_half_handled toy_prompt toy_generate 4 failing_score
              toy_aggregate (Ok tt) (lit "data") toy_configure toy_new_FSChatBot
              toy_exists toy_download_url toy_rename (toy_load_jsonl toy_items)
              toy_is_Exception toy_world (World toy_items None None [] test_file_there)
              [] [toy_item "crash"; toy_item "later"]
              (toy_item "fine") (Raise "ValueError" (lit "empty reference")))
    as (failing' & Hrun & _ & Hitem).
  - vm_compute. reflexivity.
  - reflexivity.
  - reflexivity.
  - constructor.
  - vm_compute. reflexivity.
  - rewrite Hrun. vm_compute in Hitem. destruct Hitem as [_ ->]. reflexivity.
Defined.

End EvalSummarization.
